(** * LD masking pipeline: a shallow embedding of the Python sources

    The development follows the repository module by module:
    [graph_builder.py] and the five strategies under [mask/].  Python
    values are embedded as follows.

    - [str] is [string]; a character is a code point below 256.
    - [float] is kept behind the interface [PyFloat]: the program only
      parses, compares, multiplies and subtracts doubles, and the laws the
      interface asks for are the IEEE-754 facts the proofs rely on.
    - [dict] / [defaultdict] is [gmap], [set] is [gset].
    - the global NumPy generator is explicit state ([world]), threaded
      through a small state-and-exception monad [M].
    - NumPy's random draws, scikit-learn's clustering and the Polars cast
      are external to the repository and are taken through interfaces.
    - [pl.DataFrame] is called on lists of lists with a list of names and
      no [orient=]; how Polars then reads the lists, as rows or, when they
      are as many as the names, as columns, is written out where a frame
      is built ([pl_DataFrame], [batch_frame], [nodes_frame]). *)

From Stdlib Require Import ZArith QArith Ascii String List Permutation Sorted Lia.
From stdpp Require Import base gmap sets list strings sorting pretty.

Open Scope string_scope.
Open Scope list_scope.
Open Scope nat_scope.

(* ===================================================================== *)
(** ** Python built-ins                                                   *)
(* ===================================================================== *)

Module Py.

(** Exceptions that the modelled code paths can raise. *)
Inductive exn : Type :=
| ValueError | ZeroDivisionError | IndexError | TypeError | OverflowError
| KeyError | InvalidOperationError.

Inductive result (A : Type) : Type :=
| Ok (a : A)
| Raise (e : exn).
Arguments Ok {A} a.
Arguments Raise {A} e.

Definition is_ok {A} (r : result A) : bool :=
  match r with Ok _ => true | Raise _ => false end.

(** [str.isspace] on code points below 256. *)
Definition isspace (c : ascii) : bool :=
  let n := nat_of_ascii c in
  (Nat.leb 9 n && Nat.leb n 13) || (Nat.leb 28 n && Nat.leb n 32)
  || Nat.eqb n 133 || Nat.eqb n 160.

Fixpoint lstrip (s : string) : string :=
  match s with
  | String c s' => if isspace c then lstrip s' else s
  | EmptyString => EmptyString
  end.

(** [s.strip()] *)
Definition strip (s : string) : string :=
  String.rev (lstrip (String.rev (lstrip s))).

Definition flush (cur : string) (rest : list string) : list string :=
  match cur with
  | EmptyString => rest
  | _ => String.rev cur :: rest
  end.

(** [cur] holds the current field, last character first. *)
Fixpoint split_go (cur : string) (s : string) : list string :=
  match s with
  | EmptyString => flush cur []
  | String c s' =>
      if isspace c then flush cur (split_go EmptyString s')
      else split_go (String c cur) s'
  end.

(** [s.split()]: fields separated by runs of whitespace, no empty field. *)
Definition split (s : string) : list string := split_go EmptyString s.

Fixpoint split_on_go (sep : ascii) (cur : string) (s : string) : list string :=
  match s with
  | EmptyString => [String.rev cur]
  | String c s' =>
      if Ascii.eqb c sep then String.rev cur :: split_on_go sep EmptyString s'
      else split_on_go sep (String c cur) s'
  end.

(** [s.split(sep)] for a one-character separator: empty fields are kept. *)
Definition split_on (sep : ascii) (s : string) : list string :=
  split_on_go sep EmptyString s.

(** [xs[i]] *)
Definition index {A} (xs : list A) (i : nat) : result A :=
  match xs !! i with
  | Some x => Ok x
  | None => Raise IndexError
  end.

(** [xs[:k]] for an [int] k: a negative k counts from the end. *)
Definition slice_to {A} (k : Z) (xs : list A) : list A :=
  if (0 <=? k)%Z then take (Z.to_nat k) xs
  else take (length xs - Z.to_nat (- k)) xs.

(** [sorted(list(s))] for a set of strings: ascending code-point order. *)
Definition sorted_strs (s : gset string) : list string :=
  merge_sort String.le (elements s).

(** A [dict] whose iteration order matters: keys in insertion order. *)
Fixpoint dict_set {K V} `{EqDecision K} (k : K) (v : V) (d : list (K * V))
  : list (K * V) :=
  match d with
  | [] => [(k, v)]
  | (k', v') :: d' =>
      if decide (k = k') then (k, v) :: d' else (k', v') :: dict_set k v d'
  end.

Fixpoint dict_get {K V} `{EqDecision K} (k : K) (d : list (K * V)) : option V :=
  match d with
  | [] => None
  | (k', v') :: d' => if decide (k = k') then Some v' else dict_get k d'
  end.

(** [d[k]] *)
Definition dict_item {K V} `{EqDecision K} (d : list (K * V)) (k : K) : result V :=
  match dict_get k d with
  | Some v => Ok v
  | None => Raise KeyError
  end.

(** [f"{a}_{b}"] *)
Definition key (a b : string) : string := (a ++ "_" ++ b)%string.

End Py.
Export Py.

(** Doubles.  [fle] is [<=]; the other comparisons are the IEEE readings
    of it (any comparison with NaN is false). *)
Class PyFloat : Type := {
  float : Type;
  float_of_str : string -> option float;   (* float(s); None is ValueError *)
  int_of_str : string -> option Z;         (* int(s); None is ValueError *)
  flit : Z -> Z -> float;                  (* the literal m * 10^e *)
  fint : float -> result Z;                (* int(x) *)
  fle : float -> float -> bool;
  fadd : float -> float -> float;
  fsub : float -> float -> float;
  fmul : float -> float -> float;
  fdiv : float -> float -> float;          (* NumPy division: never raises *)
  fpow : float -> Z -> float;              (* x ** n *)
  fle_trans : forall a b c, fle a b = true -> fle b c = true -> fle a c = true;
  fle_total : forall a b,
      fle a a = true -> fle b b = true -> fle a b = true \/ fle b a = true;
  fle_number : forall a b, fle a b = true -> fle a a = true /\ fle b b = true;
  fle_0_half : fle (flit 0 0) (flit 5 (-1)) = true;
  fmul_half_nonneg : forall x,
      fle (flit 0 0) x = true -> fle (flit 0 0) (fmul x (flit 5 (-1))) = true
}.

Section FloatOps.
Context `{PyFloat}.

Definition fge (a b : float) : bool := fle b a.
Definition flt (a b : float) : bool := fle a b && negb (fle b a).
Definition fgt (a b : float) : bool := flt b a.
Definition float_of_Z (n : Z) : float := flit n 0.
Definition float_of_nat (n : nat) : float := flit (Z.of_nat n) 0.

(** [min(a, b)]: the first argument unless the second is smaller. *)
Definition py_min (a b : float) : float := if flt b a then b else a.

(** Insertion into an ascending list, before the first element that is
    not smaller: equal keys keep their order. *)
Fixpoint insert_by {A} (k : A -> float) (x : A) (l : list A) : list A :=
  match l with
  | [] => [x]
  | y :: l' => if flt (k y) (k x) then y :: insert_by k x l' else x :: l
  end.

Definition sort_asc {A} (k : A -> float) (l : list A) : list A :=
  foldr (insert_by k) [] l.

(** [l.sort(key=k, reverse=True)]: CPython reverses the list, sorts it
    ascending and stably, and reverses the outcome. *)
Definition sort_reverse {A} (k : A -> float) (l : list A) : list A :=
  reverse (sort_asc k (reverse l)).

End FloatOps.

(* ===================================================================== *)
(** ** External libraries                                                 *)
(* ===================================================================== *)

(** NumPy.  [rng] is the state of the global generator behind
    [np.random.*]; every draw returns the state that follows it.  The laws
    are the documented contracts of the calls. *)
Class NumPy `{PyFloat} : Type := {
  rng : Type;
  np_seed : Z -> rng;
  np_random : nat -> rng -> list float * rng;
  (* positions drawn by choice(a, size=k, replace=False) on a population
     of n elements *)
  np_choice_idx : forall (n k : nat), rng -> list nat * rng;
  (* choice(len(p), p=p) and choice(len(p), size=k, p=p) *)
  np_choice_p1 : list float -> rng -> nat * rng;
  np_choice_p : list float -> nat -> rng -> list nat * rng;
  (* the rearrangement applied by shuffle to a list of n elements *)
  np_shuffle_idx : nat -> rng -> list nat * rng;
  np_beta : Z -> Z -> rng -> float * rng;
  np_uniform : float -> float -> rng -> float * rng;
  np_mean : list float -> float;
  np_var : list float -> float;
  np_std : list float -> float;
  np_argsort : list float -> list nat;
  np_random_length : forall n g, length (np_random n g).1 = n;
  np_choice_idx_length : forall n k g,
      k <= n -> length (np_choice_idx n k g).1 = k;
  np_choice_idx_NoDup : forall n k g, NoDup (np_choice_idx n k g).1;
  np_choice_idx_bound : forall n k g i,
      i ∈ (np_choice_idx n k g).1 -> i < n;
  np_choice_p1_bound : forall p g, p <> [] -> (np_choice_p1 p g).1 < length p;
  np_shuffle_idx_perm : forall n g, Permutation (np_shuffle_idx n g).1 (seq 0 n);
  np_beta_nonneg : forall a b g, fle (flit 0 0) (np_beta a b g).1 = true;
  np_argsort_perm : forall l, Permutation (np_argsort l) (seq 0 (length l));
  np_argsort_sorted : forall l p q i j x y,
      p < q -> np_argsort l !! p = Some i -> np_argsort l !! q = Some j ->
      l !! i = Some x -> l !! j = Some y -> flt y x = false
}.

(** scikit-learn: [AgglomerativeClustering(n_clusters, metric='precomputed',
    linkage='average').fit_predict(D)], one label per row of [D]. *)
Class Sklearn `{PyFloat} : Type := {
  fit_predict : Z -> list (list float) -> result (list nat);
  fit_predict_length : forall n D labels,
      fit_predict n D = Ok labels -> length labels = length D
}.

(** Polars: the strict cast of a string cell to [Float64]. *)
Class Polars `{PyFloat} : Type := {
  cast_f64 : string -> option float
}.

(* ===================================================================== *)
(** ** Tables, the world and the monad                                    *)
(* ===================================================================== *)

Section World.
Context `{NumPy}.

(** Rows are built as heterogeneous lists and handed to [pl.DataFrame]
    with a list of column names. *)
Inductive cell : Type :=
| CStr (s : string)
| CBool (b : bool)
| CInt (z : Z)
| CFloat (x : float).

Record DataFrame : Type := mkDF {
  schema : list string;
  rows : list (list cell)
}.

(** [pl.DataFrame()] *)
Definition empty_df : DataFrame := mkDF [] [].

(** Two cells hold values of the same Python type. *)
Definition same_type (a b : cell) : bool :=
  match a, b with
  | CStr _, CStr _ | CBool _, CBool _ | CInt _, CInt _ | CFloat _, CFloat _ => true
  | _, _ => false
  end.

(** [pl.Series(name, values)], the list taken as one column: the first
    value gives the column its type and a value of another type is refused.
    The lists this program hands over hold strings only, or a string first
    and a bool after it. *)
Definition series (values : list cell) : result (list cell) :=
  match values with
  | [] => Ok []
  | v :: _ => if forallb (same_type v) values then Ok values else Raise TypeError
  end.

Fixpoint all_series (data : list (list cell)) : result (list (list cell)) :=
  match data with
  | [] => Ok []
  | values :: rest =>
      match series values, all_series rest with
      | Ok c, Ok cs => Ok (c :: cs)
      | Raise e, _ => Raise e
      | _, Raise e => Raise e
      end
  end.

(** The rows of a frame given by its columns, each of [height] cells. *)
Definition rows_of_columns {A} (height : nat) (columns : list (list A))
  : list (list A) :=
  (fun j => omap (fun c => c !! j) columns) <$> seq 0 height.

(** [pl.DataFrame(data, schema=names)] for a list of lists with one
    value per name each, and no [orient=]: Polars takes the lists for the
    rows of the frame unless there are as many lists as names; then it
    takes them for its columns. *)
Definition pl_DataFrame (names : list string) (data : list (list cell))
  : result DataFrame :=
  if Nat.eqb (length data) (length names) then
    match all_series data with
    | Ok columns => Ok (mkDF names (rows_of_columns (length names) columns))
    | Raise e => Raise e
    end
  else Ok (mkDF names data).

(** [pl.concat(chunks) if chunks else pl.DataFrame()] *)
Definition concat_df (chunks : list DataFrame) : DataFrame :=
  match chunks with
  | [] => empty_df
  | c :: _ => mkDF (schema c) (concat (map rows chunks))
  end.

(** The part of the process state the strategies touch: the global
    generator and the file written by [write_csv]. *)
Record world : Type := mkWorld {
  w_rng : rng;
  w_disk : option DataFrame
}.

Definition M (A : Type) : Type := world -> result A * world.

Definition ret {A} (a : A) : M A := fun w => (Ok a, w).
Definition raise {A} (e : exn) : M A := fun w => (Raise e, w).
Definition bind {A B} (m : M A) (k : A -> M B) : M B :=
  fun w => match m w with
           | (Ok a, w') => k a w'
           | (Raise e, w') => (Raise e, w')
           end.
Definition lift {A} (r : result A) : M A := fun w => (r, w).

(** A seed NumPy accepts: an integer from 0 to 2**32 - 1. *)
Definition seed_ok (k : Z) : bool := (0 <=? k)%Z && (k <? 2 ^ 32)%Z.

(** [np.random.seed(k)] *)
Definition seed (k : Z) : M unit :=
  fun w => if seed_ok k then (Ok tt, mkWorld (np_seed k) (w_disk w))
           else (Raise ValueError, w).

(** A draw from the global generator. *)
Definition draw {A} (f : rng -> A * rng) : M A :=
  fun w => let '(a, g) := f (w_rng w) in (Ok a, mkWorld g (w_disk w)).

(** [os.makedirs(...); df.write_csv(path)] *)
Definition write_csv (df : DataFrame) : M unit :=
  fun w => (Ok tt, mkWorld (w_rng w) (Some df)).

End World.

Notation "'let*' x ':=' m 'in' k" := (bind m (fun x => k))
  (at level 10, x name, m at level 100, k at level 200).
Notation "'let*' ' p ':=' m 'in' k" := (bind m (fun x => match x with p => k end))
  (at level 10, p strict pattern, m at level 100, k at level 200).

Section NumPyCalls.
Context `{NumPy}.

(** [np.random.choice(a, size=k, replace=False)] for a list [a].  NumPy
    refuses a negative size and a sample larger than the population. *)
Definition np_choice {A} (a : list A) (k : Z) : M (list A) :=
  if (k <? 0)%Z then raise ValueError
  else if (Z.of_nat (length a) <? k)%Z then raise ValueError
  else let* idx := draw (np_choice_idx (length a) (Z.to_nat k)) in
       ret (omap (fun i => a !! i) idx).

(** [np.random.shuffle(l)] *)
Definition np_shuffle {A} (l : list A) : M (list A) :=
  let* idx := draw (np_shuffle_idx (length l)) in
  ret (omap (fun i => l !! i) idx).

(** [int(n * rate)] for an [int] n and a [float] rate. *)
Definition int_scaled (n : nat) (rate : float) : result Z :=
  fint (fmul (float_of_nat n) rate).

(** [a / b] on two [int]s. *)
Definition truediv (a b : Z) : result float :=
  if (b =? 0)%Z then Raise ZeroDivisionError
  else Ok (fdiv (float_of_Z a) (float_of_Z b)).

(** A [for] loop whose body may raise. *)
Fixpoint for_each {A S} (xs : list A) (body : S -> A -> M S) (s : S) : M S :=
  match xs with
  | [] => ret s
  | x :: xs' => let* s' := body s x in for_each xs' body s'
  end.

End NumPyCalls.

(* ===================================================================== *)
(** ** The streaming reader shared by every module                        *)
(* ===================================================================== *)

Module Reader.

Definition newline : ascii := ascii_of_nat 10.

Fixpoint lines_go (cur : string) (s : string) : list string :=
  match s with
  | EmptyString => flush cur []
  | String c s' =>
      if Ascii.eqb c newline
      then String.rev (String c cur) :: lines_go EmptyString s'
      else lines_go (String c cur) s'
  end.

(** [open(path, 'r')]: the handle is the list of lines still to be
    read, each with its newline, as [readline] will return them. *)
Definition open_text (content : string) : list string :=
  lines_go EmptyString content.

(** [f.readline()]: the empty string at the end of the file. *)
Definition readline (f : list string) : string * list string :=
  match f with
  | [] => (EmptyString, [])
  | l :: f' => (l, f')
  end.

(** [for _ in range(batch_size): line = f.readline(); if not line: break;
    lines.append(line)] *)
Fixpoint read_batch (n : nat) (f : list string) : list string * list string :=
  match n with
  | 0 => ([], f)
  | S n' =>
      let '(line, f') := readline f in
      match line with
      | EmptyString => ([], f')
      | _ => let '(ls, f'') := read_batch n' f' in (line :: ls, f'')
      end
  end.

(** [while True: ...; if not lines: break; ...]: the batches in the
    order they are processed.  Every round but the last consumes a line,
    so [S (length f)] rounds are enough ([batches_enough]). *)
Fixpoint batches_fuel (fuel : nat) (batch_size : nat) (f : list string)
  : list (list string) :=
  match fuel with
  | 0 => []
  | S fuel' =>
      let '(lines, f') := read_batch batch_size f in
      match lines with
      | [] => []
      | _ => lines :: batches_fuel fuel' batch_size f'
      end
  end.

Definition batches (batch_size : nat) (content : string) : list (list string) :=
  let f := open_text content in
  batches_fuel (S (length f)) batch_size f.

End Reader.
Export Reader.

(** The seven columns of a data line, named as the modules name them. *)
Record ld_row : Type := mkRow {
  CHR_A : string; BP_A : string; SNP_A : string;
  CHR_B : string; BP_B : string; SNP_B : string;
  R2 : string
}.

(** [parts = line.strip().split()] under the guard
    [len(parts) >= 7 and parts[6] != 'R2']: [parts[0]] .. [parts[6]]. *)
Definition fields (line : string) : option ld_row :=
  match split (strip line) with
  | p0 :: p1 :: p2 :: p3 :: p4 :: p5 :: p6 :: _ =>
      if decide (p6 = "R2") then None
      else Some (mkRow p0 p1 p2 p3 p4 p5 p6)
  | _ => None
  end.

Definition snp_a (r : ld_row) : string := key (CHR_A r) (BP_A r).
Definition snp_b (r : ld_row) : string := key (CHR_B r) (BP_B r).

(** [pl.DataFrame(batch_data, schema=['CHR_A', ..., 'R2'])] for the data
    lines of a batch, with no [orient=]: the lines are the rows of the
    frame unless there are seven of them, as many as names.  Seven lists of
    seven strings are taken for the seven columns, and row j of the frame
    holds field j of each line. *)
Definition batch_frame (batch_data : list ld_row) : list ld_row :=
  match batch_data with
  | [l0; l1; l2; l3; l4; l5; l6] =>
      (fun field : ld_row -> string =>
         mkRow (field l0) (field l1) (field l2) (field l3)
               (field l4) (field l5) (field l6))
        <$> [CHR_A; BP_A; SNP_A; CHR_B; BP_B; SNP_B; R2]
  | _ => batch_data
  end.

(** The nested loops [while True: ... for line in lines: ...] over a state. *)
Definition scan {S} (step : S -> string -> S) (batch_size : nat)
  (content : string) (init : S) : S :=
  foldl (fun st lines => foldl step st lines) init (batches batch_size content).

(* ===================================================================== *)
(** ** mask/k-nearest_SNP_masking.py                                      *)
(* ===================================================================== *)

Module KNearest.
Section KNearest.
Context `{NumPy}.

Record config : Type := mkConfig {
  k : Z;
  missing_rate : float;
  r2_threshold : float
}.

(** [d[a].append(x)] on a [defaultdict(list)]. *)
Definition dd_append (a : string) (x : string * float)
  (d : gmap string (list (string * float))) : gmap string (list (string * float)) :=
  <[a := default [] (d !! a) ++ [x]]> d.

(** The edge a line contributes, if it passes the guards of lines 44-47. *)
Definition edge_of (cfg : config) (line : string) : option (string * string * float) :=
  match fields line with
  | Some r =>
      match float_of_str (R2 r) with
      | Some r2_value =>
          if fge r2_value (r2_threshold cfg)
          then Some (snp_a r, snp_b r, r2_value)
          else None
      | None => None
      end
  | None => None
  end.

(** The body of [for line in lines] (lines 42-55). *)
Definition add_line (cfg : config)
  (st : gmap string (list (string * float)) * gset string) (line : string)
  : gmap string (list (string * float)) * gset string :=
  match edge_of cfg line with
  | Some (a, b, r2_value) =>
      let snp_neighbors := dd_append a (b, r2_value) st.1 in
      let snp_neighbors := dd_append b (a, r2_value) snp_neighbors in
      (snp_neighbors, st.2 ∪ {[a; b]})
  | None => st
  end.

Definition build (cfg : config) (batch_size : nat) (content : string)
  : gmap string (list (string * float)) * gset string :=
  scan (add_line cfg) batch_size content (∅, ∅).

(** Lines 57-59: every neighbor list is sorted on R2, highest first. *)
Definition sort_neighbors (g : gmap string (list (string * float)))
  : gmap string (list (string * float)) :=
  sort_reverse snd <$> g.

(** Lines 76-77. *)
Definition k_nearest (cfg : config) (g : gmap string (list (string * float)))
  (seed_snp : string) : list (string * float) :=
  slice_to (k cfg) (default [] (g !! seed_snp)).

(** The body of [for seed_snp in seed_snps] (lines 72-80). *)
Definition mask_seed (cfg : config) (g : gmap string (list (string * float)))
  (masked_snps : gset string) (seed_snp : string) : gset string :=
  foldl (fun m nb => m ∪ {[nb.1]}) (masked_snps ∪ {[seed_snp]})
        (k_nearest cfg g seed_snp).

Definition mask_seeds (cfg : config) (g : gmap string (list (string * float)))
  (seed_snps : list string) : gset string :=
  foldl (mask_seed cfg g) ∅ seed_snps.

Definition mask_row (g : gmap string (list (string * float)))
  (masked_snps : gset string) (seed_snps : list string)
  (mask_data : list (list cell)) (snp : string) : M (list (list cell)) :=
  let chr_pos := split_on "_" snp in
  let is_masked := bool_decide (snp ∈ masked_snps) in
  let is_seed := bool_decide (snp ∈ seed_snps) in
  let n_neighbors := length (default [] (g !! snp)) in
  let* c0 := lift (index chr_pos 0) in
  let* c1 := lift (index chr_pos 1) in
  ret (mask_data ++ [[CStr c0; CStr c1; CStr snp; CBool is_masked;
                      CBool is_seed; CInt (Z.of_nat n_neighbors)]]).

Definition create_mask_from_ld (cfg : config) (content : string)
  (batch_size : nat) : M DataFrame :=
  let '(snp_neighbors, unique_snps) := build cfg batch_size content in
  let snp_neighbors := sort_neighbors snp_neighbors in
  let snp_list := sorted_strs unique_snps in
  let* n_seeds := lift (int_scaled (length snp_list) (missing_rate cfg)) in
  let* _ := seed 42 in
  let* seed_snps := np_choice snp_list n_seeds in
  let masked_snps := mask_seeds cfg snp_neighbors seed_snps in
  let* mask_data := for_each snp_list
                      (mask_row snp_neighbors masked_snps seed_snps) [] in
  let* mask_df :=
    lift (pl_DataFrame ["CHR"; "POS"; "SNP_ID"; "MASKED"; "IS_SEED"; "N_NEIGHBORS"]
                       mask_data) in
  let* _ := write_csv mask_df in
  (* line 111: len(masked_snps)/len(snp_list)*100 *)
  let* _ := lift (truediv (Z.of_nat (size masked_snps))
                          (Z.of_nat (length snp_list))) in
  ret mask_df.

End KNearest.
End KNearest.

(* ===================================================================== *)
(** ** mask/Column-wise_missingness.py                                    *)
(* ===================================================================== *)

(** Lines 39-43 of the column-wise module, shared word for word by the
    random and the row-wise modules: every data line contributes its two
    keys, whatever its R2. *)
Definition collect_snps (unique_snps : gset string) (line : string) : gset string :=
  match fields line with
  | Some r => unique_snps ∪ {[snp_a r; snp_b r]}
  | None => unique_snps
  end.

Module Columnwise.
Section Columnwise.
Context `{NumPy}.

Record config : Type := mkConfig { missing_rate : float }.

Definition mask_row (masked_snps : list string)
  (mask_data : list (list cell)) (snp : string) : M (list (list cell)) :=
  let chr_pos := split_on "_" snp in
  let is_masked := bool_decide (snp ∈ masked_snps) in
  let* c0 := lift (index chr_pos 0) in
  let* c1 := lift (index chr_pos 1) in
  ret (mask_data ++ [[CStr c0; CStr c1; CStr snp; CBool is_masked]]).

Definition create_mask_from_ld (cfg : config) (content : string)
  (batch_size : nat) : M DataFrame :=
  let unique_snps := scan collect_snps batch_size content ∅ in
  let snp_list := sorted_strs unique_snps in
  let* n_mask := lift (int_scaled (length snp_list) (missing_rate cfg)) in
  let* _ := seed 42 in
  let* masked_snps := np_choice snp_list n_mask in
  let* mask_data := for_each snp_list (mask_row masked_snps) [] in
  let* mask_df :=
    lift (pl_DataFrame ["CHR"; "POS"; "SNP_ID"; "MASKED"] mask_data) in
  let* _ := write_csv mask_df in
  ret mask_df.

End Columnwise.
End Columnwise.

(* ===================================================================== *)
(** ** mask/random_masking.py                                             *)
(* ===================================================================== *)

Module RandomMasking.
Section RandomMasking.
Context `{NumPy}.

Record config : Type := mkConfig {
  missing_rate : float;
  seed_ : Z
}.

(** Lines 17-27. *)
Definition generate_random_masks (cfg : config) (n_snps : nat)
  : M (list (list float)) :=
  let* _ := seed (seed_ cfg) in
  let* m0 := draw (np_random n_snps) in
  let* m1 := draw (np_random n_snps) in
  let* m2 := draw (np_random n_snps) in
  ret [m0; m1; m2].

(** [a[idx]] for an index array: [IndexError] when out of bounds. *)
Fixpoint take_at {A} (a : list A) (idx : list nat) : result (list A) :=
  match idx with
  | [] => Ok []
  | i :: idx' =>
      match index a i, take_at a idx' with
      | Ok x, Ok xs => Ok (x :: xs)
      | Raise e, _ => Raise e
      | _, Raise e => Raise e
      end
  end.

(** [np.where(a == x)[0][0]]: the first position holding [x]. *)
Definition where_first (a : list nat) (x : nat) : result nat :=
  match list_find (fun y => y = x) a with
  | Some (pos, _) => Ok pos
  | None => Raise IndexError
  end.

(** The body of the loop of lines 49-51. *)
Definition stage2_step (primary_indices : list nat)
  (secondary_selection : list float) (masked_indices : gset nat) (idx : nat)
  : M (gset nat) :=
  let* pos := lift (where_first primary_indices idx) in
  let* v := lift (index secondary_selection pos) in
  if fgt v (flit 3 (-1)) then ret (masked_indices ∪ {[idx]})
  else ret masked_indices.

(** Lines 29-65. *)
Definition apply_structured_masking (cfg : config) (snp_list : list string)
  (mask_sets : list (list float)) : M (gset nat) :=
  let n_snps := length snp_list in
  let* n_to_mask := lift (int_scaled n_snps (missing_rate cfg)) in
  let* primary_mask := lift (index mask_sets 0) in
  let primary_indices := slice_to n_to_mask (np_argsort primary_mask) in
  let* secondary_mask := lift (index mask_sets 1) in
  let* secondary_selection := lift (take_at secondary_mask primary_indices) in
  let* final_mask := lift (index mask_sets 2) in
  let* masked_indices :=
    for_each primary_indices
             (stage2_step primary_indices secondary_selection) ∅ in
  let remaining_needed := (n_to_mask - Z.of_nat (size masked_indices))%Z in
  if (0 <? remaining_needed)%Z then
    let remaining_candidates :=
      filter (fun i => i ∉ masked_indices) (seq 0 n_snps) in
    match remaining_candidates with
    | [] => ret masked_indices
    | _ =>
        let* additional_indices :=
          np_choice remaining_candidates
            (Z.min remaining_needed (Z.of_nat (length remaining_candidates))) in
        ret (masked_indices ∪ list_to_set additional_indices)
    end
  else ret masked_indices.

Fixpoint spacings_of (l : list Z) : list Z :=
  match l with
  | a :: (b :: _) as l' => (b - a)%Z :: spacings_of l'
  | _ => []
  end.

Fixpoint parse_positions (snps : list string) : result (list Z) :=
  match snps with
  | [] => Ok []
  | snp :: snps' =>
      match index (split_on "_" snp) 1 with
      | Raise e => Raise e
      | Ok p =>
          match int_of_str p with
          | None => Raise ValueError
          | Some z =>
              match parse_positions snps' with
              | Ok zs => Ok (z :: zs)
              | Raise e => Raise e
              end
          end
      end
  end.

(** Lines 67-94. *)
Definition quantify_masking_strength (original_snps : list string)
  (masked_indices : gset nat) : result float :=
  let n_total := length original_snps in
  let n_masked := size masked_indices in
  match parse_positions original_snps with
  | Raise e => Raise e
  | Ok positions =>
      match take_at positions (elements masked_indices) with
      | Raise e => Raise e
      | Ok masked_positions =>
          if length masked_positions <? 2 then Ok (flit 0 0)
          else
            let sorted_masked := merge_sort Z.le masked_positions in
            let spacings := float_of_Z <$> spacings_of sorted_masked in
            let uniformity :=
              match spacings with
              | [] => flit 1 0
              | _ =>
                  let mean_spacing := np_mean spacings in
                  let spacing_variance :=
                    if fgt mean_spacing (flit 0 0) then np_var spacings
                    else flit 0 0 in
                  fdiv (flit 1 0)
                       (fadd (flit 1 0)
                             (fdiv spacing_variance
                                   (fadd (fpow mean_spacing 2) (flit 1 (-10)))))
              end in
            match truediv (Z.of_nat n_masked) (Z.of_nat n_total) with
            | Raise e => Raise e
            | Ok rate => Ok (fmul rate uniformity)
            end
      end
  end.

(** [mask_sets[s][i] if i < len(mask_sets[s]) else 0] *)
Definition stage_val (mask_sets : list (list float)) (s i : nat) : result cell :=
  match index mask_sets s with
  | Raise e => Raise e
  | Ok m => match m !! i with
            | Some v => Ok (CFloat v)
            | None => Ok (CInt 0)
            end
  end.

Definition mask_row (mask_sets : list (list float)) (masked_indices : gset nat)
  (qms : float) (mask_data : list (list cell)) (ix : nat * string)
  : M (list (list cell)) :=
  let '(i, snp) := ix in
  let chr_pos := split_on "_" snp in
  let is_masked := bool_decide (i ∈ masked_indices) in
  let* stage_1_val := lift (stage_val mask_sets 0 i) in
  let* stage_2_val := lift (stage_val mask_sets 1 i) in
  let* stage_3_val := lift (stage_val mask_sets 2 i) in
  let* c0 := lift (index chr_pos 0) in
  let* c1 := lift (index chr_pos 1) in
  ret (mask_data ++ [[CStr c0; CStr c1; CStr snp; CBool is_masked;
                      stage_1_val; stage_2_val; stage_3_val; CFloat qms]]).

(** Lines 96-174. *)
Definition create_mask_from_ld (cfg : config) (content : string)
  (batch_size : nat) : M DataFrame :=
  let unique_snps := scan collect_snps batch_size content ∅ in
  let snp_list := sorted_strs unique_snps in
  let* mask_sets := generate_random_masks cfg (length snp_list) in
  let* masked_indices := apply_structured_masking cfg snp_list mask_sets in
  let* qms := lift (quantify_masking_strength snp_list masked_indices) in
  (* line 139: len(masked_indices)/len(snp_list)*100 *)
  let* _ := lift (truediv (Z.of_nat (size masked_indices))
                          (Z.of_nat (length snp_list))) in
  let* mask_data :=
    for_each (imap (fun i snp => (i, snp)) snp_list)
             (mask_row mask_sets masked_indices qms) [] in
  let* mask_df :=
    lift (pl_DataFrame ["CHR"; "POS"; "SNP_ID"; "MASKED";
                        "STAGE1_VAL"; "STAGE2_VAL"; "STAGE3_VAL"; "QMS"] mask_data) in
  let* _ := write_csv mask_df in
  let* _ := lift (truediv (Z.of_nat (size masked_indices))
                          (Z.of_nat (length snp_list))) in
  ret mask_df.

End RandomMasking.
End RandomMasking.

(* ===================================================================== *)
(** ** mask/Row-wise_missingness.py                                       *)
(* ===================================================================== *)

Module Rowwise.
Section Rowwise.
Context `{NumPy}.

Record config : Type := mkConfig {
  missing_rate : float;
  high_missingness_threshold : float
}.

Inductive category : Type := low | medium | high.

Definition category_name (c : category) : string :=
  match c with low => "low" | medium => "medium" | high => "high" end.

Record info : Type := mkInfo {
  n_total : nat;
  n_missing : nat;
  missingness_pct : float;
  category_ : category;
  high_missingness : bool
}.

Record pattern_stats : Type := mkStats {
  mean_missingness : float;
  std_missingness : float;
  cv : float;
  pattern_type : string;
  low_miss_samples : nat;
  medium_miss_samples : nat;
  high_miss_samples : nat
}.

(** [f"SAMPLE_{i:04d}"] *)
Definition sample_id (i : nat) : string :=
  let d := pretty i in
  ("SAMPLE_" ++ String.concat "" (replicate (4 - String.length d) "0") ++ d)%string.

(** Lines 18-31. *)
Definition simulate_sample_data (snp_list : list string) (n_samples : nat)
  : M (list string * list (string * list Z)) :=
  let* _ := seed 42 in
  let sample_ids := sample_id <$> seq 0 n_samples in
  let* genotype_data :=
    for_each sample_ids
      (fun genotype_data sid =>
         let* idx := draw (np_choice_p [flit 25 (-2); flit 5 (-1); flit 25 (-2)]
                                       (length snp_list)) in
         let genotypes := omap (fun i => [0; 1; 2]%Z !! i) idx in
         ret (dict_set sid genotypes genotype_data)) [] in
  ret (sample_ids, genotype_data).

(** [a[idx] = v] for an index array. *)
Definition assign_at (a : list Z) (idx : list nat) (v : Z) : list Z :=
  foldl (fun a i => <[i := v]> a) a idx.

(** The body of the loop of lines 56-85. *)
Definition sample_step (cfg : config) (genotype_data : list (string * list Z))
  (snp_list : list string) (sample_categories : list category)
  (sample_missingness : list (string * info)) (ix : nat * string)
  : M (list (string * info)) :=
  let '(i, sid) := ix in
  let* cat := lift (index sample_categories i) in
  let* original_genotypes := lift (dict_item genotype_data sid) in
  let* sample_missing_rate :=
    match cat with
    | low => draw (np_uniform (flit 0 0) (flit 1 (-1)))
    | medium => draw (np_uniform (flit 1 (-1)) (flit 3 (-1)))
    | high => draw (np_uniform (flit 3 (-1)) (flit 6 (-1)))
    end in
  let* n_to_mask := lift (int_scaled (length snp_list) sample_missing_rate) in
  let* original_genotypes :=
    if (0 <? n_to_mask)%Z then
      let* missing_indices := np_choice (seq 0 (length snp_list)) n_to_mask in
      ret (assign_at original_genotypes missing_indices (-9)%Z)
    else ret original_genotypes in
  let n_missing :=
    length (filter (fun g => g = (-9)%Z) original_genotypes) in
  let missingness_pct :=
    fmul (fdiv (float_of_nat n_missing) (float_of_nat (length snp_list)))
         (flit 100 0) in
  ret (dict_set sid
         (mkInfo (length snp_list) n_missing missingness_pct cat
            (fge missingness_pct
                 (fmul (high_missingness_threshold cfg) (flit 100 0))))
         sample_missingness).

(** Lines 33-87. *)
Definition apply_rowwise_missing_pattern (cfg : config)
  (sample_ids : list string) (genotype_data : list (string * list Z))
  (snp_list : list string) : M (list (string * info)) :=
  let* _ := seed 42 in
  let n_samples := length sample_ids in
  let* n_low := lift (int_scaled n_samples (flit 7 (-1))) in
  let* n_medium := lift (int_scaled n_samples (flit 2 (-1))) in
  let n_high := (Z.of_nat n_samples - n_low - n_medium)%Z in
  let sample_categories :=
    replicate (Z.to_nat n_low) low ++ replicate (Z.to_nat n_medium) medium
    ++ replicate (Z.to_nat n_high) high in
  let* sample_categories := np_shuffle sample_categories in
  for_each (imap (fun i sid => (i, sid)) sample_ids)
           (sample_step cfg genotype_data snp_list sample_categories) [].

(** Lines 89-118. *)
Definition assess_missing_patterns (sample_missingness : list (string * info))
  : pattern_stats :=
  let missingness_values := (fun e => missingness_pct e.2) <$> sample_missingness in
  let mean := np_mean missingness_values in
  let std := np_std missingness_values in
  let count (p : float -> bool) := length (filter (fun v => p v = true) missingness_values) in
  let cv_ := if fgt mean (flit 0 0) then fdiv std mean else flit 0 0 in
  mkStats mean std cv_
    (if fgt cv_ (flit 1 0) then "MNAR" else "MAR")
    (count (fun v => flt v (flit 10 0)))
    (count (fun v => fle (flit 10 0) v && flt v (flit 30 0)))
    (count (fun v => fge v (flit 30 0))).

Definition mask_row (sample_missingness : list (string * info))
  (stats : pattern_stats) (mask_data : list (list cell)) (sid : string)
  : M (list (list cell)) :=
  let* i := lift (dict_item sample_missingness sid) in
  ret (mask_data ++
         [[CStr sid; CInt (Z.of_nat (n_total i)); CInt (Z.of_nat (n_missing i));
           CFloat (missingness_pct i); CStr (category_name (category_ i));
           CBool (high_missingness i); CStr (pattern_type stats)]]).

(** Lines 120-201. *)
Definition create_mask_from_ld (cfg : config) (content : string)
  (batch_size : nat) : M (DataFrame * pattern_stats) :=
  let unique_snps := scan collect_snps batch_size content ∅ in
  let snp_list := sorted_strs unique_snps in
  let* '(sample_ids, genotype_data) := simulate_sample_data snp_list 1000 in
  let* sample_missingness :=
    apply_rowwise_missing_pattern cfg sample_ids genotype_data snp_list in
  let stats := assess_missing_patterns sample_missingness in
  let* mask_data := for_each sample_ids (mask_row sample_missingness stats) [] in
  let* mask_df :=
    lift (pl_DataFrame ["SAMPLE_ID"; "N_TOTAL_SNPS"; "N_MISSING_SNPS"; "MISSINGNESS_PCT";
                        "CATEGORY"; "HIGH_MISSINGNESS"; "PATTERN_TYPE"] mask_data) in
  let* _ := write_csv mask_df in
  ret (mask_df, stats).

End Rowwise.
End Rowwise.

(* ===================================================================== *)
(** ** mask/MAF_n_Cluster.py                                              *)
(* ===================================================================== *)

Module MAFCluster.
Section MAFCluster.
Context `{NumPy} `{!Sklearn}.

(** [pl.DataFrame(batch_data, schema=['CHR_A', ..., 'R2'])]: the frames of
    LD lines all carry the same seven string columns, so a frame is the
    list of its rows.  [iter_rows(named=True)] presents a row as a [dict]
    from column name to value. *)
Definition named_row (r : ld_row) : list (string * cell) :=
  [("CHR_A", CStr (CHR_A r)); ("BP_A", CStr (BP_A r)); ("SNP_A", CStr (SNP_A r));
   ("CHR_B", CStr (CHR_B r)); ("BP_B", CStr (BP_B r)); ("SNP_B", CStr (SNP_B r));
   ("R2", CStr (R2 r))].

Record config : Type := mkConfig {
  maf_threshold : float;
  missing_rate : float;
  r2_threshold : float;
  cluster_size_min : Z
}.

Definition transition_matrix : list (list float) :=
  [[flit 7 (-1); flit 3 (-1)]; [flit 2 (-1); flit 8 (-1)]].

(** The body of the loop of lines 41-44. *)
Definition next_state (states : list nat) (_ : nat) : M (list nat) :=
  match last states with
  | None => raise IndexError
  | Some current_state =>
      let* p := lift (index transition_matrix current_state) in
      let* next := draw (np_choice_p1 p) in
      ret (states ++ [next])
  end.

(** The body of the loop of lines 48-53. *)
Definition emit (maf_values : list float) (state : nat) : M (list float) :=
  let* maf :=
    if Nat.eqb state 0 then draw (np_beta 1 20)
    else let* b := draw (np_beta 2 2) in ret (fmul b (flit 5 (-1))) in
  ret (maf_values ++ [py_min maf (flit 5 (-1))]).

(** Lines 25-55. *)
Definition simulate_maf (snp_positions : list string) : M (list float) :=
  let* _ := seed 42 in
  let n_snps := length snp_positions in
  let* s0 := draw (np_choice_p1 [flit 3 (-1); flit 7 (-1)]) in
  let* states := for_each (seq 1 (n_snps - 1)) next_state [s0] in
  for_each states emit [].

(** [np.eye(n)] *)
Definition eye (n : nat) : list (list float) :=
  (fun i => (fun j => if Nat.eqb i j then flit 1 0 else flit 0 0) <$> seq 0 n)
    <$> seq 0 n.

(** [a, b = xs] *)
Definition unpack2 {A} (xs : list A) : result (A * A) :=
  match xs with
  | [a; b] => Ok (a, b)
  | _ => Raise ValueError
  end.

(** [s[k]] for a [str] s and a [str] subscript. *)
Definition str_item (s k : string) : result cell := Raise TypeError.

(** [f"{v}"] *)
Definition fmt (v : cell) : string :=
  match v with
  | CStr s => s
  | CBool true => "True"
  | CBool false => "False"
  | CInt z => pretty z
  | CFloat _ => ""
  end.

(** [float(v)] *)
Definition float_of (v : cell) : result float :=
  match v with
  | CStr s => match float_of_str s with Some x => Ok x | None => Raise ValueError end
  | CBool b => Ok (flit (if b then 1 else 0) 0)
  | CInt z => Ok (float_of_Z z)
  | CFloat x => Ok x
  end.

(** The body of [for _, row in ld_data.iter_rows(named=True)] (lines
    66-74).  The loop variable is a [dict]; unpacking it into two
    targets iterates over its keys. *)
Definition matrix_step (snp_to_idx : gmap string nat)
  (ld_matrix : list (list float)) (d : list (string * cell))
  : M (list (list float)) :=
  let* '(_, row) := lift (unpack2 d.*1) in
  let* chr_a := lift (str_item row "CHR_A") in
  let* bp_a := lift (str_item row "BP_A") in
  let snp_a := key (fmt chr_a) (fmt bp_a) in
  let* chr_b := lift (str_item row "CHR_B") in
  let* bp_b := lift (str_item row "BP_B") in
  let snp_b := key (fmt chr_b) (fmt bp_b) in
  match snp_to_idx !! snp_a, snp_to_idx !! snp_b with
  | Some idx_a, Some idx_b =>
      let* r2 := lift (str_item row "R2") in
      let* r2_val := lift (float_of r2) in
      let ld_matrix := alter (fun r => <[idx_b := r2_val]> r) idx_a ld_matrix in
      let ld_matrix := alter (fun r => <[idx_a := r2_val]> r) idx_b ld_matrix in
      ret ld_matrix
  | _, _ => ret ld_matrix
  end.

(** Lines 62-77. *)
Definition distance_matrix (ld_data : list ld_row) (snp_positions : list string)
  : M (list (list float)) :=
  let snp_to_idx :=
    foldl (fun m ix => <[ix.2 := ix.1]> m) (∅ : gmap string nat)
          (imap (fun i snp => (i, snp)) snp_positions) in
  let n_snps := length snp_positions in
  let ld_matrix := eye n_snps in
  let* ld_matrix := for_each (named_row <$> ld_data) (matrix_step snp_to_idx) ld_matrix in
  ret ((fun r : list float => (fun x => fsub (flit 1 0) x) <$> r) <$> ld_matrix).

(** Lines 57-98. *)
Definition create_ld_clusters (cfg : config) (ld_data : list ld_row)
  (snp_positions : list string) : M (list (nat * list string)) :=
  let* distance := distance_matrix ld_data snp_positions in
  let n_snps := length snp_positions in
  let n_clusters := Z.max 2 (Z.of_nat n_snps / 10) in
  let* cluster_labels := lift (fit_predict n_clusters distance) in
  let* clusters :=
    for_each (imap (fun i label => (i, label)) cluster_labels)
      (fun clusters il =>
         let* snp := lift (index snp_positions il.1) in
         ret (dict_set il.2 (default [] (dict_get il.2 clusters) ++ [snp]) clusters))
      [] in
  ret (filter (fun kv => (cluster_size_min cfg <= Z.of_nat (length kv.2))%Z)
              clusters).

(** The body of [for line in lines] (lines 124-135). *)
Definition add_line (cfg : config) (st : list ld_row * gset string) (line : string)
  : list ld_row * gset string :=
  match fields line with
  | Some r =>
      match float_of_str (R2 r) with
      | Some r2_val =>
          if fge r2_val (r2_threshold cfg)
          then (st.1 ++ [r], st.2 ∪ {[snp_a r; snp_b r]})
          else st
      | None => st
      end
  | None => st
  end.

(** One round of the [while True] loop (lines 112-142). *)
Definition add_batch (cfg : config) (st : list (list ld_row) * gset string)
  (lines : list string) : list (list ld_row) * gset string :=
  let '(batch_data, unique_snps) := foldl (add_line cfg) ([], st.2) lines in
  match batch_data with
  | [] => (st.1, unique_snps)
  | _ => (st.1 ++ [batch_frame batch_data], unique_snps)
  end.

Definition mask_row (cfg : config) (masked_snps : gset string)
  (maf_values : list float) (snp_to_cluster : gmap string nat)
  (mask_data : list (list cell)) (ix : nat * string) : M (list (list cell)) :=
  let '(i, snp) := ix in
  let chr_pos := split_on "_" snp in
  let is_masked := bool_decide (snp ∈ masked_snps) in
  let* maf_val := lift (index maf_values i) in
  let is_rare := flt maf_val (maf_threshold cfg) in
  let cluster_id :=
    match snp_to_cluster !! snp with
    | Some c => Z.of_nat c
    | None => (-1)%Z
    end in
  let* c0 := lift (index chr_pos 0) in
  let* c1 := lift (index chr_pos 1) in
  ret (mask_data ++ [[CStr c0; CStr c1; CStr snp; CBool is_masked;
                      CFloat maf_val; CBool is_rare; CInt cluster_id]]).

(** Lines 100-216. *)
Definition create_mask_from_ld (cfg : config) (content : string)
  (batch_size : nat) : M DataFrame :=
  let '(ld_chunks, unique_snps) :=
    foldl (add_batch cfg) ([], ∅) (batches batch_size content) in
  let ld_data := concat ld_chunks in
  let snp_positions := sorted_strs unique_snps in
  let* maf_values := simulate_maf snp_positions in
  let* clusters := create_ld_clusters cfg ld_data snp_positions in
  let* rare_snps :=
    for_each (imap (fun i snp => (i, snp)) snp_positions)
      (fun rare ix =>
         let* m := lift (index maf_values ix.1) in
         ret (if flt m (maf_threshold cfg) then rare ++ [ix.2] else rare)) [] in
  let* n_maf_mask :=
    lift (fint (fmul (fmul (float_of_nat (length rare_snps)) (missing_rate cfg))
                     (flit 2 0))) in
  let* masked_snps :=
    match rare_snps with
    | [] => ret (∅ : gset string)
    | _ =>
        let* _ := seed 42 in
        let* maf_masked :=
          np_choice rare_snps (Z.min n_maf_mask (Z.of_nat (length rare_snps))) in
        ret (list_to_set maf_masked)
    end in
  let cluster_list := clusters.*2 in
  let* scaled := lift (int_scaled (length cluster_list) (missing_rate cfg)) in
  let n_clusters_to_mask := Z.max 1 scaled in
  let* _ := seed 43 in
  let* selected_clusters :=
    np_choice (seq 0 (length cluster_list)) n_clusters_to_mask in
  let* masked_snps :=
    for_each selected_clusters
      (fun masked cluster_idx =>
         let* cluster_snps := lift (index cluster_list cluster_idx) in
         ret (masked ∪ list_to_set cluster_snps)) masked_snps in
  let snp_to_cluster :=
    foldl (fun m kv => foldl (fun m snp => <[snp := kv.1]> m) m kv.2)
          (∅ : gmap string nat) clusters in
  let* mask_data :=
    for_each (imap (fun i snp => (i, snp)) snp_positions)
             (mask_row cfg masked_snps maf_values snp_to_cluster) [] in
  let* mask_df :=
    lift (pl_DataFrame ["CHR"; "POS"; "SNP_ID"; "MASKED"; "MAF"; "IS_RARE"; "CLUSTER_ID"]
                       mask_data) in
  let* _ := write_csv mask_df in
  ret mask_df.

End MAFCluster.
End MAFCluster.

(* ===================================================================== *)
(** ** graph_builder.py: loading and the R2 filter                        *)
(* ===================================================================== *)

Module LDGraphBuilder.
Section LDGraphBuilder.
Context `{NumPy} `{!Polars}.

Record config : Type := mkConfig { r2_threshold : float }.

(** One round of the [while True] loop of [load_ld_data] (lines 23-47). *)
Definition load_batch (chunks : list (list ld_row)) (lines : list string)
  : list (list ld_row) :=
  match omap fields lines with
  | [] => chunks
  | batch_data => chunks ++ [batch_frame batch_data]
  end.

(** Lines 16-49. *)
Definition load_ld_data (content : string) (batch_size : nat) : list ld_row :=
  concat (foldl load_batch [] (batches batch_size content)).

Definition isdigit (c : ascii) : bool :=
  let n := nat_of_ascii c in Nat.leb 48 n && Nat.leb n 57.

Fixpoint all_digits (s : string) : bool :=
  match s with
  | EmptyString => true
  | String c s' => isdigit c && all_digits s'
  end.

(** What may follow the first digit: [\d*\.?\d*$]. *)
Fixpoint after_digit (s : string) : bool :=
  match s with
  | EmptyString => true
  | String c s' =>
      if isdigit c then after_digit s'
      else if Ascii.eqb c "."%char then all_digits s'
      else false
  end.

(** [str.contains(r'^\d+\.?\d*$')] on one cell. *)
Definition plain_decimal (s : string) : bool :=
  match s with
  | EmptyString => false
  | String c s' => isdigit c && after_digit s'
  end.

(** [pl.col('R2').cast(pl.Float64)]: the cast is strict, a cell that
    does not convert fails the expression. *)
Fixpoint cast_column (batch_df : list ld_row) : result (list float) :=
  match batch_df with
  | [] => Ok []
  | r :: rest =>
      match cast_f64 (R2 r), cast_column rest with
      | Some v, Ok vs => Ok (v :: vs)
      | None, _ => Raise InvalidOperationError
      | _, Raise e => Raise e
      end
  end.

(** The predicate of lines 71-74 on one row and its cast value. *)
Definition keep (cfg : config) (r : ld_row) (v : float) : bool :=
  plain_decimal (R2 r) && fge v (r2_threshold cfg).

(** [batch_df.filter(...)] (lines 71-74). *)
Definition filter_batch (cfg : config) (batch_df : list ld_row)
  : result (list ld_row) :=
  match cast_column batch_df with
  | Raise e => Raise e
  | Ok vs =>
      Ok (omap (fun rv => if keep cfg rv.1 rv.2 then Some rv.1 else None)
               (zip batch_df vs))
  end.

(** [df.iter_slices(n_rows)]: [range(0, height, n_rows)] rejects a zero
    step; otherwise [length df] rounds are enough. *)
Fixpoint slices_fuel (fuel n_rows : nat) (df : list ld_row) : list (list ld_row) :=
  match fuel, df with
  | S fuel', _ :: _ => take n_rows df :: slices_fuel fuel' n_rows (drop n_rows df)
  | _, _ => []
  end.

Definition iter_slices (n_rows : nat) (df : list ld_row)
  : result (list (list ld_row)) :=
  if Nat.eqb n_rows 0 then Raise ValueError
  else Ok (slices_fuel (length df) n_rows df).

Fixpoint filter_slices (cfg : config) (slices : list (list ld_row))
  : result (list (list ld_row)) :=
  match slices with
  | [] => Ok []
  | batch_df :: rest =>
      match filter_batch cfg batch_df with
      | Raise e => Raise e
      | Ok filtered_batch =>
          match filter_slices cfg rest with
          | Raise e => Raise e
          | Ok chunks =>
              Ok (match filtered_batch with
                  | [] => chunks
                  | _ => filtered_batch :: chunks
                  end)
          end
      end
  end.

(** Lines 66-79 of [build_pytorch_geometric_graph]: the retained rows. *)
Definition filtered_edges (cfg : config) (content : string) (batch_size : nat)
  : result (list ld_row) :=
  let df := load_ld_data content batch_size in
  match iter_slices batch_size df with
  | Raise e => Raise e
  | Ok slices =>
      match filter_slices cfg slices with
      | Raise e => Raise e
      | Ok filtered_chunks => Ok (concat filtered_chunks)
      end
  end.

End LDGraphBuilder.
End LDGraphBuilder.

(* ===================================================================== *)
(** ** Vocabulary of the statements                                       *)
(* ===================================================================== *)

Section Vocabulary.
Context `{NumPy}.

(** A double that is not NaN compares equal to itself. *)
Definition number (x : float) : Prop := fle x x = true.

(** Two entries tie with [v] when their key equals [v] as a double. *)
Definition tied {A} (k : A -> float) (v : float) (e : A) : Prop :=
  fle (k e) v = true /\ fle v (k e) = true.

(** The neighbor list of a variant, empty when the variant has none. *)
Definition neighbors (g : gmap string (list (string * float))) (a : string)
  : list (string * float) := default [] (g !! a).

(** The entries a line adds to the neighbor list of [a]. *)
Definition contributes (cfg : KNearest.config) (a : string) (line : string)
  : list (string * float) :=
  match KNearest.edge_of cfg line with
  | Some (x, y, v) =>
      (if decide (x = a) then [(y, v)] else [])
      ++ (if decide (y = a) then [(x, v)] else [])
  | None => []
  end.

(** The line is retained and records the pair [(a, b)] in this orientation. *)
Definition joins (cfg : KNearest.config) (a b : string) (line : string) : Prop :=
  match KNearest.edge_of cfg line with
  | Some (x, y, _) => x = a /\ y = b
  | None => False
  end.

#[export] Instance joins_dec cfg a b line : Decision (joins cfg a b line).
Proof.
  unfold joins. destruct (KNearest.edge_of cfg line) as [[[x y] v]|]; apply _.
Defined.

(** The row a line adds to the LD frame of the MAF+cluster strategy, if
    the line is retained. *)
Definition retained_row (cfg : MAFCluster.config) (line : string) : option ld_row :=
  match fields line with
  | Some r =>
      match float_of_str (R2 r) with
      | Some v => if fge v (MAFCluster.r2_threshold cfg) then Some r else None
      | None => None
      end
  | None => None
  end.

(** Stage 2 of the random strategy keeps an index when its stage-2 score
    exceeds 0.3. *)
Definition passes (secondary_mask : list float) (i : nat) : bool :=
  match secondary_mask !! i with
  | Some v => fgt v (flit 3 (-1))
  | None => false
  end.

(** The [SNP_ID] column: the third cell of every row. *)
Definition snp_id_column (df : DataFrame) : list (option cell) :=
  (fun row => row !! 2) <$> rows df.

(** A list of keys laid out as an [SNP_ID] column. *)
Definition as_column (ids : list string) : list (option cell) :=
  (fun s => Some (CStr s)) <$> ids.

(** Every frame the loader of the graph builder makes has its lines for
    rows: no batch of the file holds exactly seven data lines. *)
Definition lines_as_rows (batch_size : nat) (content : string) : bool :=
  forallb (fun lines => negb (Nat.eqb (length (omap fields lines)) 7))
          (batches batch_size content).

(** A row that opens with a string and holds a bool further on, as every
    row of a mask table does. *)
Definition str_then_bool (row : list cell) : Prop :=
  exists s b rest, row = CStr s :: rest /\ CBool b ∈ rest.

(** What a run leaves behind for an observer: the value returned or the
    exception raised, and the table on disk. *)
Definition outcome {A} (m : M A) (w : world) : result A * option DataFrame :=
  ((m w).1, w_disk (m w).2).

(** The computation does not look at the generator. *)
Definition oblivious {A} (m : M A) : Prop :=
  forall w1 w2, w_disk w1 = w_disk w2 ->
    (m w1).1 = (m w2).1 /\ w_disk (m w1).2 = w_disk (m w2).2.

(** The computation seeds the generator before it draws: what it returns
    and writes does not depend on the state the generator was in, and
    neither does the state it leaves when it succeeds. *)
Definition reseeds {A} (m : M A) : Prop :=
  forall w1 w2, w_disk w1 = w_disk w2 ->
    (m w1).1 = (m w2).1 /\ w_disk (m w1).2 = w_disk (m w2).2
    /\ (is_ok (m w1).1 = true -> (m w1).2 = (m w2).2).

End Vocabulary.

(* ===================================================================== *)
(** ** A reference platform for running the model on examples            *)
(* ===================================================================== *)

(** Doubles read as the exact value of their decimal literal, with a NaN.
    The reader follows the grammar of [float()] for plain and scientific
    notation.  The generator is a fixed, lawful stand-in: it draws by
    position, so that examples can be replayed by hand. *)
Module Ref.

Inductive dec : Type :=
| NaN
| Num (q : Q).

Definition digit (c : ascii) : option Z :=
  let n := nat_of_ascii c in
  if Nat.leb 48 n && Nat.leb n 57 then Some (Z.of_nat (n - 48)) else None.

(** Reads a run of digits: the number read so far, how many digits were
    read, and what is left. *)
Fixpoint digits (acc : Z) (cnt : nat) (s : string) : Z * nat * string :=
  match s with
  | EmptyString => (acc, cnt, s)
  | String c s' =>
      match digit c with
      | Some d => digits (10 * acc + d) (S cnt) s'
      | None => (acc, cnt, s)
      end
  end.

Definition sign (s : string) : bool * string :=
  match s with
  | String "-" s' => (true, s')
  | String "+" s' => (false, s')
  | _ => (false, s)
  end.

Definition signed (neg : bool) (z : Z) : Z := if neg then (- z)%Z else z.

(** [int(s)] for an optionally signed run of digits. *)
Definition read_int (s : string) : option Z :=
  let '(neg, s1) := sign s in
  match digits 0 0 s1 with
  | (_, 0, _) => None
  | (z, _, EmptyString) => Some (signed neg z)
  | _ => None
  end.

Definition scale (m e : Z) : Q :=
  if (0 <=? e)%Z then inject_Z (m * 10 ^ e) else (m # Z.to_pos (10 ^ (- e))).

(** [float(s)]: sign, digits, optional point and digits, optional exponent. *)
Definition read_float (s : string) : option dec :=
  let '(neg, s1) := sign s in
  if decide (s1 = "nan") then Some NaN else
  let '(m1, n1, s2) := digits 0 0 s1 in
  let '(m2, n2, s3) :=
    match s2 with
    | String "." s' => digits m1 0 s'
    | _ => (m1, 0, s2)
    end in
  if Nat.eqb (n1 + n2) 0 then None
  else
    match s3 with
    | EmptyString => Some (Num (scale (signed neg m2) (- Z.of_nat n2)))
    | String c s4 =>
        if Ascii.eqb c "e" || Ascii.eqb c "E" then
          match read_int s4 with
          | Some e => Some (Num (scale (signed neg m2) (e - Z.of_nat n2)))
          | None => None
          end
        else None
    end.

Definition lift2 (f : Q -> Q -> Q) (a b : dec) : dec :=
  match a, b with
  | Num x, Num y => Num (Qred (f x y))
  | _, _ => NaN
  end.

Definition dle (a b : dec) : bool :=
  match a, b with
  | Num x, Num y => Qle_bool x y
  | _, _ => false
  end.

Definition ddiv (a b : dec) : dec :=
  match a, b with
  | Num x, Num y => if Qeq_bool y 0 then NaN else Num (Qred (x / y))
  | _, _ => NaN
  end.

Definition dint (a : dec) : result Z :=
  match a with
  | Num x => Ok (Z.quot (Qnum x) (Z.pos (Qden x)))
  | NaN => Raise ValueError
  end.

Definition dpow (a : dec) (n : Z) : dec :=
  match a with
  | Num x => Num (Qred (Qpower x n))
  | NaN => NaN
  end.

#[export] Program Instance ref_float : PyFloat := {|
  float := dec;
  float_of_str := read_float;
  int_of_str := read_int;
  flit m e := Num (scale m e);
  fint := dint;
  fle := dle;
  fadd := lift2 Qplus;
  fsub := lift2 Qminus;
  fmul := lift2 Qmult;
  fdiv := ddiv;
  fpow := dpow
|}.
Next Obligation.
  intros a b c. destruct a as [|x], b as [|y], c as [|z]; simpl; try discriminate.
  rewrite !Qle_bool_iff. apply Qle_trans.
Qed.
Next Obligation.
  intros a b. destruct a as [|x], b as [|y]; simpl; try discriminate.
  intros _ _. rewrite !Qle_bool_iff.
  destruct (Qlt_le_dec x y) as [Hlt|Hle]; [left; apply Qlt_le_weak, Hlt | right; exact Hle].
Qed.
Next Obligation.
  intros a b. destruct a as [|x], b as [|y]; simpl; try discriminate.
  intros _. rewrite !Qle_bool_iff. split; apply Qle_refl.
Qed.
Next Obligation. reflexivity. Qed.
Next Obligation.
  intros x. destruct x as [|q]; simpl; try discriminate.
  rewrite !Qle_bool_iff. intros Hq.
  rewrite Qred_correct. apply Qmult_le_0_compat; [exact Hq | discriminate].
Qed.

(** The order NumPy sorts by: numbers ascending, NaN last. *)
Definition nan_last (a b : nat * dec) : Prop :=
  match a.2, b.2 with
  | _, NaN => True
  | NaN, Num _ => False
  | Num x, Num y => Qle_bool x y = true
  end.

#[export] Instance nan_last_dec a b : Decision (nan_last a b).
Proof.
  unfold nan_last. destruct a.2, b.2; try (left; exact I); try (right; tauto).
  apply _.
Defined.

#[export] Instance nan_last_trans : Transitive nan_last.
Proof.
  intros a b c. unfold nan_last.
  destruct a.2 as [|x], b.2 as [|y], c.2 as [|z]; try tauto.
  rewrite !Qle_bool_iff. apply Qle_trans.
Qed.

#[export] Instance nan_last_total : Total nan_last.
Proof.
  intros a b. unfold nan_last.
  destruct a.2 as [|x], b.2 as [|y]; try tauto.
  rewrite !Qle_bool_iff.
  destruct (Qlt_le_dec x y) as [Hlt|Hle]; [left; apply Qlt_le_weak, Hlt | right; exact Hle].
Qed.

Definition argsort (l : list dec) : list nat :=
  (merge_sort nan_last (imap (fun i x => (i, x)) l)).*1.

(** The generator state is a counter; every draw advances it. *)
Definition random (n : nat) (g : nat) : list dec * nat :=
  ((fun i => Num (Z.of_nat ((g + 3 * i) mod 10) # 10)) <$> seq 0 n, S g).

Definition choice_idx (n k : nat) (g : nat) : list nat * nat :=
  (take k (seq 0 n), S g).

Definition shuffle_idx (n : nat) (g : nat) : list nat * nat :=
  (reverse (seq 0 n), S g).

Definition mean (l : list dec) : dec :=
  ddiv (foldr (lift2 Qplus) (Num 0) l) (Num (inject_Z (Z.of_nat (length l)))).

Definition var (l : list dec) : dec :=
  let m := mean l in
  mean ((fun x => let d := lift2 Qminus x m in lift2 Qmult d d) <$> l).

#[export] Program Instance ref_numpy : NumPy := {|
  rng := nat;
  np_seed := Z.to_nat;
  np_random := random;
  np_choice_idx := choice_idx;
  np_choice_p1 _ g := (0, S g);
  np_choice_p _ k g := (replicate k 0, S g);
  np_shuffle_idx := shuffle_idx;
  np_beta _ _ g := (Num (1 # 10), S g);
  np_uniform lo _ g := (lo, S g);
  np_mean := mean;
  np_var := var;
  np_std := var;
  np_argsort := argsort
|}.
Next Obligation. intros n g. simpl. rewrite length_fmap, length_seq. reflexivity. Qed.
Next Obligation. intros n k g Hk. simpl. rewrite length_take, length_seq. lia. Qed.
Next Obligation.
  intros n k g. simpl. eapply sublist_NoDup; [apply NoDup_seq | apply sublist_take].
Qed.
Next Obligation.
  intros n k g i. simpl. intros Hi. apply elem_of_take in Hi as (p & Hp & _).
  apply list_elem_of_lookup_2, elem_of_seq in Hp. lia.
Qed.
Next Obligation. intros p g Hp. simpl. destruct p; [contradiction|simpl; lia]. Qed.
Next Obligation. intros n g. simpl. apply reverse_Permutation. Qed.
Next Obligation. reflexivity. Qed.
Next Obligation.
  intros l. unfold argsort. rewrite merge_sort_Permutation.
  assert (Hfst : forall (f : nat -> nat) (l : list dec),
             (imap (fun i x => (f i, x)) l).*1 = f <$> seq 0 (length l)).
  { clear. intros f l. revert f. induction l as [|x l IH]; intros f; [reflexivity|].
    rewrite imap_cons. simpl. f_equal.
    rewrite <- fmap_S_seq, <- list_fmap_compose. apply (IH (fun i => f (S i))). }
  rewrite (Hfst (fun i => i) l), list_fmap_id. reflexivity.
Qed.
Next Obligation.
  intros l p q i j x y Hpq Hp Hq Hi Hj. unfold argsort in Hp, Hq.
  rewrite list_lookup_fmap in Hp, Hq.
  match type of Hp with
  | context [merge_sort nan_last ?t !! p] => set (s := merge_sort nan_last t) in *
  end.
  assert (Hs : StronglySorted nan_last s).
  { subst s. apply (StronglySorted_merge_sort nan_last). }
  assert (Hin : forall k v, (k, v) ∈ s -> l !! k = Some v).
  { intros k v Hkv. subst s. rewrite merge_sort_Permutation in Hkv.
    apply list_elem_of_lookup in Hkv as [n Hn].
    apply list_lookup_imap_Some in Hn as (v' & Hv' & Heq).
    injection Heq as -> ->. exact Hv'. }
  clearbody s.
  destruct (s !! p) as [[i' x']|] eqn:Ep; [|simpl in Hp; discriminate].
  destruct (s !! q) as [[j' y']|] eqn:Eq; [|simpl in Hq; discriminate].
  simpl in Hp, Hq. injection Hp as ->. injection Hq as ->.
  pose proof (Hin _ _ (list_elem_of_lookup_2 _ _ _ Ep)) as Hx.
  pose proof (Hin _ _ (list_elem_of_lookup_2 _ _ _ Eq)) as Hy.
  assert (Exx : Some x' = Some x) by exact (eq_trans (eq_sym Hx) Hi).
  assert (Eyy : Some y' = Some y) by exact (eq_trans (eq_sym Hy) Hj).
  injection Exx as ->. injection Eyy as ->.
  assert (HR : nan_last (i, x) (j, y)).
  { clear Hx Hy Hin Hi Hj. revert p q Hpq Ep Eq.
    induction Hs as [|a s Hs IH Hall]; intros p q Hpq Ep Eq.
    - rewrite lookup_nil in Ep. discriminate.
    - destruct q as [|q]; [lia|]. simpl in Eq. destruct p as [|p]; simpl in Ep.
      + injection Ep as ->. rewrite Forall_forall in Hall. apply Hall.
        eapply list_elem_of_lookup_2. exact Eq.
      + eapply IH; [|exact Ep|exact Eq]. lia. }
  unfold nan_last in HR. simpl in HR. unfold flt. simpl.
  destruct x as [|qx], y as [|qy]; simpl; try reflexivity; try tauto.
  rewrite HR. simpl. apply andb_false_r.
Qed.

(** Two samples at least, as scikit-learn demands; labels by position. *)
Definition cluster (n : Z) (D : list (list dec)) : result (list nat) :=
  if length D <? 2 then Raise ValueError
  else Ok ((fun i => i mod Z.to_nat n) <$> seq 0 (length D)).

#[export] Program Instance ref_sklearn : Sklearn := {| fit_predict := cluster |}.
Next Obligation.
  intros n D labels. unfold fit_predict, cluster.
  destruct (_ <? _); intros Heq; [discriminate|].
  injection Heq as <-. rewrite length_fmap, length_seq. reflexivity.
Qed.

#[export] Instance ref_polars : Polars := {| cast_f64 := read_float |}.

End Ref.

(** Inputs and settings for the examples. *)
Module Samples.
Import Ref.

Definition nl : string := String newline "".

Definition header : string := "CHR_A BP_A SNP_A CHR_B BP_B SNP_B R2".

(** Four data lines under a header: a strong pair, a weak pair, the
    strong pair again the other way round and in scientific notation, and
    a third neighbor of the first variant. *)
Definition ld_file : string :=
  (header ++ nl
   ++ "1 100 rs1 1 200 rs2 0.9" ++ nl
   ++ "1 200 rs2 1 300 rs3 0.5" ++ nl
   ++ "1 200 rs2 1 100 rs1 9e-1" ++ nl
   ++ "1 1000 rs4 1 100 rs1 0.85" ++ nl)%string.

(** [ld_file] with a fifth data line, which brings in a fifth variant. *)
Definition ld_five : string :=
  (ld_file ++ "1 1000 rs4 2 50 rs5 0.95" ++ nl)%string.

Definition header_only : string := (header ++ nl)%string.

(** Seven data lines, every field a number. *)
Definition seven_lines : string :=
  ("1 100 7 1 200 8 0.9" ++ nl ++ "1 101 7 1 201 8 0.9" ++ nl
   ++ "1 102 7 1 202 8 0.9" ++ nl ++ "1 103 7 1 203 8 0.9" ++ nl
   ++ "1 104 7 1 204 8 0.9" ++ nl ++ "1 105 7 1 205 8 0.9" ++ nl
   ++ "1 106 7 1 206 8 0.9" ++ nl)%string.

Definition one_line : string := "1 100 rs1 1 200 rs2 9e-1".

Definition knn (k : Z) : KNearest.config :=
  KNearest.mkConfig k (Num (1 # 2)) (Num (8 # 10)).

Definition maf : MAFCluster.config :=
  MAFCluster.mkConfig (Num (5 # 100)) (Num (1 # 10)) (Num (8 # 10)) 3.

Definition builder : LDGraphBuilder.config := LDGraphBuilder.mkConfig (Num (8 # 10)).

Definition rnd : RandomMasking.config := RandomMasking.mkConfig (Num (1 # 2)) 42.

Definition col : Columnwise.config := Columnwise.mkConfig (Num (1 # 2)).

Definition start : world := mkWorld (0 : rng) None.

(** The table the k-nearest strategy writes for [ld_file] with k = 2. *)
Definition knn_table : DataFrame :=
  mkDF ["CHR"; "POS"; "SNP_ID"; "MASKED"; "IS_SEED"; "N_NEIGHBORS"]
       [[CStr "1"; CStr "100"; CStr "1_100"; CBool true; CBool true; CInt 3];
        [CStr "1"; CStr "1000"; CStr "1_1000"; CBool false; CBool false; CInt 1];
        [CStr "1"; CStr "200"; CStr "1_200"; CBool true; CBool false; CInt 2]].

(** The table the column-wise strategy writes for [ld_five]. *)
Definition col_table : DataFrame :=
  mkDF ["CHR"; "POS"; "SNP_ID"; "MASKED"]
       [[CStr "1"; CStr "100"; CStr "1_100"; CBool true];
        [CStr "1"; CStr "1000"; CStr "1_1000"; CBool true];
        [CStr "1"; CStr "200"; CStr "1_200"; CBool false];
        [CStr "1"; CStr "300"; CStr "1_300"; CBool false];
        [CStr "2"; CStr "50"; CStr "2_50"; CBool false]].

(** The world the column-wise strategy leaves behind. *)
Definition col_world : world := mkWorld (43 : rng) (Some col_table).

End Samples.

(* ===================================================================== *)
(** ** graph_builder.py: nodes, edges and features                        *)
(* ===================================================================== *)

(** PyTorch: a double as a [torch.float] tensor holds it. *)
Class Torch `{PyFloat} : Type := {
  float32 : float -> float
}.

(** [list(s)] for a [set] of strings: every element once, in an order
    the language leaves open. *)
Class PySet : Type := {
  to_list : gset string -> list string;
  to_list_perm : forall s, to_list s ≡ₚ elements s
}.

Module LDGraph.
Section LDGraph.
Context `{NumPy} `{!Polars} `{!Torch} `{!PySet}.

(** The body of the loop of lines 54-56: the key is split on every
    underscore and unpacked into exactly two names. *)
Definition node_row (nodes_data : list (list string)) (node_id : string)
  : result (list (list string)) :=
  match MAFCluster.unpack2 (split_on "_" node_id) with
  | Ok (chr_str, bp_str) => Ok (nodes_data ++ [[chr_str; bp_str; node_id]])
  | Raise e => Raise e
  end.

Fixpoint node_rows (node_ids : list string) (nodes_data : list (list string))
  : result (list (list string)) :=
  match node_ids with
  | [] => Ok nodes_data
  | node_id :: rest =>
      match node_row nodes_data node_id with
      | Ok nodes_data' => node_rows rest nodes_data'
      | Raise e => Raise e
      end
  end.

(** [pl.DataFrame(nodes_data, schema=['chr', 'bp', 'node_id'])] (lines
    58-61): the lists are the rows of the frame unless there are three of
    them, as many as names; three lists are taken for the three columns. *)
Definition nodes_frame (nodes_data : list (list string)) : list (list string) :=
  if Nat.eqb (length nodes_data) 3 then rows_of_columns 3 nodes_data
  else nodes_data.

(** Lines 51-61: the rows of the frame with columns chr, bp, node_id. *)
Definition create_nodes_from_ids (node_ids : list string)
  : result (list (list string)) :=
  match node_rows node_ids [] with
  | Ok nodes_data => Ok (nodes_frame nodes_data)
  | Raise e => Raise e
  end.

(** One round of the loop of lines 84-93.  [pl.concat_str] with the
    separator '_' builds the key of an endpoint. *)
Definition collect_nodes (unique_node_ids : gset string) (batch_df : list ld_row)
  : gset string :=
  unique_node_ids ∪ list_to_set ((snp_a <$> batch_df) ++ (snp_b <$> batch_df)).

(** [LabelEncoder.fit]: the classes are the distinct labels, sorted. *)
Definition fit (y : list string) : list string := sorted_strs (list_to_set y).

(** [LabelEncoder.transform]: the position of every label among the
    classes; a label that is not among them is refused. *)
Fixpoint transform (classes_ : list string) (y : list string) : result (list nat) :=
  match y with
  | [] => Ok []
  | label :: rest =>
      match list_find (fun c => c = label) classes_, transform classes_ rest with
      | Some (i, _), Ok idx => Ok (i :: idx)
      | None, _ => Raise ValueError
      | _, Raise e => Raise e
      end
  end.

(** One round of the loop of lines 104-121. *)
Definition edge_batch (classes_ : list string)
  (st : list (list nat * list nat) * list (list float)) (batch_df : list ld_row)
  : result (list (list nat * list nat) * list (list float)) :=
  match transform classes_ (snp_a <$> batch_df) with
  | Raise e => Raise e
  | Ok source =>
      match transform classes_ (snp_b <$> batch_df) with
      | Raise e => Raise e
      | Ok target =>
          match LDGraphBuilder.cast_column batch_df with
          | Raise e => Raise e
          | Ok r2 => Ok (st.1 ++ [(source, target)], st.2 ++ [float32 <$> r2])
          end
      end
  end.

Fixpoint edge_batches (classes_ : list string) (slices : list (list ld_row))
  (st : list (list nat * list nat) * list (list float))
  : result (list (list nat * list nat) * list (list float)) :=
  match slices with
  | [] => Ok st
  | batch_df :: rest =>
      match edge_batch classes_ st batch_df with
      | Ok st' => edge_batches classes_ rest st'
      | Raise e => Raise e
      end
  end.

(** [torch.cat(edge_indices, dim=1)]: the row of sources and the row of
    targets. *)
Definition cat_edges (edge_indices : list (list nat * list nat))
  : list nat * list nat :=
  (concat (fst <$> edge_indices), concat (snd <$> edge_indices)).

(** The strict cast of a column of strings. *)
Fixpoint cast_cells (cells : list string) : result (list float) :=
  match cells with
  | [] => Ok []
  | c :: rest =>
      match cast_f64 c, cast_cells rest with
      | Some v, Ok vs => Ok (v :: vs)
      | None, _ => Raise InvalidOperationError
      | _, Raise e => Raise e
      end
  end.

(** Line 129: the columns chr and bp, cast and stored as [torch.float]. *)
Definition node_features (nodes : list (list string)) : result (list (list float)) :=
  match cast_cells (omap (fun row => row !! 0) nodes) with
  | Raise e => Raise e
  | Ok chr =>
      match cast_cells (omap (fun row => row !! 1) nodes) with
      | Raise e => Raise e
      | Ok bp => Ok (zip_with (fun c b => [float32 c; float32 b]) chr bp)
      end
  end.

(** [Data(x=x, edge_index=edge_index, edge_attr=edge_attr)] *)
Record Data : Type := mkData {
  x : list (list float);
  edge_index : list nat * list nat;
  edge_attr : list float
}.

(** Lines 63-131. *)
Definition build_pytorch_geometric_graph (cfg : LDGraphBuilder.config)
  (content : string) (batch_size : nat) : result Data :=
  match LDGraphBuilder.filtered_edges cfg content batch_size with
  | Raise e => Raise e
  | Ok df =>
      match LDGraphBuilder.iter_slices batch_size df with
      | Raise e => Raise e
      | Ok slices =>
          let unique_node_ids := foldl collect_nodes ∅ slices in
          let node_ids := to_list unique_node_ids in
          let classes_ := fit node_ids in
          match edge_batches classes_ slices ([], []) with
          | Raise e => Raise e
          | Ok (edge_indices, edge_attrs) =>
              match create_nodes_from_ids node_ids with
              | Raise e => Raise e
              | Ok nodes =>
                  match node_features nodes with
                  | Raise e => Raise e
                  | Ok x => Ok (mkData x (cat_edges edge_indices) (concat edge_attrs))
                  end
              end
          end
      end
  end.

End LDGraph.
End LDGraph.

(* ===================================================================== *)
(** ** Vocabulary of the further statements                               *)
(* ===================================================================== *)

(** How often a character occurs in a string. *)
Fixpoint occurrences (c : ascii) (s : string) : nat :=
  match s with
  | EmptyString => 0
  | String c' s' => (if Ascii.eqb c' c then 1 else 0) + occurrences c s'
  end.

Section Columns.
Context `{NumPy}.

Definition is_true (c : option cell) : bool :=
  match c with
  | Some (CBool true) => true
  | _ => false
  end.

(** The number of rows whose cell in column [j] is [True]. *)
Definition flag_count (j : nat) (df : DataFrame) : nat :=
  length (filter (fun row => is_true (row !! j) = true) (rows df)).

(** The intervals the row-wise strategy draws the rate of a sample from:
    one per category, as bounds handed to [np.random.uniform]. *)
Definition bands : list (float * float) :=
  [(flit 0 0, flit 1 (-1)); (flit 1 (-1), flit 3 (-1)); (flit 3 (-1), flit 6 (-1))].

(** The interval of a category. *)
Definition band_of (c : Rowwise.category) : float * float :=
  match c with
  | Rowwise.low => (flit 0 0, flit 1 (-1))
  | Rowwise.medium => (flit 1 (-1), flit 3 (-1))
  | Rowwise.high => (flit 3 (-1), flit 6 (-1))
  end.

(** The rate [np.random.uniform] draws for a sample of category [c] when
    the generator is in state [g]. *)
Definition drawn_rate (c : Rowwise.category) (g : rng) : float :=
  (np_uniform (band_of c).1 (band_of c).2 g).1.

(** The R2 field of the row converts under the strict cast. *)
Definition castable `{!Polars} (r : ld_row) : bool :=
  match cast_f64 (R2 r) with
  | Some _ => true
  | None => false
  end.

(** The row passes both conjuncts of the filter of the graph builder. *)
Definition retained `{!Polars} (cfg : LDGraphBuilder.config) (r : ld_row) : bool :=
  LDGraphBuilder.plain_decimal (R2 r)
  && match cast_f64 (R2 r) with
     | Some v => fge v (LDGraphBuilder.r2_threshold cfg)
     | None => false
     end.

End Columns.

(* ===================================================================== *)
(** ** The reference platform, continued                                  *)
(* ===================================================================== *)

(** Single precision is not modelled: a [torch.float] holds the double
    it was given.  A set is listed in descending order, one of the orders
    the language allows. *)
Module RefGraph.
Import Ref.

#[export] Instance ref_torch : Torch := {| float32 x := x |}.

#[export] Program Instance ref_set : PySet := {|
  to_list s := reverse (sorted_strs s)
|}.
Next Obligation.
  intros s. rewrite reverse_Permutation. unfold sorted_strs.
  apply merge_sort_Permutation.
Qed.

End RefGraph.

(** Further inputs and settings for the examples. *)
Module Cases.
Import Ref RefGraph Samples.

(** Rates above one. *)
Definition col_over : Columnwise.config := Columnwise.mkConfig (Num 2).

Definition knn_over : KNearest.config :=
  KNearest.mkConfig 2 (Num 2) (Num (8 # 10)).

Definition rnd_over : RandomMasking.config := RandomMasking.mkConfig (Num 2) 42.

(** The world the k-nearest strategy leaves behind on [ld_file]. *)
Definition knn_world : world := mkWorld (43 : rng) (Some knn_table).

(** The table the random strategy writes for [ld_file]. *)
Definition rnd_table : DataFrame :=
  mkDF ["CHR"; "POS"; "SNP_ID"; "MASKED"; "STAGE1_VAL"; "STAGE2_VAL"; "STAGE3_VAL"; "QMS"]
       [[CStr "1"; CStr "100"; CStr "1_100"; CBool true;
         CFloat (Num (2 # 10)); CFloat (Num (3 # 10)); CFloat (Num (4 # 10));
         CFloat (Num (1 # 2))];
        [CStr "1"; CStr "1000"; CStr "1_1000"; CBool true;
         CFloat (Num (5 # 10)); CFloat (Num (6 # 10)); CFloat (Num (7 # 10));
         CFloat (Num (1 # 2))];
        [CStr "1"; CStr "200"; CStr "1_200"; CBool false;
         CFloat (Num (8 # 10)); CFloat (Num (9 # 10)); CFloat (Num (0 # 10));
         CFloat (Num (1 # 2))];
        [CStr "1"; CStr "300"; CStr "1_300"; CBool false;
         CFloat (Num (1 # 10)); CFloat (Num (2 # 10)); CFloat (Num (3 # 10));
         CFloat (Num (1 # 2))]].

Definition rnd_world : world := mkWorld (46 : rng) (Some rnd_table).

(** Four lines on eight variants; the first three lines reach the
    threshold 0.8 and hold six of them. *)
Definition eight_variants : string :=
  ("1 100 rs1 1 200 rs2 0.9" ++ nl ++ "1 300 rs3 1 400 rs4 0.9" ++ nl
   ++ "1 500 rs5 1 600 rs6 0.9" ++ nl ++ "1 700 rs7 1 800 rs8 0.5" ++ nl)%string.

(** A file whose chromosome names hold an underscore. *)
Definition unplaced : string :=
  "chrUn_gl1 5 rs1 chrUn_gl1 9 rs2 0.9".

Definition unplaced_table : DataFrame :=
  mkDF ["CHR"; "POS"; "SNP_ID"; "MASKED"]
       [[CStr "chrUn"; CStr "gl1"; CStr "chrUn_gl1_5"; CBool true];
        [CStr "chrUn"; CStr "gl1"; CStr "chrUn_gl1_9"; CBool false]].

(** Clusters of at least two members. *)
Definition maf2 : MAFCluster.config :=
  MAFCluster.mkConfig (Num (5 # 100)) (Num (1 # 10)) (Num (8 # 10)) 2.

Definition five : list string := ["1_100"; "1_200"; "1_300"; "1_400"; "1_500"].

(** Three samples with four genotypes each. *)
Definition rw : Rowwise.config := Rowwise.mkConfig (Num (1 # 10)) (Num (3 # 10)).

Definition four : list string := ["1_100"; "1_200"; "1_300"; "1_400"].

Definition genotypes : list (string * list Z) :=
  [("S0", [0; 1; 2; 0]%Z); ("S1", [0; 1; 2; 0]%Z); ("S2", [0; 1; 2; 0]%Z)].

Definition rw_records : list (string * Rowwise.info) :=
  [("S0", Rowwise.mkInfo 4 1 (Num 25) Rowwise.high false);
   ("S1", Rowwise.mkInfo 4 0 (Num 0) Rowwise.low false);
   ("S2", Rowwise.mkInfo 4 0 (Num 0) Rowwise.low false)].

Definition s0_record : list (string * Rowwise.info) :=
  [("S0", Rowwise.mkInfo 4 1 (Num 25) Rowwise.high false)].

Definition s0_world : world := mkWorld (2 : rng) None.

Definition rw_world : world := mkWorld (47 : rng) None.

Definition two_clusters : list (nat * list string) :=
  [(0, ["1_100"; "1_300"; "1_500"]); (1, ["1_200"; "1_400"])].

(** The graph built from [ld_five]. *)
Definition graph : LDGraph.Data :=
  LDGraph.mkData [[Num 2; Num 50]; [Num 1; Num 200]; [Num 1; Num 1000]; [Num 1; Num 100]]
                 ([0; 1; 1], [2; 0; 3])
                 [Num (9 # 10); Num (85 # 100); Num (95 # 100)].

End Cases.

(* ===================================================================== *)
(** * Part II: properties                                                 *)
(* ===================================================================== *)

(** ** The reader *)

Lemma rev_app_nonempty (s1 s2 : string) : s2 <> "" -> String.rev_app s1 s2 <> "".
Proof.
  revert s2. induction s1 as [|c s1 IH]; intros s2 Hs2; simpl; [exact Hs2|].
  apply IH. discriminate.
Qed.

Lemma rev_nonempty (c : ascii) (s : string) : String.rev (String c s) <> "".
Proof. unfold String.rev. simpl. apply rev_app_nonempty. discriminate. Qed.

Lemma flush_nonempty cur rest :
  Forall (fun l => l <> "") rest -> Forall (fun l => l <> "") (flush cur rest).
Proof.
  intros Hrest. destruct cur as [|c cur]; simpl; [exact Hrest|].
  constructor; [apply rev_nonempty | exact Hrest].
Qed.

Lemma lines_go_nonempty cur s : Forall (fun l => l <> "") (lines_go cur s).
Proof.
  revert cur. induction s as [|c s IH]; intros cur; simpl.
  - apply flush_nonempty. constructor.
  - destruct (Ascii.eqb c newline); [|apply IH].
    constructor; [apply rev_nonempty | apply IH].
Qed.

(** [readline] never returns the empty string before the end of the file. *)
Lemma open_text_nonempty content : Forall (fun l => l <> "") (open_text content).
Proof. apply lines_go_nonempty. Qed.

Lemma read_batch_take_drop n f :
  Forall (fun l => l <> "") f -> read_batch n f = (take n f, drop n f).
Proof.
  revert f. induction n as [|n IH]; intros f Hf; [reflexivity|].
  destruct f as [|l f]; [reflexivity|].
  inversion Hf as [|? ? Hl Hf']; subst. simpl.
  destruct l as [|c l]; [contradiction|].
  rewrite (IH f Hf'). reflexivity.
Qed.

Lemma Forall_drop_nonempty n (f : list string) :
  Forall (fun l => l <> "") f -> Forall (fun l => l <> "") (drop n f).
Proof. apply Forall_drop. Qed.

(** The fuel of [batches] is enough: the rounds read the whole file, line
    by line and in order, whenever the batch size is positive. *)
Lemma batches_fuel_concat fuel b f :
  0 < b -> Forall (fun l => l <> "") f -> length f < fuel ->
  concat (batches_fuel fuel b f) = f.
Proof.
  intros Hb. revert f. induction fuel as [|fuel IH]; intros f Hf Hlen; [lia|].
  simpl. rewrite (read_batch_take_drop b f Hf).
  destruct f as [|l f]; [destruct b; reflexivity|].
  destruct b as [|b]; [lia|].
  change (take (S b) (l :: f)) with (l :: take b f).
  change (drop (S b) (l :: f)) with (drop b f).
  simpl. rewrite IH.
  - rewrite take_drop. reflexivity.
  - apply Forall_drop. inversion Hf; assumption.
  - rewrite length_drop. simpl in Hlen. lia.
Qed.

(** More fuel than [batches] provides changes nothing. *)
Lemma batches_enough fuel1 fuel2 b f :
  Forall (fun l => l <> "") f -> length f < fuel1 -> length f < fuel2 ->
  batches_fuel fuel1 b f = batches_fuel fuel2 b f.
Proof.
  revert fuel2 f. induction fuel1 as [|fuel1 IH]; intros fuel2 f Hf H1 H2; [lia|].
  destruct fuel2 as [|fuel2]; [lia|].
  simpl. rewrite (read_batch_take_drop b f Hf).
  destruct (take b f) as [|x t] eqn:Et; [reflexivity|].
  f_equal.
  assert (Hd : length (drop b f) < length f).
  { rewrite length_drop. destruct b; [discriminate|]. destruct f; [discriminate|].
    simpl. lia. }
  apply IH; [apply Forall_drop; exact Hf | lia | lia].
Qed.

Lemma foldl_concat {A B} (f : A -> B -> A) (ls : list (list B)) (a : A) :
  foldl (fun st l => foldl f st l) a ls = foldl f a (concat ls).
Proof.
  revert a. induction ls as [|l ls IH]; intros a; [reflexivity|].
  simpl. rewrite foldl_app. apply IH.
Qed.

Lemma batches_concat b content :
  0 < b -> concat (batches b content) = open_text content.
Proof.
  intros Hb. unfold batches. apply batches_fuel_concat; [exact Hb| |lia].
  apply open_text_nonempty.
Qed.

(** With a positive batch size the nested loops visit every line of the
    file once, in order. *)
Lemma scan_foldl {S} (step : S -> string -> S) b content init :
  0 < b -> scan step b content init = foldl step init (open_text content).
Proof.
  intros Hb. unfold scan. rewrite foldl_concat, batches_concat by exact Hb.
  reflexivity.
Qed.

(** A batch size of zero reads nothing. *)
Lemma scan_zero {S} (step : S -> string -> S) content init :
  scan step 0 content init = init.
Proof. reflexivity. Qed.

(** ** Comparisons and the stable sort *)

Section Sorting.
Context `{PyFloat}.


Lemma flt_true a b : flt a b = true <-> fle a b = true /\ fle b a = false.
Proof.
  unfold flt. rewrite andb_true_iff, negb_true_iff. reflexivity.
Qed.

Lemma flt_false_le a b :
  number a -> number b -> flt a b = false -> fle b a = true.
Proof.
  unfold flt, number. intros Ha Hb Hlt.
  destruct (fle b a) eqn:Hba; [reflexivity|].
  destruct (fle_total a b Ha Hb) as [Hab|Hab]; [|congruence].
  rewrite Hab in Hlt. discriminate.
Qed.

Lemma fge_number a b : fge a b = true -> number a.
Proof. unfold fge, number. intros Hge. apply (fle_number b a Hge). Qed.

Lemma insert_by_perm {A} (k : A -> float) x l : insert_by k x l ≡ₚ x :: l.
Proof.
  induction l as [|y l IH]; simpl; [reflexivity|].
  destruct (flt (k y) (k x)); [|reflexivity].
  rewrite IH. apply Permutation_swap.
Qed.

Lemma sort_asc_perm {A} (k : A -> float) l : sort_asc k l ≡ₚ l.
Proof.
  induction l as [|x l IH]; simpl; [reflexivity|].
  fold (sort_asc k l). rewrite insert_by_perm, IH. reflexivity.
Qed.

Lemma sort_reverse_perm {A} (k : A -> float) l : sort_reverse k l ≡ₚ l.
Proof.
  unfold sort_reverse. rewrite reverse_Permutation, sort_asc_perm.
  apply reverse_Permutation.
Qed.

Lemma insert_by_sorted {A} (k : A -> float) x l :
  number (k x) -> Forall (fun y => number (k y)) l ->
  StronglySorted (fun a b => fle (k a) (k b) = true) l ->
  StronglySorted (fun a b => fle (k a) (k b) = true) (insert_by k x l).
Proof.
  intros Hx Hnum Hs. induction Hs as [|y l Hs IH Hall]; simpl.
  - repeat constructor.
  - inversion Hnum as [|? ? Hy Hnum']; subst.
    destruct (flt (k y) (k x)) eqn:Hlt.
    + constructor; [apply IH; exact Hnum'|].
      rewrite insert_by_perm. constructor; [|exact Hall].
      apply flt_true in Hlt. tauto.
    + pose proof (flt_false_le _ _ Hy Hx Hlt) as Hxy.
      constructor; [constructor; assumption|].
      constructor; [exact Hxy|].
      eapply Forall_impl; [exact Hall|].
      intros z Hyz. simpl in Hyz. eapply fle_trans; eassumption.
Qed.

Lemma sort_asc_sorted {A} (k : A -> float) l :
  Forall (fun y => number (k y)) l ->
  StronglySorted (fun a b => fle (k a) (k b) = true) (sort_asc k l).
Proof.
  induction 1 as [|x l Hx Hl IH]; simpl; [constructor|].
  fold (sort_asc k l). apply insert_by_sorted; [exact Hx| |exact IH].
  rewrite sort_asc_perm. exact Hl.
Qed.

Lemma StronglySorted_reverse {A} (R : relation A) l :
  StronglySorted R l -> StronglySorted (flip R) (reverse l).
Proof.
  induction 1 as [|x l Hs IH Hall]; [constructor|].
  rewrite reverse_cons. apply StronglySorted_app_2; [|exact IH|repeat constructor].
  intros a b Ha Hb. apply list_elem_of_singleton in Hb as ->.
  rewrite elem_of_reverse in Ha. rewrite Forall_forall in Hall. apply Hall, Ha.
Qed.

(** After [sort(key, reverse=True)] the keys never increase, provided
    none of them is NaN. *)
Lemma sort_reverse_sorted {A} (k : A -> float) l :
  Forall (fun y => number (k y)) l ->
  StronglySorted (fun a b => fge (k a) (k b) = true) (sort_reverse k l).
Proof.
  intros Hnum. unfold sort_reverse.
  apply (StronglySorted_reverse (fun a b => fle (k a) (k b) = true)).
  apply sort_asc_sorted. rewrite reverse_Permutation. exact Hnum.
Qed.

Lemma insert_by_tied {A} (k : A -> float) v x l :
  filter (tied k v) (insert_by k x l) = filter (tied k v) (x :: l).
Proof.
  induction l as [|y l IH]; simpl; [reflexivity|].
  destruct (flt (k y) (k x)) eqn:Hlt; [|reflexivity].
  apply flt_true in Hlt as [Hyx Hxy].
  rewrite (filter_cons _ y (insert_by k x l)), IH.
  rewrite (filter_cons _ x (y :: l)), (filter_cons _ x l), (filter_cons _ y l).
  destruct (decide (tied k v x)) as [[Hx1 Hx2]|Hx];
    destruct (decide (tied k v y)) as [[Hy1 Hy2]|Hy]; try reflexivity.
  exfalso. rewrite (fle_trans _ _ _ Hx1 Hy2) in Hxy. discriminate.
Qed.

Lemma sort_asc_tied {A} (k : A -> float) v l :
  filter (tied k v) (sort_asc k l) = filter (tied k v) l.
Proof.
  induction l as [|x l IH]; simpl; [reflexivity|].
  fold (sort_asc k l). rewrite insert_by_tied, !filter_cons, IH. reflexivity.
Qed.

(** The sort is stable: entries with equal keys keep their order. *)
Lemma sort_reverse_tied {A} (k : A -> float) v l :
  filter (tied k v) (sort_reverse k l) = filter (tied k v) l.
Proof.
  unfold sort_reverse.
  rewrite filter_reverse, sort_asc_tied, filter_reverse, reverse_involutive.
  reflexivity.
Qed.

Lemma slice_to_nonneg {A} (k : Z) (l : list A) :
  (0 <= k)%Z -> slice_to k l = take (Z.to_nat k `min` length l) l.
Proof.
  intros Hk. unfold slice_to. destruct (0 <=? k)%Z eqn:E; [|lia].
  destruct (Nat.le_ge_cases (Z.to_nat k) (length l)) as [Hle|Hge].
  - rewrite Nat.min_l by exact Hle. reflexivity.
  - rewrite Nat.min_r by exact Hge. rewrite !take_ge by lia. reflexivity.
Qed.

End Sorting.

(** ** The neighbor graph of the k-nearest strategy *)


Section KNearestFacts.
Context `{NumPy}.
Import KNearest.

Lemma dd_append_lookup k e (g : gmap string (list (string * float))) a :
  neighbors (dd_append k e g) a
  = neighbors g a ++ (if decide (k = a) then [e] else []).
Proof.
  unfold neighbors, dd_append. destruct (decide (k = a)) as [->|Hne].
  - rewrite lookup_insert_eq. reflexivity.
  - rewrite lookup_insert_ne by exact Hne. rewrite app_nil_r. reflexivity.
Qed.

Lemma add_line_lookup cfg st line a :
  neighbors (add_line cfg st line).1 a = neighbors st.1 a ++ contributes cfg a line.
Proof.
  unfold add_line, contributes.
  destruct (edge_of cfg line) as [[[x y] v]|]; simpl.
  - rewrite !dd_append_lookup, <- app_assoc. reflexivity.
  - rewrite app_nil_r. reflexivity.
Qed.

Lemma foldl_add_line_lookup cfg lines st a :
  neighbors (foldl (add_line cfg) st lines).1 a
  = neighbors st.1 a ++ (lines ≫= contributes cfg a).
Proof.
  revert st. induction lines as [|line lines IH]; intros st; simpl.
  - rewrite app_nil_r. reflexivity.
  - rewrite IH, add_line_lookup, <- app_assoc. reflexivity.
Qed.

Lemma build_scan cfg b content :
  build cfg b content = foldl (add_line cfg) (∅, ∅) (concat (batches b content)).
Proof. unfold build, scan. apply foldl_concat. Qed.

(** The neighbor list of [a] before sorting: what the lines read
    contribute, in file order. *)
Lemma build_lookup cfg b content a :
  neighbors (build cfg b content).1 a
  = concat (batches b content) ≫= contributes cfg a.
Proof.
  rewrite build_scan, foldl_add_line_lookup. unfold neighbors at 1. simpl.
  rewrite lookup_empty. reflexivity.
Qed.

Lemma add_line_unique cfg st line x :
  x ∈ (add_line cfg st line).2 <->
  x ∈ st.2 \/ exists a b v, edge_of cfg line = Some (a, b, v) /\ (x = a \/ x = b).
Proof.
  unfold add_line. destruct (edge_of cfg line) as [[[a b] v]|]; simpl.
  - rewrite !elem_of_union, !elem_of_singleton. split.
    + intros [Hx|[->| ->]]; [left; exact Hx| |]; right; exists a, b, v; tauto.
    + intros [Hx|(a' & b' & v' & Heq & Hx)]; [tauto|].
      injection Heq as <- <- <-. tauto.
  - split; [tauto|]. intros [Hx|(a & b & v & Heq & _)]; [exact Hx|discriminate].
Qed.

Lemma foldl_add_line_unique cfg lines st x :
  x ∈ (foldl (add_line cfg) st lines).2 <->
  x ∈ st.2 \/ exists line a b v,
      line ∈ lines /\ edge_of cfg line = Some (a, b, v) /\ (x = a \/ x = b).
Proof.
  revert st. induction lines as [|line lines IH]; intros st; simpl.
  - split; [tauto|]. intros [Hx|(line & a & b & v & Hin & _)]; [exact Hx|].
    apply elem_of_nil in Hin. contradiction.
  - rewrite IH, add_line_unique. split.
    + intros [[Hx|(a & b & v & Heq & Hx)]|(l & a & b & v & Hin & Heq & Hx)].
      * tauto.
      * right. exists line, a, b, v. split; [left|tauto].
      * right. exists l, a, b, v. split; [right; exact Hin|tauto].
    + intros [Hx|(l & a & b & v & Hin & Heq & Hx)]; [tauto|].
      apply elem_of_cons in Hin as [->|Hin].
      * left. right. exists a, b, v. tauto.
      * right. exists l, a, b, v. tauto.
Qed.

(** The variants the strategy collects: the endpoints of retained lines. *)
Lemma build_unique cfg b content x :
  x ∈ (build cfg b content).2 <->
  exists line a b' v,
    line ∈ concat (batches b content)
    /\ edge_of cfg line = Some (a, b', v) /\ (x = a \/ x = b').
Proof.
  rewrite build_scan, foldl_add_line_unique. simpl. split.
  - intros [Hx|Hx]; [|exact Hx]. apply not_elem_of_empty in Hx. contradiction.
  - intros Hx. right. exact Hx.
Qed.

Lemma contributes_retained cfg a line e :
  e ∈ contributes cfg a line -> fge e.2 (r2_threshold cfg) = true.
Proof.
  unfold contributes, edge_of.
  destruct (fields line) as [r|]; [|intros Hin; apply elem_of_nil in Hin; contradiction].
  destruct (float_of_str (R2 r)) as [v|]; [|intros Hin; apply elem_of_nil in Hin; contradiction].
  destruct (fge v (r2_threshold cfg)) eqn:Hge;
    [|intros Hin; apply elem_of_nil in Hin; contradiction].
  intros Hin. apply elem_of_app in Hin as [Hin|Hin];
    destruct (decide _); try (apply elem_of_nil in Hin; contradiction);
    apply list_elem_of_singleton in Hin as ->; exact Hge.
Qed.

(** Every entry of the graph carries an R2 at or above the threshold. *)
Lemma build_retained cfg b content a e :
  e ∈ neighbors (build cfg b content).1 a -> fge e.2 (r2_threshold cfg) = true.
Proof.
  rewrite build_lookup. intros Hin.
  apply list_elem_of_bind in Hin as (line & He & _).
  eapply contributes_retained. exact He.
Qed.

Lemma sort_neighbors_lookup (g : gmap string (list (string * float))) a :
  neighbors (sort_neighbors g) a = sort_reverse snd (neighbors g a).
Proof.
  unfold neighbors, sort_neighbors. rewrite lookup_fmap.
  destruct (g !! a); reflexivity.
Qed.

Lemma mask_neighbors_elem (l : list (string * float)) (m : gset string) x :
  x ∈ foldl (fun m nb => m ∪ {[nb.1]}) m l <-> x ∈ m \/ x ∈ l.*1.
Proof.
  revert m. induction l as [|e l IH]; intros m; simpl.
  - rewrite elem_of_nil. tauto.
  - rewrite IH, elem_of_union, elem_of_singleton, elem_of_cons. tauto.
Qed.

Lemma mask_seed_elem cfg g m s x :
  x ∈ mask_seed cfg g m s <-> x ∈ m \/ x = s \/ x ∈ (k_nearest cfg g s).*1.
Proof.
  unfold mask_seed. rewrite mask_neighbors_elem, elem_of_union, elem_of_singleton.
  tauto.
Qed.

Lemma foldl_mask_seed_elem cfg g seeds m x :
  x ∈ foldl (mask_seed cfg g) m seeds <->
  x ∈ m \/ exists s, s ∈ seeds /\ (x = s \/ x ∈ (k_nearest cfg g s).*1).
Proof.
  revert m. induction seeds as [|s seeds IH]; intros m; simpl.
  - split; [tauto|]. intros [Hx|(s & Hs & _)]; [exact Hx|].
    apply elem_of_nil in Hs. contradiction.
  - rewrite IH, mask_seed_elem. split.
    + intros [[Hx|Hx]|(s' & Hs' & Hx)]; [tauto| |].
      * right. exists s. split; [left|exact Hx].
      * right. exists s'. split; [right; exact Hs'|exact Hx].
    + intros [Hx|(s' & Hs' & Hx)]; [tauto|].
      apply elem_of_cons in Hs' as [->|Hs']; [tauto|].
      right. exists s'. tauto.
Qed.

End KNearestFacts.

Section KNearestClaims.
Context `{NumPy}.
Import KNearest.

(** C3 (symmetry).  A line of the file that passes the guards of the
    k-nearest reader — seven fields, not the header, an R2 that parses
    and is at or above the threshold — puts its second variant, with that
    R2, in the neighbor list of its first variant, and its first variant,
    with the same R2, in the list of the second; both entries are still
    there after the lists are sorted. *)
Theorem c3_symmetry (cfg : config) (content : string) (batch_size : nat)
  (line : string) (r : ld_row) (r2 : float) :
  0 < batch_size ->
  line ∈ open_text content ->
  fields line = Some r ->
  float_of_str (R2 r) = Some r2 ->
  fge r2 (r2_threshold cfg) = true ->
  let g := sort_neighbors (build cfg batch_size content).1 in
  (snp_b r, r2) ∈ neighbors g (snp_a r) /\ (snp_a r, r2) ∈ neighbors g (snp_b r).
Proof.
  intros Hb Hline Hf Hp Hge g. subst g.
  rewrite !sort_neighbors_lookup, !sort_reverse_perm, !build_lookup.
  rewrite batches_concat by exact Hb.
  assert (He : edge_of cfg line = Some (snp_a r, snp_b r, r2)).
  { unfold edge_of. rewrite Hf, Hp, Hge. reflexivity. }
  split; apply list_elem_of_bind; exists line; (split; [|exact Hline]);
    unfold contributes; rewrite He; apply elem_of_app.
  - left. rewrite decide_True by reflexivity. apply list_elem_of_singleton. reflexivity.
  - right. rewrite decide_True by reflexivity. apply list_elem_of_singleton. reflexivity.
Qed.

(** C4 (neighbor ordering and top-k selection).  For a non-negative [k]:
    after the sort every neighbor list is non-increasing in R2; entries
    whose R2 ties keep the order in which the lines inserted them; the
    masked set is made of every seed together with the first
    [min(k, length)] entries of its sorted list, and of nothing else; and
    a seed without a list adds no neighbor. *)
Theorem c4_neighbor_order (cfg : config) (content : string) (batch_size : nat) :
  (0 <= k cfg)%Z ->
  let inserted := (build cfg batch_size content).1 in
  let g := sort_neighbors inserted in
  (forall snp, StronglySorted (fun x y => fge x.2 y.2 = true) (neighbors g snp))
  /\ (forall snp v,
         filter (tied snd v) (neighbors g snp)
         = filter (tied snd v) (neighbors inserted snp))
  /\ (forall seed_snps x,
         x ∈ mask_seeds cfg g seed_snps <->
         exists s, s ∈ seed_snps /\
           (x = s \/
            x ∈ (take (Z.to_nat (k cfg) `min` length (neighbors g s))
                      (neighbors g s)).*1))
  /\ (forall s, g !! s = None -> k_nearest cfg g s = []).
Proof.
  intros Hk inserted g. subst inserted g. split; [|split; [|split]].
  - intros snp. rewrite sort_neighbors_lookup. apply (sort_reverse_sorted snd).
    apply Forall_forall. intros e He.
    eapply fge_number, build_retained, He.
  - intros snp v. rewrite sort_neighbors_lookup. apply sort_reverse_tied.
  - intros seed_snps x. unfold mask_seeds. rewrite foldl_mask_seed_elem.
    unfold k_nearest. fold (neighbors (sort_neighbors (build cfg batch_size content).1)).
    split.
    + intros [Hx|(s & Hs & Hx)]; [apply not_elem_of_empty in Hx; contradiction|].
      exists s. split; [exact Hs|].
      rewrite slice_to_nonneg in Hx by exact Hk. exact Hx.
    + intros (s & Hs & Hx). right. exists s. split; [exact Hs|].
      rewrite slice_to_nonneg by exact Hk. exact Hx.
  - intros s Hnone. unfold k_nearest. rewrite Hnone. unfold slice_to.
    destruct (0 <=? k cfg)%Z; apply take_nil.
Qed.

Lemma contributes_count cfg a b line :
  length (filter (fun e => e.1 = b) (contributes cfg a line))
  = (if decide (joins cfg a b line) then 1 else 0)
    + (if decide (joins cfg b a line) then 1 else 0).
Proof.
  unfold contributes.
  destruct (decide (joins cfg a b line)) as [J1|J1];
    destruct (decide (joins cfg b a line)) as [J2|J2];
    unfold joins in J1, J2;
    destruct (edge_of cfg line) as [[[x y] v]|]; try tauto;
    rewrite filter_app, length_app;
    destruct (decide (x = a)) as [Hxa|Hxa]; destruct (decide (y = a)) as [Hya|Hya];
    rewrite ?filter_cons, ?filter_nil; simpl;
    destruct (decide (y = b)) as [Hyb|Hyb]; destruct (decide (x = b)) as [Hxb|Hxb];
    simpl; try reflexivity; exfalso; subst; tauto.
Qed.

Lemma bind_count cfg a b (lines : list string) :
  length (filter (fun e => e.1 = b) (lines ≫= contributes cfg a))
  = length (filter (joins cfg a b) lines) + length (filter (joins cfg b a) lines).
Proof.
  induction lines as [|line lines IH]; [reflexivity|].
  rewrite bind_cons, filter_app, length_app, IH, contributes_count.
  rewrite !(filter_cons _ line lines).
  destruct (decide (joins cfg a b line)), (decide (joins cfg b a line)); simpl; lia.
Qed.

(** C8, as the code has it.  The graph keeps one entry per retained line
    and per endpoint, without merging: the number of entries naming [b] in
    the sorted neighbor list of [a] is the number of retained lines that
    record the pair as [(a, b)] plus the number that record it as
    [(b, a)]. *)
Theorem c8_one_entry_per_line (cfg : config) (content : string) (batch_size : nat)
  (a b : string) :
  0 < batch_size ->
  let g := sort_neighbors (build cfg batch_size content).1 in
  length (filter (fun e => e.1 = b) (neighbors g a))
  = length (filter (joins cfg a b) (open_text content))
    + length (filter (joins cfg b a) (open_text content)).
Proof.
  intros Hb g. subst g.
  rewrite sort_neighbors_lookup, sort_reverse_perm, build_lookup.
  rewrite batches_concat by exact Hb. apply bind_count.
Qed.

End KNearestClaims.

(** ** The two R2 filters *)

Section Filters.
Context `{NumPy} `{!Polars}.
Import LDGraphBuilder.


Lemma edge_of_spec (cfg : KNearest.config) line a b v :
  KNearest.edge_of cfg line = Some (a, b, v) <->
  exists r, fields line = Some r /\ float_of_str (R2 r) = Some v
            /\ fge v (KNearest.r2_threshold cfg) = true
            /\ a = snp_a r /\ b = snp_b r.
Proof.
  unfold KNearest.edge_of. split.
  - destruct (fields line) as [r|]; [|discriminate].
    destruct (float_of_str (R2 r)) as [x|] eqn:Hx; [|discriminate].
    destruct (fge x (KNearest.r2_threshold cfg)) eqn:Hge; [|discriminate].
    intros Heq. injection Heq as <- <- <-. exists r. repeat split; auto.
  - intros (r & -> & -> & -> & -> & ->). reflexivity.
Qed.

(** A frame has its lines for rows unless there are seven of them. *)
Lemma batch_frame_rows (batch_data : list ld_row) :
  length batch_data <> 7 -> batch_frame batch_data = batch_data.
Proof.
  intros Hlen.
  destruct batch_data as [|l0 [|l1 [|l2 [|l3 [|l4 [|l5 [|l6 [|l7 rest]]]]]]]];
    try reflexivity.
  simpl in Hlen. lia.
Qed.

Lemma batch_frame_length (batch_data : list ld_row) :
  length (batch_frame batch_data) = length batch_data.
Proof.
  destruct batch_data as [|l0 [|l1 [|l2 [|l3 [|l4 [|l5 [|l6 [|l7 rest]]]]]]]];
    reflexivity.
Qed.

Lemma load_batches_concat (bs : list (list string)) (chunks : list (list ld_row)) :
  forallb (fun lines => negb (Nat.eqb (length (omap fields lines)) 7)) bs = true ->
  concat (foldl load_batch chunks bs) = concat chunks ++ omap fields (concat bs).
Proof.
  revert chunks. induction bs as [|lines bs IH]; intros chunks Hbs; simpl.
  - rewrite app_nil_r. reflexivity.
  - simpl in Hbs. apply andb_true_iff in Hbs as [Hl Hbs].
    apply negb_true_iff, Nat.eqb_neq in Hl.
    rewrite IH, omap_app, app_assoc by exact Hbs. f_equal.
    unfold load_batch. rewrite <- (batch_frame_rows _ Hl) at 2.
    destruct (omap fields lines) as [|x xs].
    + rewrite app_nil_r. reflexivity.
    + rewrite concat_app. simpl. rewrite app_nil_r. reflexivity.
Qed.

(** With a positive batch size, and no batch of seven data lines, the
    loader returns the data lines of the file, in order. *)
Lemma load_ld_data_spec content b :
  0 < b -> lines_as_rows b content = true ->
  load_ld_data content b = omap fields (open_text content).
Proof.
  intros Hb Hrows. unfold load_ld_data.
  rewrite load_batches_concat, batches_concat by assumption. reflexivity.
Qed.

(** The fuel of [iter_slices] is enough: the slices cover the frame. *)
Lemma slices_fuel_concat fuel n (df : list ld_row) :
  0 < n -> length df <= fuel -> concat (slices_fuel fuel n df) = df.
Proof.
  intros Hn. revert df. induction fuel as [|fuel IH]; intros df Hlen.
  - destruct df; [reflexivity|simpl in Hlen; lia].
  - destruct df as [|r df]; [reflexivity|].
    cbn [slices_fuel concat]. rewrite IH.
    + apply take_drop.
    + rewrite length_drop. simpl in *. lia.
Qed.

Lemma cast_column_spec (df : list ld_row) vs :
  cast_column df = Ok vs -> Forall2 (fun r v => cast_f64 (R2 r) = Some v) df vs.
Proof.
  revert vs. induction df as [|r df IH]; intros vs; simpl.
  - intros Heq. injection Heq as <-. constructor.
  - destruct (cast_f64 (R2 r)) as [v|] eqn:Hv; [|discriminate].
    destruct (cast_column df) as [vs'|e]; [|discriminate].
    intros Heq. injection Heq as <-. constructor; [exact Hv|apply IH; reflexivity].
Qed.




End Filters.

(** ** Reproducibility *)


Section Determinism.
Context `{NumPy} `{!Sklearn}.

Lemma oblivious_lift {A} (r : result A) : oblivious (lift r).
Proof. intros w1 w2 Hd. split; [reflexivity|exact Hd]. Qed.

Lemma reseeds_seed k : reseeds (seed k).
Proof.
  intros w1 w2 Hd. unfold seed. destruct (seed_ok k); simpl.
  - rewrite Hd. repeat split; reflexivity.
  - repeat split; [exact Hd|discriminate].
Qed.

Lemma reseeds_bind {A B} (m : M A) (k : A -> M B) : reseeds m -> reseeds (bind m k).
Proof.
  intros Hm w1 w2 Hd. destruct (Hm w1 w2 Hd) as (Hr & Hdisk & Hw).
  unfold bind. destruct (m w1) as [[a|e] w1'], (m w2) as [[a'|e'] w2'];
    simpl in *; try discriminate.
  - injection Hr as <-. rewrite (Hw eq_refl). repeat split; reflexivity.
  - injection Hr as <-. repeat split; [exact Hdisk|discriminate].
Qed.

Lemma reseeds_bind_oblivious {A B} (m : M A) (k : A -> M B) :
  oblivious m -> (forall a, reseeds (k a)) -> reseeds (bind m k).
Proof.
  intros Hm Hk w1 w2 Hd. destruct (Hm w1 w2 Hd) as (Hr & Hdisk).
  unfold bind. destruct (m w1) as [[a|e] w1'], (m w2) as [[a'|e'] w2'];
    simpl in *; try discriminate.
  - injection Hr as <-. apply Hk, Hdisk.
  - injection Hr as <-. repeat split; [exact Hdisk|discriminate].
Qed.

Lemma reseeds_outcome {A} (m : M A) g1 g2 disk :
  reseeds m -> outcome m (mkWorld g1 disk) = outcome m (mkWorld g2 disk).
Proof.
  intros Hm. unfold outcome.
  destruct (Hm (mkWorld g1 disk) (mkWorld g2 disk) eq_refl) as (Hr & Hd & _).
  rewrite Hr, Hd. reflexivity.
Qed.

Lemma knearest_reseeds cfg content b :
  reseeds (KNearest.create_mask_from_ld cfg content b).
Proof.
  unfold KNearest.create_mask_from_ld.
  destruct (KNearest.build cfg b content) as [g u].
  apply reseeds_bind_oblivious; [apply oblivious_lift|].
  intros n. apply reseeds_bind, reseeds_seed.
Qed.

Lemma columnwise_reseeds cfg content b :
  reseeds (Columnwise.create_mask_from_ld cfg content b).
Proof.
  unfold Columnwise.create_mask_from_ld.
  apply reseeds_bind_oblivious; [apply oblivious_lift|].
  intros n. apply reseeds_bind, reseeds_seed.
Qed.

Lemma random_reseeds cfg content b :
  reseeds (RandomMasking.create_mask_from_ld cfg content b).
Proof.
  unfold RandomMasking.create_mask_from_ld, RandomMasking.generate_random_masks.
  apply reseeds_bind, reseeds_bind, reseeds_seed.
Qed.

Lemma rowwise_reseeds cfg content b :
  reseeds (Rowwise.create_mask_from_ld cfg content b).
Proof.
  unfold Rowwise.create_mask_from_ld, Rowwise.simulate_sample_data.
  apply reseeds_bind, reseeds_bind, reseeds_seed.
Qed.

Lemma mafcluster_reseeds cfg content b :
  reseeds (MAFCluster.create_mask_from_ld cfg content b).
Proof.
  unfold MAFCluster.create_mask_from_ld.
  destruct (foldl (MAFCluster.add_batch cfg) _ _) as [chunks u].
  unfold MAFCluster.simulate_maf.
  apply reseeds_bind, reseeds_bind, reseeds_seed.
Qed.

(** C1 (determinism).  Each of the five strategies seeds the generator
    before its first draw.  Two runs on the same file, with the same
    configuration and batch size, that find the same thing on disk but the
    global generator in different states, return the same table (or raise
    the same exception) and leave the same table on disk. *)
Theorem c1_determinism (content : string) (batch_size : nat)
  (g1 g2 : rng) (disk : option DataFrame) :
  (forall cfg,
      outcome (RandomMasking.create_mask_from_ld cfg content batch_size) (mkWorld g1 disk)
      = outcome (RandomMasking.create_mask_from_ld cfg content batch_size) (mkWorld g2 disk))
  /\ (forall cfg,
      outcome (Columnwise.create_mask_from_ld cfg content batch_size) (mkWorld g1 disk)
      = outcome (Columnwise.create_mask_from_ld cfg content batch_size) (mkWorld g2 disk))
  /\ (forall cfg,
      outcome (Rowwise.create_mask_from_ld cfg content batch_size) (mkWorld g1 disk)
      = outcome (Rowwise.create_mask_from_ld cfg content batch_size) (mkWorld g2 disk))
  /\ (forall cfg,
      outcome (KNearest.create_mask_from_ld cfg content batch_size) (mkWorld g1 disk)
      = outcome (KNearest.create_mask_from_ld cfg content batch_size) (mkWorld g2 disk))
  /\ (forall cfg,
      outcome (MAFCluster.create_mask_from_ld cfg content batch_size) (mkWorld g1 disk)
      = outcome (MAFCluster.create_mask_from_ld cfg content batch_size) (mkWorld g2 disk)).
Proof.
  split; [|split; [|split; [|split]]]; intros cfg; apply reseeds_outcome.
  - apply random_reseeds.
  - apply columnwise_reseeds.
  - apply rowwise_reseeds.
  - apply knearest_reseeds.
  - apply mafcluster_reseeds.
Qed.

End Determinism.

(** ** Running the monad *)

Section Running.
Context `{NumPy}.

Lemma bind_ok {A B} (m : M A) (k : A -> M B) w a w' :
  m w = (Ok a, w') -> bind m k w = k a w'.
Proof. intros Hm. unfold bind. rewrite Hm. reflexivity. Qed.

Lemma bind_raise {A B} (m : M A) (k : A -> M B) w e w' :
  m w = (Raise e, w') -> bind m k w = (Raise e, w').
Proof. intros Hm. unfold bind. rewrite Hm. reflexivity. Qed.

Lemma draw_run {A} (f : rng -> A * rng) w :
  draw f w = (Ok (f (w_rng w)).1, mkWorld (f (w_rng w)).2 (w_disk w)).
Proof. unfold draw. destruct (f (w_rng w)). reflexivity. Qed.

Lemma bind_assoc {A B C} (m : M A) (k1 : A -> M B) (k2 : B -> M C) w :
  bind (bind m k1) k2 w = bind m (fun a => bind (k1 a) k2) w.
Proof. unfold bind. destruct (m w) as [[a|e] w']; reflexivity. Qed.

Lemma bind_seed {B} n (k : unit -> M B) w :
  seed_ok n = true -> bind (seed n) k w = k tt (mkWorld (np_seed n) (w_disk w)).
Proof. intros Hn. unfold bind, seed. rewrite Hn. reflexivity. Qed.

Lemma bind_seed_refused {B} n (k : unit -> M B) w :
  seed_ok n = false -> bind (seed n) k w = (Raise ValueError, w).
Proof. intros Hn. unfold bind, seed. rewrite Hn. reflexivity. Qed.

Lemma bind_draw {A B} (f : rng -> A * rng) (k : A -> M B) w :
  bind (draw f) k w = k (f (w_rng w)).1 (mkWorld (f (w_rng w)).2 (w_disk w)).
Proof. unfold bind. rewrite draw_run. reflexivity. Qed.

Lemma bind_ret {A B} (a : A) (k : A -> M B) w : bind (ret a) k w = k a w.
Proof. reflexivity. Qed.

Lemma bind_lift_ok {A B} (a : A) (k : A -> M B) w : bind (lift (Ok a)) k w = k a w.
Proof. reflexivity. Qed.

Lemma bind_lift_raise {A B} e (k : A -> M B) w :
  bind (lift (Raise e)) k w = (Raise e, w).
Proof. reflexivity. Qed.

Lemma bind_write_csv {B} df (k : unit -> M B) w :
  bind (write_csv df) k w = k tt (mkWorld (w_rng w) (Some df)).
Proof. reflexivity. Qed.

(** *** Building a frame from a list of lists *)

Lemma pl_DataFrame_empty name names :
  pl_DataFrame (name :: names) [] = Ok (mkDF (name :: names) []).
Proof. reflexivity. Qed.

(** Lists that are not as many as the names are the rows of the frame. *)
Lemma pl_DataFrame_rows names data :
  length data <> length names -> pl_DataFrame names data = Ok (mkDF names data).
Proof.
  intros Hlen. unfold pl_DataFrame.
  destruct (Nat.eqb_spec (length data) (length names)) as [Heq|_]; [contradiction|].
  reflexivity.
Qed.

(** A string and then a bool do not make a column. *)
Lemma series_mixed row : str_then_bool row -> series row = Raise TypeError.
Proof.
  intros (s & b & rest & -> & Hb). unfold series.
  assert (Hall : forallb (same_type (CStr s)) (CStr s :: rest) = false).
  { simpl. apply list_elem_of_In in Hb. clear -Hb.
    induction rest as [|c rest IH]; [destruct Hb|].
    destruct Hb as [->|Hb]; [reflexivity|].
    simpl. rewrite (IH Hb). apply andb_false_r. }
  rewrite Hall. reflexivity.
Qed.

(** As many rows as names: the rows of a mask table are taken for
    columns, and refused. *)
Lemma pl_DataFrame_square names data :
  length data = length names -> data <> [] -> Forall str_then_bool data ->
  pl_DataFrame names data = Raise TypeError.
Proof.
  intros Hlen Hne Hall. unfold pl_DataFrame.
  rewrite (proj2 (Nat.eqb_eq _ _) Hlen).
  destruct Hall as [|row data Hrow _]; [contradiction|].
  cbn [all_series]. rewrite (series_mixed row Hrow). reflexivity.
Qed.

(** A mask table that was built has its rows as they were handed over,
    and is not square. *)
Lemma pl_DataFrame_inv names data df :
  names <> [] -> Forall str_then_bool data ->
  pl_DataFrame names data = Ok df ->
  df = mkDF names data /\ length data <> length names.
Proof.
  intros Hnames Hall Hdf.
  destruct (decide (length data = length names)) as [Heq|Hne].
  - rewrite pl_DataFrame_square in Hdf; [discriminate|exact Heq| |exact Hall].
    intros ->. destruct names; [contradiction|discriminate].
  - rewrite pl_DataFrame_rows in Hdf by exact Hne. injection Hdf as <-. auto.
Qed.

(** A loop whose body keeps an invariant, indexed by the number of rounds
    done, and never raises, runs to its end. *)
Lemma for_each_inv {A S} (I : nat -> S -> world -> Prop) (xs : list A)
  (body : S -> A -> M S) :
  (forall i s x w, x ∈ xs -> I i s w ->
     exists s' w', body s x w = (Ok s', w') /\ I (Datatypes.S i) s' w') ->
  forall i s w, I i s w ->
    exists s' w', for_each xs body s w = (Ok s', w') /\ I (i + length xs) s' w'.
Proof.
  induction xs as [|x xs IH]; intros Hbody i s w Hs; simpl.
  - exists s, w. rewrite Nat.add_0_r. split; [reflexivity|exact Hs].
  - destruct (Hbody i s x w) as (s1 & w1 & Hrun & Hs1); [left|exact Hs|].
    rewrite (bind_ok _ _ _ _ _ Hrun).
    destruct (IH (fun i s x w Hx => Hbody i s x w (list_elem_of_further _ _ _ Hx))
                 (Datatypes.S i) s1 w1 Hs1)
      as (s2 & w2 & Hrun2 & Hs2).
    exists s2, w2. split; [exact Hrun2|].
    replace (i + Datatypes.S (length xs)) with (Datatypes.S i + length xs) by lia.
    exact Hs2.
Qed.

End Running.

(** One step of a run: the head of the computation is a seed, a draw, a
    return, a lifted value or a write. *)
Ltac run_step :=
  rewrite ?bind_assoc;
  first [ rewrite bind_seed by reflexivity | rewrite bind_draw | rewrite bind_ret
        | rewrite bind_lift_ok | rewrite bind_lift_raise | rewrite bind_write_csv ].

(** ** The MAF simulator *)

Section MAF.
Context `{NumPy} `{!Sklearn}.
Import MAFCluster.

Lemma py_min_half a :
  fle (flit 0 0) a = true ->
  fle (flit 0 0) (py_min a (flit 5 (-1))) = true
  /\ fle (py_min a (flit 5 (-1))) (flit 5 (-1)) = true.
Proof.
  intros Ha. unfold py_min.
  destruct (fle_number _ _ fle_0_half) as [_ Hhalf].
  destruct (fle_number _ _ Ha) as [_ Hnum].
  destruct (flt (flit 5 (-1)) a) eqn:Hlt.
  - split; [apply fle_0_half|exact Hhalf].
  - split; [exact Ha|]. apply flt_false_le; assumption.
Qed.

Lemma next_state_runs states x w :
  states <> [] -> Forall (fun s => s < 2) states ->
  exists states' w',
    next_state states x w = (Ok states', w')
    /\ states' <> [] /\ Forall (fun s => s < 2) states'
    /\ length states' = S (length states) /\ w_disk w' = w_disk w.
Proof.
  intros Hne Hall. unfold next_state.
  destruct (last states) as [cur|] eqn:Hlast;
    [|apply last_None in Hlast; contradiction].
  assert (Hcur : cur < 2).
  { rewrite Forall_forall in Hall. apply Hall.
    apply last_Some in Hlast as [l' ->]. apply elem_of_app. right. left. }
  assert (Hrow : exists p, index transition_matrix cur = Ok p /\ length p = 2).
  { destruct cur as [|[|cur]]; [eexists; split; reflexivity..|lia]. }
  destruct Hrow as (p & Hp & Hlen).
  unfold lift at 1. cbn [bind]. rewrite Hp.
  rewrite (bind_ok _ _ _ _ _ (draw_run _ _)). unfold ret.
  eexists _, _. split; [reflexivity|]. split; [|split; [|split]].
  - destruct states; discriminate.
  - apply Forall_app. split; [exact Hall|]. constructor; [|constructor].
    rewrite <- Hlen. apply np_choice_p1_bound. destruct p; [discriminate|discriminate].
  - rewrite length_app. simpl. lia.
  - reflexivity.
Qed.

Lemma emit_runs maf_values state w :
  Forall (fun m => fle (flit 0 0) m = true /\ fle m (flit 5 (-1)) = true) maf_values ->
  exists maf_values' w',
    emit maf_values state w = (Ok maf_values', w')
    /\ Forall (fun m => fle (flit 0 0) m = true /\ fle m (flit 5 (-1)) = true) maf_values'
    /\ length maf_values' = S (length maf_values) /\ w_disk w' = w_disk w.
Proof.
  intros Hall. unfold emit. destruct (Nat.eqb state 0).
  - rewrite (bind_ok _ _ _ _ _ (draw_run _ _)). unfold ret.
    eexists _, _. split; [reflexivity|]. split; [|split].
    + apply Forall_app. split; [exact Hall|]. constructor; [|constructor].
      apply py_min_half, np_beta_nonneg.
    + rewrite length_app. simpl. lia.
    + reflexivity.
  - rewrite (bind_ok _ _ _ _ _
               (bind_ok _ _ _ _ _ (draw_run _ _))). unfold ret.
    eexists _, _. split; [reflexivity|]. split; [|split].
    + apply Forall_app. split; [exact Hall|]. constructor; [|constructor].
      apply py_min_half, fmul_half_nonneg, np_beta_nonneg.
    + rewrite length_app. simpl. lia.
    + reflexivity.
Qed.

(** The simulator runs to its end, whatever the generator draws. *)
Lemma simulate_maf_runs (snp_positions : list string) (w : world) :
  exists maf_values w',
    simulate_maf snp_positions w = (Ok maf_values, w')
    /\ length maf_values = Nat.max 1 (length snp_positions)
    /\ Forall (fun m => fle (flit 0 0) m = true /\ fle m (flit 5 (-1)) = true)
              maf_values
    /\ w_disk w' = w_disk w.
Proof.
  unfold simulate_maf. do 2 run_step.
  match goal with
  | |- context [bind (for_each _ next_state [?s]) _ ?w0] => set (s0 := s); set (w1 := w0)
  end.
  assert (Hs0 : s0 < 2).
  { subst s0. apply (np_choice_p1_bound [flit 3 (-1); flit 7 (-1)]). discriminate. }
  destruct (for_each_inv
              (fun i states w' =>
                 states <> [] /\ Forall (fun s => s < 2) states
                 /\ length states = S i /\ w_disk w' = w_disk w)
              (seq 1 (length snp_positions - 1)) next_state) with (i := 0) (s := [s0]) (w := w1)
    as (states & w2 & Hrun & Hne & Hall & Hlen & Hd).
  { intros i s x w0 _ (Hne & Hall & Hlen & Hd).
    destruct (next_state_runs s x w0 Hne Hall)
      as (s' & w' & Hr & Hne' & Hall' & Hlen' & Hd').
    exists s', w'. split; [exact Hr|]. split; [exact Hne'|]. split; [exact Hall'|].
    split; [lia|congruence]. }
  { split; [discriminate|]. split; [|split; reflexivity].
    constructor; [exact Hs0|constructor]. }
  rewrite (bind_ok _ _ _ _ _ Hrun).
  destruct (for_each_inv
              (fun i vals w' =>
                 Forall (fun m => fle (flit 0 0) m = true /\ fle m (flit 5 (-1)) = true) vals
                 /\ length vals = i /\ w_disk w' = w_disk w)
              states emit) with (i := 0) (s := @nil float) (w := w2)
    as (vals & w3 & Hrun' & Hvals & Hlen' & Hd').
  { intros i s x w0 _ (Hall0 & Hlen0 & Hd0).
    destruct (emit_runs s x w0 Hall0) as (s' & w' & Hr & Hall' & Hl' & Hd1).
    exists s', w'. split; [exact Hr|]. split; [exact Hall'|]. split; [lia|congruence]. }
  { split; [constructor|]. split; [reflexivity|exact Hd]. }
  exists vals, w3. split; [exact Hrun'|]. split; [|split; [exact Hvals|exact Hd']].
  rewrite Hlen', Hlen, length_seq. lia.
Qed.

(** C9 (MAF bound).  The simulator never raises; it returns one value per
    variant (and a single value for an empty list of variants), and every
    value it returns lies between 0 and 0.5, both ends included: the
    emissions are non-negative and each is capped at 0.5 by [min]. *)
Theorem c9_maf_bound (snp_positions : list string) (w : world) :
  exists maf_values w',
    simulate_maf snp_positions w = (Ok maf_values, w')
    /\ length maf_values = Nat.max 1 (length snp_positions)
    /\ Forall (fun m => fle (flit 0 0) m = true /\ fle m (flit 5 (-1)) = true)
              maf_values.
Proof.
  destruct (simulate_maf_runs snp_positions w) as (maf & w' & Hrun & Hlen & Hall & _).
  exists maf, w'. split; [exact Hrun|]. split; [exact Hlen|exact Hall].
Qed.

End MAF.

(** ** Files without a data line *)

Section EmptyInput.
Context `{NumPy} `{!Sklearn}.

Lemma batches_zero content : batches 0 content = [].
Proof. reflexivity. Qed.

(** Whatever the batch size, the loops only see lines of the file. *)
Lemma batches_lines b content line :
  line ∈ concat (batches b content) -> line ∈ open_text content.
Proof.
  destruct b as [|b].
  - rewrite batches_zero. simpl. intros Hin. apply elem_of_nil in Hin. contradiction.
  - rewrite batches_concat by lia. exact (fun Hin => Hin).
Qed.

Lemma elem_of_concat {A} (x : A) (l : list A) (ls : list (list A)) :
  x ∈ l -> l ∈ ls -> x ∈ concat ls.
Proof.
  intros Hx Hl. induction Hl as [l ls|l l' ls Hl IH]; simpl; apply elem_of_app.
  - left. exact Hx.
  - right. apply IH, Hx.
Qed.

Lemma foldl_id {S A} (step : S -> A -> S) (xs : list A) (s : S) :
  (forall x, x ∈ xs -> forall s, step s x = s) -> foldl step s xs = s.
Proof.
  revert s. induction xs as [|x xs IH]; intros s Hstep; simpl; [reflexivity|].
  rewrite (Hstep x) by left. apply IH. intros y Hy. apply Hstep. right. exact Hy.
Qed.

Lemma scan_no_data {S} (step : S -> string -> S) b content init :
  (forall line, line ∈ open_text content -> forall s, step s line = s) ->
  scan step b content init = init.
Proof.
  intros Hstep. unfold scan. rewrite foldl_concat. apply foldl_id.
  intros line Hin. apply Hstep, (batches_lines b), Hin.
Qed.

Lemma sorted_strs_empty : sorted_strs ∅ = [].
Proof. unfold sorted_strs. rewrite elements_empty. reflexivity. Qed.

Lemma collect_no_data b content :
  (forall line, line ∈ open_text content -> fields line = None) ->
  sorted_strs (scan collect_snps b content ∅) = [].
Proof.
  intros Hno. rewrite scan_no_data; [apply sorted_strs_empty|].
  intros line Hin s. unfold collect_snps. rewrite (Hno line Hin). reflexivity.
Qed.

Lemma slice_to_nil {A} t : slice_to t (@nil A) = [].
Proof. unfold slice_to. destruct (0 <=? t)%Z; apply take_nil. Qed.

Lemma np_argsort_nil : np_argsort [] = [].
Proof. apply Permutation_nil_r, (np_argsort_perm []). Qed.

Lemma np_random_zero g : (np_random 0 g).1 = [].
Proof. apply length_zero_iff_nil, np_random_length. Qed.

(** Without variants the three stages select nothing. *)
Lemma apply_structured_masking_empty cfg m1 m2 w :
  exists r, RandomMasking.apply_structured_masking cfg [] [[]; m1; m2] w = (r, w)
            /\ forall x, r = Ok x -> x = ∅.
Proof.
  unfold RandomMasking.apply_structured_masking. cbn [length].
  destruct (int_scaled 0 (RandomMasking.missing_rate cfg)) as [t|e].
  - run_step. cbn [index lookup list_lookup]. run_step.
    rewrite np_argsort_nil, slice_to_nil. run_step.
    cbn [RandomMasking.take_at]. run_step. run_step.
    cbn [for_each]. run_step. rewrite size_empty.
    destruct (Z.ltb _ _).
    + cbn [seq filter list_filter]. eexists. split; [reflexivity|].
      intros x Hx. injection Hx as <-. reflexivity.
    + eexists. split; [reflexivity|]. intros x Hx. injection Hx as <-. reflexivity.
  - run_step. eexists. split; [reflexivity|]. intros x Hx. discriminate.
Qed.

Lemma truediv_zero a : truediv a (Z.of_nat 0) = Raise ZeroDivisionError.
Proof. reflexivity. Qed.

(** The random strategy on a file without a data line: the masking rate
    of line 139 divides by the number of variants, which is zero. *)
Lemma random_raises_no_data cfg b content w :
  (forall line, line ∈ open_text content -> fields line = None) ->
  exists e w', RandomMasking.create_mask_from_ld cfg content b w = (Raise e, w')
               /\ w_disk w' = w_disk w.
Proof.
  intros Hno. unfold RandomMasking.create_mask_from_ld.
  rewrite (collect_no_data b content Hno).
  unfold RandomMasking.generate_random_masks.
  destruct (seed_ok (RandomMasking.seed_ cfg)) eqn:Hseed.
  2:{ rewrite ?bind_assoc, bind_seed_refused by exact Hseed.
      eexists _, _. split; reflexivity. }
  rewrite ?bind_assoc, bind_seed by exact Hseed.
  do 4 run_step.
  cbn [w_rng w_disk length]. rewrite np_random_zero.
  match goal with |- context [bind _ _ ?w0] => set (w1 := w0) end.
  destruct (apply_structured_masking_empty cfg
              (np_random 0 (np_random 0 (np_seed (RandomMasking.seed_ cfg))).2).1
              (np_random 0 (np_random 0 (np_random 0 (np_seed (RandomMasking.seed_ cfg))).2).2).1
              w1) as (r & Hrun & Hr).
  destruct r as [masked|e].
  - rewrite (bind_ok _ _ _ _ _ Hrun). rewrite (Hr masked eq_refl).
    unfold RandomMasking.quantify_masking_strength.
    cbn [RandomMasking.parse_positions]. rewrite elements_empty.
    cbn [RandomMasking.take_at length Nat.ltb Nat.leb]. run_step.
    rewrite truediv_zero. run_step.
    eexists _, _. split; reflexivity.
  - rewrite (bind_raise _ _ _ _ _ Hrun). eexists _, _. split; reflexivity.
Qed.

Lemma edge_of_no_data (cfg : KNearest.config) line :
  fields line = None -> KNearest.edge_of cfg line = None.
Proof. intros Hf. unfold KNearest.edge_of. rewrite Hf. reflexivity. Qed.

Lemma np_choice_nil {A} (k : Z) w :
  exists r w', np_choice (@nil A) k w = (r, w') /\ w_disk w' = w_disk w
               /\ (forall x, r = Ok x -> x = [] /\ k = 0%Z).
Proof.
  unfold np_choice. cbn [length].
  destruct (k <? 0)%Z eqn:Hneg.
  - eexists _, _. split; [reflexivity|]. split; [reflexivity|]. intros x Hx. discriminate.
  - destruct (Z.of_nat 0 <? k)%Z eqn:Hpos.
    + eexists _, _. split; [reflexivity|]. split; [reflexivity|]. intros x Hx. discriminate.
    + run_step. unfold ret. eexists _, _. split; [reflexivity|]. split; [reflexivity|].
      intros x Hx. injection Hx as <-. apply Z.ltb_ge in Hneg, Hpos.
      assert (k = 0%Z) as -> by lia.
      split; [|reflexivity].
      assert (Hlen : (np_choice_idx 0 (Z.to_nat 0) (w_rng w)).1 = []).
      { apply length_zero_iff_nil. apply np_choice_idx_length. simpl. lia. }
      rewrite Hlen. reflexivity.
Qed.

(** The k-nearest strategy on a file without a retained line: the empty
    table is written, then the masking rate of line 111 divides by zero. *)
Lemma knearest_raises_no_data cfg b content w :
  (forall line, line ∈ open_text content -> KNearest.edge_of cfg line = None) ->
  exists e w', KNearest.create_mask_from_ld cfg content b w = (Raise e, w').
Proof.
  intros Hno. unfold KNearest.create_mask_from_ld, KNearest.build.
  rewrite scan_no_data
    by (intros line Hin s; unfold KNearest.add_line; rewrite (Hno line Hin); reflexivity).
  rewrite sorted_strs_empty. cbn [length].
  destruct (int_scaled 0 (KNearest.missing_rate cfg)) as [t|e].
  - do 2 run_step.
    match goal with |- context [bind _ _ ?w0] => set (w1 := w0) end.
    destruct (np_choice_nil (A := string) t w1) as (r & w2 & Hrun & _ & Hr).
    destruct r as [seeds|e].
    + rewrite (bind_ok _ _ _ _ _ Hrun). destruct (Hr seeds eq_refl) as [-> _].
      cbn [for_each]. run_step. rewrite pl_DataFrame_empty. do 2 run_step.
      unfold KNearest.mask_seeds. cbn [foldl]. rewrite size_empty, truediv_zero.
      run_step. eexists _, _. reflexivity.
    + rewrite (bind_raise _ _ _ _ _ Hrun). eexists _, _. reflexivity.
  - run_step. eexists _, _. reflexivity.
Qed.

Lemma maf_add_batch_no_data cfg st lines :
  (forall line, line ∈ lines ->
     forall s, MAFCluster.add_line cfg s line = s) ->
  MAFCluster.add_batch cfg st lines = st.
Proof.
  intros Hno. unfold MAFCluster.add_batch. rewrite foldl_id by exact Hno.
  destruct st. reflexivity.
Qed.

(** The MAF+cluster strategy on a file without a retained line: with no
    cluster to choose from, one cluster is still requested. *)
Lemma mafcluster_raises_no_data cfg b content w :
  (forall line, line ∈ open_text content -> fields line = None) ->
  exists e w', MAFCluster.create_mask_from_ld cfg content b w = (Raise e, w').
Proof.
  intros Hno. unfold MAFCluster.create_mask_from_ld.
  assert (Hline : forall line, line ∈ concat (batches b content) ->
                    forall s, MAFCluster.add_line cfg s line = s).
  { intros line Hin s. apply batches_lines in Hin.
    unfold MAFCluster.add_line. rewrite (Hno line Hin). reflexivity. }
  rewrite foldl_id.
  2:{ intros lines Hin s. apply maf_add_batch_no_data.
      intros line Hl. apply Hline. eapply elem_of_concat; eassumption. }
  cbn [concat]. rewrite sorted_strs_empty.
  destruct (simulate_maf_runs [] w) as (maf & w1 & Hmaf & _ & _ & _).
  rewrite (bind_ok _ _ _ _ _ Hmaf).
  unfold MAFCluster.create_ld_clusters, MAFCluster.distance_matrix.
  cbn [length imap foldl fmap list_fmap for_each MAFCluster.eye seq].
  do 2 run_step. cbn [fmap list_fmap].
  destruct (fit_predict (2 `max` (Z.of_nat 0 / 10)) []) as [labels|e] eqn:Hfit.
  - apply fit_predict_length in Hfit. apply length_zero_iff_nil in Hfit. subst labels.
    run_step. cbn [imap for_each]. do 2 run_step. cbn [filter list_filter imap for_each].
    run_step. cbn [length].
    destruct (fint _) as [n|e].
    + do 2 run_step. cbn [fmap list_fmap length].
      destruct (int_scaled 0 (MAFCluster.missing_rate cfg)) as [sc|e].
      * do 2 run_step. unfold np_choice. cbn [seq length].
        destruct (1 `max` sc <? 0)%Z eqn:Hneg; [eexists _, _; reflexivity|].
        destruct (Z.of_nat 0 <? 1 `max` sc)%Z eqn:Hpos; [eexists _, _; reflexivity|].
        apply Z.ltb_ge in Hpos. lia.
      * run_step. eexists _, _. reflexivity.
    + run_step. eexists _, _. reflexivity.
  - run_step. eexists _, _. reflexivity.
Qed.

(** C7, as the code has it.  On a file without a data line the random,
    the k-nearest and the MAF+cluster strategies do not complete: each of
    them raises, the random one before it writes anything. *)
Theorem c7_no_data_raises (content : string) (batch_size : nat) (w : world) :
  (forall line, line ∈ open_text content -> fields line = None) ->
  (forall cfg, exists e w',
      RandomMasking.create_mask_from_ld cfg content batch_size w = (Raise e, w')
      /\ w_disk w' = w_disk w)
  /\ (forall cfg, exists e w',
      KNearest.create_mask_from_ld cfg content batch_size w = (Raise e, w'))
  /\ (forall cfg, exists e w',
      MAFCluster.create_mask_from_ld cfg content batch_size w = (Raise e, w')).
Proof.
  intros Hno. split; [|split]; intros cfg.
  - apply random_raises_no_data, Hno.
  - apply knearest_raises_no_data. intros line Hin.
    apply edge_of_no_data, Hno, Hin.
  - apply mafcluster_raises_no_data, Hno.
Qed.

End EmptyInput.

(** ** The distance matrix *)

Section DistanceMatrix.
Context `{NumPy} `{!Sklearn}.
Import MAFCluster.


Lemma add_line_rows cfg st line :
  (add_line cfg st line).1 = st.1 ++ option_list (retained_row cfg line).
Proof.
  unfold add_line, retained_row. destruct (fields line) as [r|]; simpl.
  - destruct (float_of_str (R2 r)) as [v|]; simpl.
    + destruct (fge v (r2_threshold cfg)); simpl; [reflexivity|].
      rewrite app_nil_r. reflexivity.
    + rewrite app_nil_r. reflexivity.
  - rewrite app_nil_r. reflexivity.
Qed.

Lemma foldl_add_line_rows cfg lines st :
  (foldl (add_line cfg) st lines).1 = st.1 ++ omap (retained_row cfg) lines.
Proof.
  revert st. induction lines as [|line lines IH]; intros st; simpl.
  - rewrite app_nil_r. reflexivity.
  - rewrite IH, add_line_rows, <- app_assoc. f_equal.
    destruct (retained_row cfg line); reflexivity.
Qed.

(** A batch adds one row to the LD frame for each line it retains,
    whichever way its frame is read. *)
Lemma add_batch_rows cfg st lines :
  length (concat (add_batch cfg st lines).1)
  = length (concat st.1) + length (omap (retained_row cfg) lines).
Proof.
  unfold add_batch.
  pose proof (foldl_add_line_rows cfg lines ([], st.2)) as Hrows.
  destruct (foldl (add_line cfg) ([], st.2) lines) as [batch_data u].
  simpl in Hrows. rewrite <- Hrows.
  destruct batch_data as [|r rs].
  - simpl. lia.
  - cbn [fst]. rewrite concat_app, length_app. cbn [concat].
    rewrite app_nil_r, batch_frame_length. reflexivity.
Qed.

Lemma foldl_add_batch_rows cfg bs st :
  length (concat (foldl (add_batch cfg) st bs).1)
  = length (concat st.1) + length (omap (retained_row cfg) (concat bs)).
Proof.
  revert st. induction bs as [|lines bs IH]; intros st; simpl.
  - lia.
  - rewrite IH, add_batch_rows, omap_app, length_app. lia.
Qed.

Lemma distance_matrix_raises r rest snp_positions w :
  distance_matrix (r :: rest) snp_positions w = (Raise ValueError, w).
Proof. reflexivity. Qed.

(** C6, as the code has it.  The loop that fills the LD matrix unpacks
    each row — a dictionary with seven keys — into two targets, so the
    first row raises [ValueError]: with at least one row in the LD frame no
    distance matrix is built and no cluster is formed, and [createMask]
    raises on every file that has a retained line. *)
Theorem c6_matrix_never_built (cfg : config) (content : string)
  (batch_size : nat) (w : world) (line : string) (r : ld_row) (v : float) :
  0 < batch_size ->
  line ∈ open_text content ->
  fields line = Some r ->
  float_of_str (R2 r) = Some v ->
  fge v (r2_threshold cfg) = true ->
  (forall rest snp_positions w0,
      distance_matrix (r :: rest) snp_positions w0 = (Raise ValueError, w0)
      /\ create_ld_clusters cfg (r :: rest) snp_positions w0 = (Raise ValueError, w0))
  /\ exists w',
      create_mask_from_ld cfg content batch_size w = (Raise ValueError, w')
      /\ w_disk w' = w_disk w.
Proof.
  intros Hb Hline Hf Hv Hge. split.
  - intros rest snp_positions w0. split; reflexivity.
  - unfold create_mask_from_ld.
    pose proof (foldl_add_batch_rows cfg (batches batch_size content) ([], ∅)) as Hrows.
    destruct (foldl (add_batch cfg) ([], ∅) (batches batch_size content))
      as [ld_chunks unique_snps].
    simpl in Hrows. rewrite batches_concat in Hrows by exact Hb.
    assert (Hin : r ∈ omap (retained_row cfg) (open_text content)).
    { apply list_elem_of_omap. exists line. split; [exact Hline|].
      unfold retained_row. rewrite Hf, Hv, Hge. reflexivity. }
    destruct (omap (retained_row cfg) (open_text content)) as [|x xs];
      [apply elem_of_nil in Hin; contradiction|].
    destruct (concat ld_chunks) as [|r0 rest]; [discriminate|].
    destruct (simulate_maf_runs (sorted_strs unique_snps) w) as (maf & w1 & Hmaf & _ & _ & Hd).
    rewrite (bind_ok _ _ _ _ _ Hmaf).
    exists w1. split; [reflexivity|exact Hd].
Qed.

End DistanceMatrix.

(** ** The three stages of the random strategy *)


Section RandomFacts.
Context `{NumPy}.
Import RandomMasking.

(** The loop invariant may follow the position in the list. *)
Lemma for_each_inv_at {A S} (xs : list A) (body : S -> A -> M S) :
  forall (I : nat -> S -> world -> Prop),
  (forall i s x w, xs !! i = Some x -> I i s w ->
     exists s' w', body s x w = (Ok s', w') /\ I (Datatypes.S i) s' w') ->
  forall s w, I 0 s w ->
    exists s' w', for_each xs body s w = (Ok s', w') /\ I (length xs) s' w'.
Proof.
  induction xs as [|x xs IH]; intros I Hbody s w Hs; simpl.
  - exists s, w. split; [reflexivity|exact Hs].
  - destruct (Hbody 0 s x w eq_refl Hs) as (s1 & w1 & Hrun & Hs1).
    rewrite (bind_ok _ _ _ _ _ Hrun).
    apply (IH (fun i => I (Datatypes.S i))); [|exact Hs1].
    intros i s0 y w0 Hy Hi. apply (Hbody (Datatypes.S i)); assumption.
Qed.

Lemma take_at_ok {A} (a : list A) (idx : list nat) :
  Forall (fun i => i < length a) idx ->
  exists xs, take_at a idx = Ok xs /\ Forall2 (fun i x => a !! i = Some x) idx xs.
Proof.
  induction 1 as [|i idx Hi Hall (xs & Hxs & HF)]; simpl.
  - exists []. split; [reflexivity|constructor].
  - destruct (lookup_lt_is_Some_2 a i Hi) as [x Hx].
    unfold index. rewrite Hx, Hxs. exists (x :: xs). split; [reflexivity|].
    constructor; assumption.
Qed.

Lemma where_first_NoDup (l : list nat) pos x :
  NoDup l -> l !! pos = Some x -> where_first l x = Ok pos.
Proof.
  intros Hnd Hpos. unfold where_first.
  destruct (list_find (fun y => y = x) l) as [[p y]|] eqn:Hfind.
  - apply list_find_Some in Hfind as (Hp & -> & _).
    rewrite (NoDup_lookup l p pos x Hnd Hp Hpos). reflexivity.
  - apply list_find_None in Hfind. rewrite Forall_forall in Hfind.
    exfalso. apply (Hfind x); [|reflexivity].
    eapply list_elem_of_lookup_2. exact Hpos.
Qed.

(** Stage 2 (lines 49-51) keeps the provisional indices that pass, and
    never raises. *)
Lemma stage2_runs (primary : list nat) (secondary_mask sel : list float) w :
  NoDup primary ->
  Forall2 (fun i x => secondary_mask !! i = Some x) primary sel ->
  for_each primary (stage2_step primary sel) ∅ w
  = (Ok (list_to_set (filter (fun i => passes secondary_mask i = true) primary)), w).
Proof.
  intros Hnd HF.
  destruct (for_each_inv_at primary (stage2_step primary sel)
              (fun i (s : gset nat) w' =>
                 s = list_to_set (filter (fun i => passes secondary_mask i = true)
                                         (take i primary))
                 /\ w' = w)) with (s := (∅ : gset nat)) (w := w)
    as (s' & w' & Hrun & -> & ->).
  - intros i s x w0 Hx (-> & ->).
    unfold stage2_step. rewrite (where_first_NoDup primary i x Hnd Hx). run_step.
    destruct (Forall2_lookup_l _ _ _ _ _ HF Hx) as (v & Hv & Hsv).
    unfold index. rewrite Hv. run_step.
    rewrite (take_S_r primary i x Hx), filter_app, list_to_set_app_L.
    assert (Hpass : passes secondary_mask x = fgt v (flit 3 (-1))).
    { unfold passes. rewrite Hsv. reflexivity. }
    destruct (fgt v (flit 3 (-1))); eexists _, _; (split; [reflexivity|]); split;
      try reflexivity.
    + rewrite filter_cons_True by exact Hpass. rewrite filter_nil. simpl.
      rewrite union_empty_r_L. reflexivity.
    + rewrite filter_cons_False by (rewrite Hpass; discriminate). rewrite filter_nil.
      simpl. rewrite union_empty_r_L. reflexivity.
  - split; reflexivity.
  - rewrite Hrun, firstn_all. reflexivity.
Qed.

Lemma argsort_facts (m0 : list float) :
  length (np_argsort m0) = length m0 /\ NoDup (np_argsort m0)
  /\ forall i, i ∈ np_argsort m0 <-> i < length m0.
Proof.
  pose proof (np_argsort_perm m0) as Hperm. split; [|split].
  - rewrite Hperm. apply length_seq.
  - rewrite Hperm. apply NoDup_seq.
  - intros i. rewrite Hperm, elem_of_seq. lia.
Qed.

(** How many indices are left once a set has been selected. *)
Lemma pool_length (s : gset nat) n :
  (forall i, i ∈ s -> i < n) ->
  length (filter (fun i => i ∉ s) (seq 0 n)) = n - size s.
Proof.
  intros Hs.
  pose proof (filter_app_complement (fun i => i ∈ s) (seq 0 n)) as Hperm.
  apply Permutation_length in Hperm. rewrite length_app, length_seq in Hperm.
  assert (Hin : filter (fun i => i ∈ s) (seq 0 n) ≡ₚ elements s).
  { apply NoDup_Permutation.
    - apply NoDup_filter, NoDup_seq.
    - apply NoDup_elements.
    - intros i. rewrite list_elem_of_filter, elem_of_seq, elem_of_elements.
      split; [tauto|]. intros Hi. split; [exact Hi|]. specialize (Hs i Hi). lia. }
  apply Permutation_length in Hin. unfold size, set_size. simpl. lia.
Qed.

Lemma omap_lookup_NoDup {A} (a : list A) (idx : list nat) :
  NoDup a -> NoDup idx -> Forall (fun i => i < length a) idx ->
  NoDup (omap (fun i => a !! i) idx)
  /\ length (omap (fun i => a !! i) idx) = length idx
  /\ forall x, x ∈ omap (fun i => a !! i) idx -> x ∈ a.
Proof.
  intros Ha Hidx Hall. split; [|split].
  - induction Hall as [|i idx Hi Hall IH]; simpl; [constructor|].
    apply NoDup_cons in Hidx as [Hni Hidx].
    destruct (lookup_lt_is_Some_2 a i Hi) as [x Hx]. rewrite Hx.
    apply NoDup_cons. split; [|apply IH, Hidx].
    intros Hin. apply list_elem_of_omap in Hin as (j & Hj & Hjx).
    apply Hni. rewrite (NoDup_lookup a i j x Ha Hx Hjx). exact Hj.
  - induction Hall as [|i idx Hi Hall IH]; simpl; [reflexivity|].
    apply NoDup_cons in Hidx as [Hni Hidx].
    destruct (lookup_lt_is_Some_2 a i Hi) as [x Hx]. rewrite Hx. simpl.
    f_equal. apply IH, Hidx.
  - intros x Hin. apply list_elem_of_omap in Hin as (j & Hj & Hjx).
    eapply list_elem_of_lookup_2. exact Hjx.
Qed.

(** A sample that NumPy can draw: as many distinct elements of the
    population as were asked for. *)
Lemma np_choice_runs {A} (a : list A) (k : Z) w :
  NoDup a -> (0 <= k <= Z.of_nat (length a))%Z ->
  exists xs w',
    np_choice a k w = (Ok xs, w') /\ w_disk w' = w_disk w
    /\ NoDup xs /\ length xs = Z.to_nat k /\ forall x, x ∈ xs -> x ∈ a.
Proof.
  intros Ha Hk. unfold np_choice.
  destruct (k <? 0)%Z eqn:Hneg; [apply Z.ltb_lt in Hneg; lia|].
  destruct (Z.of_nat (length a) <? k)%Z eqn:Hbig; [apply Z.ltb_lt in Hbig; lia|].
  run_step. unfold ret.
  destruct (omap_lookup_NoDup a (np_choice_idx (length a) (Z.to_nat k) (w_rng w)).1 Ha)
    as (Hnd & Hlen & Hsub).
  - apply np_choice_idx_NoDup.
  - apply Forall_forall. intros i Hi. eapply np_choice_idx_bound. exact Hi.
  - eexists _, _. split; [reflexivity|]. split; [reflexivity|].
    split; [exact Hnd|]. split; [|exact Hsub].
    rewrite Hlen. apply np_choice_idx_length. lia.
Qed.

End RandomFacts.

Section RandomClaims.
Context `{NumPy}.
Import RandomMasking.

Lemma primary_lowest (m0 : list float) (k : nat) i j x y :
  i ∈ take k (np_argsort m0) -> j < length m0 -> j ∉ take k (np_argsort m0) ->
  m0 !! i = Some x -> m0 !! j = Some y -> flt y x = false.
Proof.
  intros Hi Hj Hnj Hx Hy.
  apply elem_of_take in Hi as (p & Hp & Hpk).
  destruct (argsort_facts m0) as (_ & _ & Hmem).
  apply Hmem in Hj. apply list_elem_of_lookup in Hj as (q & Hq).
  assert (Hqk : k <= q).
  { destruct (Nat.le_gt_cases k q) as [Hle|Hlt]; [exact Hle|].
    exfalso. apply Hnj. apply elem_of_take. exists q. split; [exact Hq|exact Hlt]. }
  eapply (np_argsort_sorted m0 p q); [lia|eassumption..].
Qed.

(** C5 (random multi-stage).  With [n] variants, two score arrays of
    length [n] and a target [t = int(n * missing_rate)] between 0 and [n]:
    stage 1 takes the first [t] indices of the ascending argsort of the
    stage-1 scores, so no index left out has a lower score than an index
    taken; stage 2 keeps those whose stage-2 score exceeds 0.3; stage 3
    asks NumPy for [min(t - kept, pool)] further indices, without
    replacement, from the pool of indices not kept, unless nothing is
    missing; the run never raises and the masked set has exactly [t]
    elements. *)
Theorem c5_random_multistage (cfg : config) (snp_list : list string)
  (m0 m1 m2 : list float) (t : Z) (w : world) :
  length m0 = length snp_list ->
  length m1 = length snp_list ->
  int_scaled (length snp_list) (missing_rate cfg) = Ok t ->
  (0 <= t <= Z.of_nat (length snp_list))%Z ->
  let n := length snp_list in
  let primary := take (Z.to_nat t) (np_argsort m0) in
  let kept := filter (fun i => passes m1 i = true) primary in
  let pool := filter (fun i => i ∉ (list_to_set kept : gset nat)) (seq 0 n) in
  (length primary = Z.to_nat t /\ NoDup primary
   /\ forall i j x y, i ∈ primary -> j < n -> j ∉ primary ->
        m0 !! i = Some x -> m0 !! j = Some y -> flt y x = false)
  /\ exists extra w',
      apply_structured_masking cfg snp_list [m0; m1; m2] w
      = (Ok (list_to_set kept ∪ list_to_set extra), w')
      /\ NoDup extra
      /\ length extra = Z.to_nat t - length kept
      /\ (forall i, i ∈ extra -> i ∈ pool)
      /\ (extra = [] /\ w' = w /\ length kept = Z.to_nat t
          \/ np_choice pool (Z.min (t - Z.of_nat (length kept))
                                   (Z.of_nat (length pool))) w = (Ok extra, w'))
      /\ size (list_to_set kept ∪ list_to_set extra : gset nat) = Z.to_nat t.
Proof.
  intros Hm0 Hm1 Hint Ht n primary kept pool. subst n.
  destruct (argsort_facts m0) as (Hlen & Hnd & Hmem).
  assert (Hplen : length primary = Z.to_nat t).
  { subst primary. rewrite length_take. lia. }
  assert (Hpnd : NoDup primary).
  { subst primary. eapply sublist_NoDup; [exact Hnd|apply sublist_take]. }
  assert (Hpb : Forall (fun i => i < length m1) primary).
  { apply Forall_forall. intros i Hi. rewrite Hm1, <- Hm0. apply Hmem.
    subst primary. apply elem_of_take in Hi as (p & Hp & _).
    eapply list_elem_of_lookup_2. exact Hp. }
  split.
  { split; [exact Hplen|]. split; [exact Hpnd|].
    intros i j x y Hi Hj Hnj Hx Hy. rewrite <- Hm0 in Hj.
    eapply primary_lowest; eassumption. }
  assert (Hknd : NoDup kept) by (apply NoDup_filter, Hpnd).
  assert (Hklen : length kept <= Z.to_nat t).
  { rewrite <- Hplen. apply length_filter. }
  assert (Hkb : forall i, i ∈ (list_to_set kept : gset nat) -> i < length snp_list).
  { intros i Hi. apply elem_of_list_to_set in Hi.
    apply list_elem_of_filter in Hi as [_ Hi].
    rewrite Forall_forall in Hpb. specialize (Hpb i Hi). lia. }
  assert (Hsize : size (list_to_set kept : gset nat) = length kept)
    by (apply size_list_to_set, Hknd).
  assert (Hpool : length pool = length snp_list - length kept).
  { subst pool. rewrite pool_length by exact Hkb. rewrite Hsize. reflexivity. }
  unfold apply_structured_masking. rewrite Hint. run_step.
  cbn [index lookup list_lookup]. run_step.
  rewrite slice_to_nonneg by lia. rewrite Hlen, Hm0.
  replace (Z.to_nat t `min` length snp_list) with (Z.to_nat t) by lia.
  fold primary. run_step.
  destruct (take_at_ok m1 primary Hpb) as (sel & Hsel & HF).
  rewrite Hsel. do 2 run_step.
  rewrite (bind_ok _ _ _ _ _ (stage2_runs primary m1 sel w Hpnd HF)).
  fold kept. rewrite Hsize.
  destruct (0 <? t - Z.of_nat (length kept))%Z eqn:Hrem.
  - apply Z.ltb_lt in Hrem. fold pool.
    assert (Hpne : pool <> []).
    { intros Heq. rewrite Heq in Hpool. simpl in Hpool. lia. }
    assert (Hmatch : forall (X : Type) (a b : X),
               match pool with [] => a | _ :: _ => b end = b).
    { intros X a b. destruct pool; [contradiction|reflexivity]. }
    rewrite Hmatch.
    destruct (np_choice_runs pool
                (Z.min (t - Z.of_nat (length kept)) (Z.of_nat (length pool))) w)
      as (extra & w' & Hrun & _ & Hend & Helen & Hesub).
    { subst pool. apply NoDup_filter, NoDup_seq. }
    { lia. }
    rewrite (bind_ok _ _ _ _ _ Hrun). unfold ret.
    exists extra, w'. split; [reflexivity|]. split; [exact Hend|].
    assert (Hel : length extra = Z.to_nat t - length kept) by lia.
    split; [exact Hel|]. split; [exact Hesub|]. split; [right; exact Hrun|].
    rewrite size_union.
    + rewrite Hsize, size_list_to_set by exact Hend. lia.
    + intros i Hi1 Hi2. apply elem_of_list_to_set in Hi2.
      apply Hesub in Hi2.
      apply list_elem_of_filter in Hi2 as [Hni _]. apply Hni, Hi1.
  - apply Z.ltb_ge in Hrem. unfold ret.
    exists [], w. rewrite list_to_set_nil, union_empty_r_L.
    split; [reflexivity|]. split; [constructor|]. split; [simpl; lia|].
    split; [intros i Hi; apply elem_of_nil in Hi; contradiction|].
    split; [left; repeat split; lia|]. rewrite Hsize. lia.
Qed.

End RandomClaims.

(** ** The rows of the mask tables *)


Section Rows.
Context `{NumPy}.

Lemma collect_snps_elem u line x :
  x ∈ collect_snps u line <->
  x ∈ u \/ exists r, fields line = Some r /\ (x = snp_a r \/ x = snp_b r).
Proof.
  unfold collect_snps. destruct (fields line) as [r|].
  - rewrite !elem_of_union, !elem_of_singleton. split.
    + intros [Hx|[->| ->]]; [left; exact Hx| |]; right; exists r; tauto.
    + intros [Hx|(r' & Heq & Hx)]; [tauto|]. injection Heq as <-. tauto.
  - split; [tauto|]. intros [Hx|(r & Heq & _)]; [exact Hx|discriminate].
Qed.

Lemma foldl_collect_snps_elem lines u x :
  x ∈ foldl collect_snps u lines <->
  x ∈ u \/ exists line r, line ∈ lines /\ fields line = Some r
                          /\ (x = snp_a r \/ x = snp_b r).
Proof.
  revert u. induction lines as [|line lines IH]; intros u; simpl.
  - split; [tauto|]. intros [Hx|(line & r & Hin & _)]; [exact Hx|].
    apply elem_of_nil in Hin. contradiction.
  - rewrite IH, collect_snps_elem. split.
    + intros [[Hx|(r & Hf & Hx)]|(l & r & Hin & Hf & Hx)].
      * tauto.
      * right. exists line, r. split; [left|tauto].
      * right. exists l, r. split; [right; exact Hin|tauto].
    + intros [Hx|(l & r & Hin & Hf & Hx)]; [tauto|].
      apply elem_of_cons in Hin as [->|Hin].
      * left. right. exists r. tauto.
      * right. exists l, r. tauto.
Qed.

Lemma string_le_lt (a b : string) :
  String.le a b -> a <> b -> String.ltb a b = true.
Proof.
  unfold String.le, String.leb, String.ltb. intros Hle Hne.
  destruct (String.compare a b) eqn:Hc.
  - apply String.compare_eq_iff in Hc. contradiction.
  - reflexivity.
  - contradiction.
Qed.

(** [sorted(list(s))] lists every element of the set once, in strictly
    ascending order. *)
Lemma sorted_strs_spec (s : gset string) :
  StronglySorted (fun a b => String.ltb a b = true) (sorted_strs s)
  /\ forall x, x ∈ sorted_strs s <-> x ∈ s.
Proof.
  unfold sorted_strs. split.
  - assert (Hnd : NoDup (merge_sort String.le (elements s))).
    { rewrite merge_sort_Permutation. apply NoDup_elements. }
    pose proof (StronglySorted_merge_sort String.le (elements s)) as Hs.
    induction Hs as [|a l Hs IH Hall]; [constructor|].
    apply NoDup_cons in Hnd as [Hna Hnd].
    constructor; [apply IH, Hnd|].
    rewrite Forall_forall in Hall. apply Forall_forall. intros b Hb.
    apply string_le_lt; [apply Hall, Hb|]. intros ->. contradiction.
  - intros x. rewrite merge_sort_Permutation. apply elem_of_elements.
Qed.

(** A loop that appends one row per element, with the element in the
    third cell. *)
Lemma for_each_rows {A} (xs : list A) (f : A -> string)
  (body : list (list cell) -> A -> M (list (list cell))) :
  (forall acc x w acc' w',
      body acc x w = (Ok acc', w') ->
      exists row, acc' = acc ++ [row] /\ row !! 2 = Some (CStr (f x))) ->
  forall acc w out w',
    for_each xs body acc w = (Ok out, w') ->
    (fun row => row !! 2) <$> out
    = ((fun row => row !! 2) <$> acc) ++ as_column (f <$> xs).
Proof.
  intros Hbody. induction xs as [|x xs IH]; intros acc w out w'; simpl.
  - unfold ret. intros Heq. injection Heq as <- <-. rewrite app_nil_r. reflexivity.
  - unfold bind at 1. destruct (body acc x w) as [[acc1|e] w1] eqn:Hb; [|discriminate].
    intros Hrun. destruct (Hbody _ _ _ _ _ Hb) as (row & -> & Hrow).
    rewrite (IH _ _ _ _ Hrun), fmap_app, <- app_assoc. simpl. rewrite Hrow.
    reflexivity.
Qed.

Lemma lift_bind_ok {A B} (r : result A) (k : A -> M B) w b w' :
  bind (lift r) k w = (Ok b, w') -> exists a, r = Ok a /\ k a w = (Ok b, w').
Proof.
  unfold bind, lift. destruct r as [a|e]; [|discriminate]. intros Hk. exists a. tauto.
Qed.

Lemma bind_inv_ok {A B} (m : M A) (k : A -> M B) w b w' :
  bind m k w = (Ok b, w') -> exists a w1, m w = (Ok a, w1) /\ k a w1 = (Ok b, w').
Proof.
  unfold bind. destruct (m w) as [[a|e] w1]; [|discriminate].
  intros Hk. exists a, w1. tauto.
Qed.

Lemma columnwise_row masked acc snp w acc' w' :
  Columnwise.mask_row masked acc snp w = (Ok acc', w') ->
  exists row, acc' = acc ++ [row] /\ row !! 2 = Some (CStr snp).
Proof.
  unfold Columnwise.mask_row. intros Hrun.
  apply lift_bind_ok in Hrun as (c0 & _ & Hrun).
  apply lift_bind_ok in Hrun as (c1 & _ & Hrun).
  unfold ret in Hrun. injection Hrun as <- <-. eexists. split; reflexivity.
Qed.

Lemma knearest_row g masked seeds acc snp w acc' w' :
  KNearest.mask_row g masked seeds acc snp w = (Ok acc', w') ->
  exists row, acc' = acc ++ [row] /\ row !! 2 = Some (CStr snp).
Proof.
  unfold KNearest.mask_row. intros Hrun.
  apply lift_bind_ok in Hrun as (c0 & _ & Hrun).
  apply lift_bind_ok in Hrun as (c1 & _ & Hrun).
  unfold ret in Hrun. injection Hrun as <- <-. eexists. split; reflexivity.
Qed.

Lemma random_row mask_sets masked qms acc (ix : nat * string) w acc' w' :
  RandomMasking.mask_row mask_sets masked qms acc ix w = (Ok acc', w') ->
  exists row, acc' = acc ++ [row] /\ row !! 2 = Some (CStr ix.2).
Proof.
  unfold RandomMasking.mask_row. destruct ix as [i snp]. intros Hrun.
  apply lift_bind_ok in Hrun as (s1 & _ & Hrun).
  apply lift_bind_ok in Hrun as (s2 & _ & Hrun).
  apply lift_bind_ok in Hrun as (s3 & _ & Hrun).
  apply lift_bind_ok in Hrun as (c0 & _ & Hrun).
  apply lift_bind_ok in Hrun as (c1 & _ & Hrun).
  unfold ret in Hrun. injection Hrun as <- <-. eexists. split; reflexivity.
Qed.

Lemma for_each_rows_length {A} (xs : list A) (f : A -> string)
  (body : list (list cell) -> A -> M (list (list cell))) :
  (forall acc x w acc' w',
      body acc x w = (Ok acc', w') ->
      exists row, acc' = acc ++ [row] /\ row !! 2 = Some (CStr (f x))) ->
  forall w out w',
    for_each xs body [] w = (Ok out, w') -> length out = length xs.
Proof.
  intros Hbody w out w' Hrun.
  apply (for_each_rows xs f body Hbody) in Hrun.
  apply (f_equal length) in Hrun. unfold as_column in Hrun.
  simpl in Hrun. rewrite !length_fmap in Hrun. exact Hrun.
Qed.

(** A loop that appends one row per element, each of a given shape. *)
Lemma for_each_shape {A} (P : list cell -> Prop) (xs : list A)
  (body : list (list cell) -> A -> M (list (list cell))) :
  (forall acc x w acc' w',
      body acc x w = (Ok acc', w') -> exists row, acc' = acc ++ [row] /\ P row) ->
  forall acc w out w',
    Forall P acc -> for_each xs body acc w = (Ok out, w') -> Forall P out.
Proof.
  intros Hbody. induction xs as [|x xs IH]; intros acc w out w' Hacc; simpl.
  - unfold ret. intros Heq. injection Heq as <- <-. exact Hacc.
  - intros Hrun. apply bind_inv_ok in Hrun as (acc1 & w1 & Hb & Hrun).
    destruct (Hbody _ _ _ _ _ Hb) as (row & -> & Hrow).
    eapply IH; [|exact Hrun]. apply Forall_app. split; [exact Hacc|].
    constructor; [exact Hrow|constructor].
Qed.

Lemma columnwise_row_mixed masked acc snp w acc' w' :
  Columnwise.mask_row masked acc snp w = (Ok acc', w') ->
  exists row, acc' = acc ++ [row] /\ str_then_bool row.
Proof.
  unfold Columnwise.mask_row. intros Hrun.
  apply lift_bind_ok in Hrun as (c0 & _ & Hrun).
  apply lift_bind_ok in Hrun as (c1 & _ & Hrun).
  unfold ret in Hrun. injection Hrun as <- <-. eexists. split; [reflexivity|].
  eexists _, _, _. split; [reflexivity|].
  do 2 apply list_elem_of_further. apply list_elem_of_here.
Qed.

Lemma knearest_row_mixed g masked seeds acc snp w acc' w' :
  KNearest.mask_row g masked seeds acc snp w = (Ok acc', w') ->
  exists row, acc' = acc ++ [row] /\ str_then_bool row.
Proof.
  unfold KNearest.mask_row. intros Hrun.
  apply lift_bind_ok in Hrun as (c0 & _ & Hrun).
  apply lift_bind_ok in Hrun as (c1 & _ & Hrun).
  unfold ret in Hrun. injection Hrun as <- <-. eexists. split; [reflexivity|].
  eexists _, _, _. split; [reflexivity|].
  do 2 apply list_elem_of_further. apply list_elem_of_here.
Qed.

Lemma random_row_mixed mask_sets masked qms acc (ix : nat * string) w acc' w' :
  RandomMasking.mask_row mask_sets masked qms acc ix w = (Ok acc', w') ->
  exists row, acc' = acc ++ [row] /\ str_then_bool row.
Proof.
  unfold RandomMasking.mask_row. destruct ix as [i snp]. intros Hrun.
  apply lift_bind_ok in Hrun as (s1 & _ & Hrun).
  apply lift_bind_ok in Hrun as (s2 & _ & Hrun).
  apply lift_bind_ok in Hrun as (s3 & _ & Hrun).
  apply lift_bind_ok in Hrun as (c0 & _ & Hrun).
  apply lift_bind_ok in Hrun as (c1 & _ & Hrun).
  unfold ret in Hrun. injection Hrun as <- <-. eexists. split; [reflexivity|].
  eexists _, _, _. split; [reflexivity|].
  do 2 apply list_elem_of_further. apply list_elem_of_here.
Qed.

(** The table of a strategy, once built, holds the rows it was given, one
    per element of the loop, and they are not as many as its columns. *)
Lemma mask_table_built {A} (name : string) (names : list string) (xs : list A)
  (body : list (list cell) -> A -> M (list (list cell))) mask_data w w' df :
  (forall acc x w acc' w',
      body acc x w = (Ok acc', w') ->
      exists row, acc' = acc ++ [row] /\ str_then_bool row) ->
  for_each xs body [] w = (Ok mask_data, w') ->
  pl_DataFrame (name :: names) mask_data = Ok df ->
  df = mkDF (name :: names) mask_data
  /\ length mask_data <> length (name :: names).
Proof.
  intros Hbody Hrows Hdf.
  apply (pl_DataFrame_inv (name :: names) mask_data df); [discriminate| |exact Hdf].
  eapply (for_each_shape str_then_bool xs body Hbody); [|exact Hrows]. constructor.
Qed.

Lemma imap_pair_snd {A} (l : list A) (f : nat -> nat) :
  (imap (fun i x => (f i, x)) l).*2 = l.
Proof.
  revert f. induction l as [|x l IH]; intros f; [reflexivity|].
  rewrite imap_cons. simpl. f_equal. apply (IH (fun i => f (S i))).
Qed.

Lemma columnwise_column cfg content b w df w' :
  Columnwise.create_mask_from_ld cfg content b w = (Ok df, w') ->
  snp_id_column df = as_column (sorted_strs (scan collect_snps b content ∅))
  /\ w_disk w' = Some df.
Proof.
  unfold Columnwise.create_mask_from_ld. intros Hrun.
  apply lift_bind_ok in Hrun as (n_mask & _ & Hrun).
  rewrite bind_seed in Hrun by reflexivity.
  apply bind_inv_ok in Hrun as (masked & w1 & _ & Hrun).
  apply bind_inv_ok in Hrun as (mask_data & w2 & Hrows & Hrun).
  apply lift_bind_ok in Hrun as (mask_df & Hdf & Hrun).
  destruct (mask_table_built _ _ _ _ _ _ _ _
              (columnwise_row_mixed masked) Hrows Hdf) as [-> _].
  rewrite bind_write_csv in Hrun. unfold ret in Hrun. injection Hrun as <- <-.
  split; [|reflexivity]. unfold snp_id_column. cbn [rows].
  rewrite (for_each_rows _ (fun s => s) _ (columnwise_row masked) _ _ _ _ Hrows).
  rewrite list_fmap_id. reflexivity.
Qed.

Lemma knearest_column cfg content b w df w' :
  KNearest.create_mask_from_ld cfg content b w = (Ok df, w') ->
  snp_id_column df = as_column (sorted_strs (KNearest.build cfg b content).2)
  /\ w_disk w' = Some df.
Proof.
  unfold KNearest.create_mask_from_ld.
  destruct (KNearest.build cfg b content) as [g u]. intros Hrun.
  apply lift_bind_ok in Hrun as (n_seeds & _ & Hrun).
  rewrite bind_seed in Hrun by reflexivity.
  apply bind_inv_ok in Hrun as (seeds & w1 & _ & Hrun).
  apply bind_inv_ok in Hrun as (mask_data & w2 & Hrows & Hrun).
  apply lift_bind_ok in Hrun as (mask_df & Hdf & Hrun).
  destruct (mask_table_built _ _ _ _ _ _ _ _
              (knearest_row_mixed _ _ _) Hrows Hdf) as [-> _].
  rewrite bind_write_csv in Hrun.
  apply lift_bind_ok in Hrun as (rate & _ & Hrun).
  unfold ret in Hrun. injection Hrun as <- <-.
  split; [|reflexivity]. unfold snp_id_column. cbn [rows].
  rewrite (for_each_rows _ (fun s => s) _ (knearest_row _ _ _) _ _ _ _ Hrows).
  rewrite list_fmap_id. reflexivity.
Qed.

Lemma random_column cfg content b w df w' :
  RandomMasking.create_mask_from_ld cfg content b w = (Ok df, w') ->
  snp_id_column df = as_column (sorted_strs (scan collect_snps b content ∅))
  /\ w_disk w' = Some df.
Proof.
  unfold RandomMasking.create_mask_from_ld. intros Hrun.
  apply bind_inv_ok in Hrun as (mask_sets & w1 & _ & Hrun).
  apply bind_inv_ok in Hrun as (masked & w2 & _ & Hrun).
  apply lift_bind_ok in Hrun as (qms & _ & Hrun).
  apply lift_bind_ok in Hrun as (rate & _ & Hrun).
  apply bind_inv_ok in Hrun as (mask_data & w3 & Hrows & Hrun).
  apply lift_bind_ok in Hrun as (mask_df & Hdf & Hrun).
  destruct (mask_table_built _ _ _ _ _ _ _ _
              (random_row_mixed _ _ _) Hrows Hdf) as [-> _].
  rewrite bind_write_csv in Hrun.
  apply lift_bind_ok in Hrun as (rate' & _ & Hrun).
  unfold ret in Hrun. injection Hrun as <- <-.
  split; [|reflexivity]. unfold snp_id_column. cbn [rows].
  rewrite (for_each_rows _ snd _ (random_row _ _ _) _ _ _ _ Hrows).
  simpl. f_equal. apply (imap_pair_snd _ (fun i => i)).
Qed.

(** C10, as the code has it.  With a positive batch size, whenever the
    column-wise, the random or the k-nearest strategy returns a table, that
    table has been written, and its SNP_ID column lists, once each and in
    strictly ascending code-point order of the key string, the keys of the
    lines the strategy collects: both keys of every data line for the
    column-wise and the random strategy; both keys of every line retained
    by the R2 threshold for the k-nearest strategy. *)
Theorem c10_rows_sorted_unique (content : string) (batch_size : nat)
  (w : world) (df : DataFrame) (w' : world) :
  0 < batch_size ->
  ((forall cfg, Columnwise.create_mask_from_ld cfg content batch_size w = (Ok df, w') ->
      exists ids,
        snp_id_column df = as_column ids /\ w_disk w' = Some df
        /\ StronglySorted (fun a b => String.ltb a b = true) ids
        /\ forall x, x ∈ ids <->
             exists line r, line ∈ open_text content /\ fields line = Some r
                            /\ (x = snp_a r \/ x = snp_b r))
   /\ (forall cfg, RandomMasking.create_mask_from_ld cfg content batch_size w = (Ok df, w') ->
      exists ids,
        snp_id_column df = as_column ids /\ w_disk w' = Some df
        /\ StronglySorted (fun a b => String.ltb a b = true) ids
        /\ forall x, x ∈ ids <->
             exists line r, line ∈ open_text content /\ fields line = Some r
                            /\ (x = snp_a r \/ x = snp_b r))
   /\ (forall cfg, KNearest.create_mask_from_ld cfg content batch_size w = (Ok df, w') ->
      exists ids,
        snp_id_column df = as_column ids /\ w_disk w' = Some df
        /\ StronglySorted (fun a b => String.ltb a b = true) ids
        /\ forall x, x ∈ ids <->
             exists line a b v, line ∈ open_text content
                                /\ KNearest.edge_of cfg line = Some (a, b, v)
                                /\ (x = a \/ x = b))).
Proof.
  intros Hb.
  assert (Hcollect : forall x,
             x ∈ sorted_strs (scan collect_snps batch_size content ∅) <->
             exists line r, line ∈ open_text content /\ fields line = Some r
                            /\ (x = snp_a r \/ x = snp_b r)).
  { intros x. rewrite (proj2 (sorted_strs_spec _)), scan_foldl by exact Hb.
    rewrite foldl_collect_snps_elem. split; [|tauto].
    intros [Hx|Hx]; [apply not_elem_of_empty in Hx; contradiction|exact Hx]. }
  split; [|split]; intros cfg Hrun.
  - apply columnwise_column in Hrun as [Hcol Hdisk].
    eexists. split; [exact Hcol|]. split; [exact Hdisk|].
    split; [apply sorted_strs_spec|exact Hcollect].
  - apply random_column in Hrun as [Hcol Hdisk].
    eexists. split; [exact Hcol|]. split; [exact Hdisk|].
    split; [apply sorted_strs_spec|exact Hcollect].
  - apply knearest_column in Hrun as [Hcol Hdisk].
    eexists. split; [exact Hcol|]. split; [exact Hdisk|].
    split; [apply sorted_strs_spec|].
    intros x. rewrite (proj2 (sorted_strs_spec _)), build_unique.
    rewrite batches_concat by exact Hb. reflexivity.
Qed.

End Rows.

(** ** When the strategies do return a table *)

Section Returns.
Context `{NumPy}.

Lemma split_on_go_cons sep cur s : exists x xs, split_on_go sep cur s = x :: xs.
Proof.
  revert cur. induction s as [|c s IH]; intros cur; simpl; [eauto|].
  destruct (Ascii.eqb c sep); [eauto|apply IH].
Qed.

Lemma split_on_go_sep sep cur (a b : string) :
  exists c0 c1 rest,
    split_on_go sep cur (a ++ String sep b)%string = c0 :: c1 :: rest.
Proof.
  revert cur. induction a as [|c a IH]; intros cur; simpl.
  - rewrite Ascii.eqb_refl.
    destruct (split_on_go_cons sep EmptyString b) as (x & xs & ->). eauto.
  - destruct (Ascii.eqb c sep); [|apply IH].
    destruct (IH EmptyString) as (c0 & c1 & rest & ->). eauto.
Qed.

(** A key always splits into a chromosome and a position. *)
Lemma split_key (a b : string) :
  exists c0 c1,
    index (split_on "_" (key a b)) 0 = Ok c0
    /\ index (split_on "_" (key a b)) 1 = Ok c1.
Proof.
  unfold split_on. change (key a b) with (a ++ String "_" b)%string.
  destruct (split_on_go_sep "_" EmptyString a b) as (c0 & c1 & rest & ->).
  exists c0, c1. split; reflexivity.
Qed.

Lemma for_each_total {A S} (xs : list A) (body : S -> A -> M S) (P : world -> Prop) :
  (forall s x w, x ∈ xs -> P w -> exists s' w', body s x w = (Ok s', w') /\ P w') ->
  forall s w, P w -> exists s' w', for_each xs body s w = (Ok s', w') /\ P w'.
Proof.
  intros Hbody s w Hw.
  destruct (for_each_inv (fun _ _ w' => P w') xs body) with (i := 0) (s := s) (w := w)
    as (s' & w' & Hrun & Hw'); [|exact Hw|eauto].
  intros i s0 x w0 Hx Hw0. apply Hbody; assumption.
Qed.

Lemma columnwise_row_runs masked acc a b w :
  exists acc', Columnwise.mask_row masked acc (key a b) w = (Ok acc', w).
Proof.
  unfold Columnwise.mask_row.
  destruct (split_key a b) as (c0 & c1 & -> & ->). do 2 run_step. unfold ret. eauto.
Qed.

Lemma knearest_row_runs g masked seeds acc a b w :
  exists acc', KNearest.mask_row g masked seeds acc (key a b) w = (Ok acc', w).
Proof.
  unfold KNearest.mask_row.
  destruct (split_key a b) as (c0 & c1 & -> & ->). do 2 run_step. unfold ret. eauto.
Qed.

Lemma sorted_strs_NoDup (s : gset string) : NoDup (sorted_strs s).
Proof. unfold sorted_strs. rewrite merge_sort_Permutation. apply NoDup_elements. Qed.

(** The column-wise strategy returns a table whenever the number of
    variants to mask, [int(n * missing_rate)], lies between 0 and [n], and
    there are not exactly four variants, as many as columns. *)
Lemma columnwise_returns cfg content b w t :
  let snp_list := sorted_strs (scan collect_snps b content ∅) in
  int_scaled (length snp_list) (Columnwise.missing_rate cfg) = Ok t ->
  (0 <= t <= Z.of_nat (length snp_list))%Z ->
  length snp_list <> 4 ->
  exists df w', Columnwise.create_mask_from_ld cfg content b w = (Ok df, w').
Proof.
  intros snp_list Hint Ht Hsq. unfold Columnwise.create_mask_from_ld.
  fold snp_list. rewrite Hint. do 2 run_step.
  match goal with |- context [bind (np_choice _ _) _ ?w0] => set (w1 := w0) end.
  destruct (np_choice_runs snp_list t w1 (sorted_strs_NoDup _) Ht)
    as (masked & w2 & Hrun & _).
  rewrite (bind_ok _ _ _ _ _ Hrun).
  destruct (for_each_total snp_list (Columnwise.mask_row masked) (fun _ => True))
    with (s := @nil (list cell)) (w := w2) as (rows & w3 & Hrows & _); [|exact I|].
  - intros s x w0 Hx _.
    assert (Hkey : exists a b, x = key a b).
    { apply (proj2 (sorted_strs_spec _)) in Hx. unfold scan in Hx.
      rewrite foldl_concat, foldl_collect_snps_elem in Hx.
      destruct Hx as [Hx|(line & r & _ & _ & [->| ->])];
        [apply not_elem_of_empty in Hx; contradiction| |]; eexists _, _; reflexivity. }
    destruct Hkey as (a & b0 & ->).
    destruct (columnwise_row_runs masked s a b0 w0) as (acc' & Hacc). eauto.
  - rewrite (bind_ok _ _ _ _ _ Hrows).
    rewrite pl_DataFrame_rows.
    2:{ rewrite (for_each_rows_length _ (fun s => s) _ (columnwise_row masked) _ _ _ Hrows).
        exact Hsq. }
    do 2 run_step. unfold ret. eauto.
Qed.

(** The k-nearest strategy returns a table whenever at least one variant
    was collected, the number of seeds lies between 0 and [n], and there
    are not exactly six variants, as many as columns. *)
Lemma knearest_returns cfg content b w t :
  let snp_list := sorted_strs (KNearest.build cfg b content).2 in
  snp_list <> [] ->
  int_scaled (length snp_list) (KNearest.missing_rate cfg) = Ok t ->
  (0 <= t <= Z.of_nat (length snp_list))%Z ->
  length snp_list <> 6 ->
  exists df w', KNearest.create_mask_from_ld cfg content b w = (Ok df, w').
Proof.
  intros snp_list Hne Hint Ht Hsq. unfold KNearest.create_mask_from_ld.
  subst snp_list. pose proof (build_unique cfg b content) as Hu.
  destruct (KNearest.build cfg b content) as [g u]. simpl in *.
  rewrite Hint. do 2 run_step.
  match goal with |- context [bind (np_choice _ _) _ ?w0] => set (w1 := w0) end.
  destruct (np_choice_runs (sorted_strs u) t w1 (sorted_strs_NoDup _) Ht)
    as (seeds & w2 & Hrun & _).
  rewrite (bind_ok _ _ _ _ _ Hrun).
  destruct (for_each_total (sorted_strs u)
              (KNearest.mask_row (KNearest.sort_neighbors g)
                 (KNearest.mask_seeds cfg (KNearest.sort_neighbors g) seeds) seeds)
              (fun _ => True))
    with (s := @nil (list cell)) (w := w2) as (rows & w3 & Hrows & _); [|exact I|].
  - intros s x w0 Hx _.
    assert (Hkey : exists a b, x = key a b).
    { apply (proj2 (sorted_strs_spec _)), Hu in Hx.
      destruct Hx as (line & a & b' & v & _ & He & Hx).
      apply edge_of_spec in He as (r & _ & _ & _ & -> & ->).
      destruct Hx as [->| ->]; eexists _, _; reflexivity. }
    destruct Hkey as (a & b0 & ->).
    destruct (knearest_row_runs (KNearest.sort_neighbors g)
                (KNearest.mask_seeds cfg (KNearest.sort_neighbors g) seeds) seeds
                s a b0 w0) as (acc' & Hacc). eauto.
  - rewrite (bind_ok _ _ _ _ _ Hrows).
    rewrite pl_DataFrame_rows.
    2:{ rewrite (for_each_rows_length _ (fun s => s) _ (knearest_row _ _ _) _ _ _ Hrows).
        exact Hsq. }
    do 2 run_step.
    unfold truediv. destruct (sorted_strs u) as [|x xs] eqn:Es; [contradiction|].
    cbn [length]. rewrite Nat2Z.inj_succ.
    destruct (Z.succ (Z.of_nat (length xs)) =? 0)%Z eqn:Hz; [apply Z.eqb_eq in Hz; lia|].
    run_step. unfold ret. eauto.
Qed.

(** With a seed NumPy accepts, the three score arrays handed to the
    stages have one score per variant. *)
Lemma generate_random_masks_lengths cfg n w :
  seed_ok (RandomMasking.seed_ cfg) = true ->
  exists m0 m1 m2 w',
    RandomMasking.generate_random_masks cfg n w = (Ok [m0; m1; m2], w')
    /\ length m0 = n /\ length m1 = n /\ length m2 = n.
Proof.
  intros Hseed. unfold RandomMasking.generate_random_masks.
  rewrite bind_seed by exact Hseed. do 3 run_step. unfold ret.
  eexists _, _, _, _. split; [reflexivity|].
  repeat split; apply np_random_length.
Qed.

(** Any other seed is refused before a score is drawn. *)
Lemma generate_random_masks_refused cfg n w :
  seed_ok (RandomMasking.seed_ cfg) = false ->
  RandomMasking.generate_random_masks cfg n w = (Raise ValueError, w).
Proof.
  intros Hseed. unfold RandomMasking.generate_random_masks.
  apply bind_seed_refused, Hseed.
Qed.

Lemma generate_random_masks_inv cfg n w ms w' :
  RandomMasking.generate_random_masks cfg n w = (Ok ms, w') ->
  seed_ok (RandomMasking.seed_ cfg) = true.
Proof.
  intros Hrun. destruct (seed_ok (RandomMasking.seed_ cfg)) eqn:Hseed; [reflexivity|].
  rewrite generate_random_masks_refused in Hrun by exact Hseed. discriminate.
Qed.

End Returns.

(* ===================================================================== *)
(** ** The statements on the sample file                                  *)
(* ===================================================================== *)

(** Closes an equation between closed terms by evaluating its left side. *)
Ltac by_evaluation :=
  match goal with
  | |- @eq ?T _ ?b => vm_cast_no_check (@eq_refl T b)
  end.

Module Examples.
Import Ref RefGraph Samples Cases.

(** Python compares strings by code point: "1_1000" sorts before "1_200". *)
Example key_order : String.ltb "1_1000" "1_200" = true.
Proof. reflexivity. Qed.

Example ld_file_lines :
  open_text ld_file
  = [(header ++ nl)%string; ("1 100 rs1 1 200 rs2 0.9" ++ nl)%string;
     ("1 200 rs2 1 300 rs3 0.5" ++ nl)%string;
     ("1 200 rs2 1 100 rs1 9e-1" ++ nl)%string;
     ("1 1000 rs4 1 100 rs1 0.85" ++ nl)%string].
Proof. reflexivity. Qed.

Example header_only_lines : open_text header_only = [(header ++ nl)%string].
Proof. reflexivity. Qed.

Example knn_run :
  (KNearest.create_mask_from_ld (knn 2) ld_file 2 start).1 = Ok knn_table.
Proof. by_evaluation. Qed.

Example knn_world_run :
  KNearest.create_mask_from_ld (knn 2) ld_file 2 start = (Ok knn_table, knn_world).
Proof. by_evaluation. Qed.

Example rnd_run :
  RandomMasking.create_mask_from_ld rnd ld_file 2 start = (Ok rnd_table, rnd_world).
Proof. by_evaluation. Qed.

Example col_run :
  Columnwise.create_mask_from_ld col ld_five 2 start
  = (Ok col_table, col_world).
Proof. by_evaluation. Qed.

(** The four variants of [ld_file] make four rows for four columns:
    Polars takes the rows for columns, refuses the first, which holds
    strings and a bool, and nothing is written. *)
Example col_square :
  Columnwise.create_mask_from_ld col ld_file 2 start
  = (Raise TypeError, mkWorld (43 : rng) None).
Proof. by_evaluation. Qed.

Example builder_run :
  LDGraphBuilder.filtered_edges builder ld_file 2
  = Ok [mkRow "1" "100" "rs1" "1" "200" "rs2" "0.9";
        mkRow "1" "1000" "rs4" "1" "100" "rs1" "0.85"].
Proof. by_evaluation. Qed.

(** Seven data lines read in one batch are seven lists under seven
    names: Polars takes them for the columns of the frame.  Row 0 of the
    frame then holds the first field of each line and row 6 the seven R2
    fields, and the filter retains rows that are no line of the file.  Read
    four lines at a time, the same file gives its lines for rows. *)
Example seven_lines_as_columns :
  lines_as_rows 7 seven_lines = false
  /\ LDGraphBuilder.load_ld_data seven_lines 7
     = [mkRow "1" "1" "1" "1" "1" "1" "1";
        mkRow "100" "101" "102" "103" "104" "105" "106";
        mkRow "7" "7" "7" "7" "7" "7" "7";
        mkRow "1" "1" "1" "1" "1" "1" "1";
        mkRow "200" "201" "202" "203" "204" "205" "206";
        mkRow "8" "8" "8" "8" "8" "8" "8";
        mkRow "0.9" "0.9" "0.9" "0.9" "0.9" "0.9" "0.9"]
  /\ LDGraphBuilder.filtered_edges builder seven_lines 7
     = Ok (LDGraphBuilder.load_ld_data seven_lines 7)
  /\ lines_as_rows 4 seven_lines = true
  /\ LDGraphBuilder.load_ld_data seven_lines 4 = omap fields (open_text seven_lines)
  /\ LDGraphBuilder.filtered_edges builder seven_lines 4
     = Ok (omap fields (open_text seven_lines)).
Proof.
  split; [by_evaluation|]. split; [by_evaluation|]. split; [by_evaluation|].
  split; [by_evaluation|]. split; by_evaluation.
Qed.



Lemma c3_symmetry_witness :
  let g := KNearest.sort_neighbors (KNearest.build (knn 2) 2 ld_file).1 in
  ("1_200", Num (9 # 10)) ∈ neighbors g "1_100"
  /\ ("1_100", Num (9 # 10)) ∈ neighbors g "1_200".
Proof.
  apply (c3_symmetry (knn 2) ld_file 2 ("1 100 rs1 1 200 rs2 0.9" ++ nl)%string
           (mkRow "1" "100" "rs1" "1" "200" "rs2" "0.9") (Num (9 # 10))).
  - lia.
  - rewrite ld_file_lines. apply list_elem_of_further, list_elem_of_here.
  - by_evaluation.
  - by_evaluation.
  - by_evaluation.
Defined.

Lemma c4_neighbor_order_witness :
  (0 <= KNearest.k (knn 2))%Z
  /\ let g := KNearest.sort_neighbors (KNearest.build (knn 2) 2 ld_file).1 in
     StronglySorted (fun x y => fge x.2 y.2 = true) (neighbors g "1_100")
     /\ ("1_1000" ∈ KNearest.mask_seeds (knn 2) g ["1_100"] <->
         exists s, s ∈ ["1_100"] /\
           ("1_1000" = s \/
            "1_1000" ∈ (take (Z.to_nat (KNearest.k (knn 2)) `min` length (neighbors g s))
                             (neighbors g s)).*1)).
Proof.
  assert (Hk : (0 <= KNearest.k (knn 2))%Z) by (simpl; lia).
  split; [exact Hk|].
  destruct (c4_neighbor_order (knn 2) ld_file 2 Hk) as (Hsorted & _ & Hmask & _).
  split; [apply Hsorted|apply Hmask].
Defined.

Lemma c5_random_multistage_witness :
  exists masked w',
    RandomMasking.apply_structured_masking rnd ["a"; "b"; "c"; "d"]
      [(random 4 42).1; (random 4 43).1; (random 4 44).1] start
    = (Ok masked, w')
    /\ size masked = 2.
Proof.
  destruct (c5_random_multistage rnd ["a"; "b"; "c"; "d"]
              (random 4 42).1 (random 4 43).1 (random 4 44).1 2 start)
    as (_ & extra & w' & Hrun & _ & _ & _ & _ & Hsize).
  - by_evaluation.
  - by_evaluation.
  - by_evaluation.
  - simpl. lia.
  - eexists _, w'. split; [exact Hrun|exact Hsize].
Defined.

(** C6, failing input.  One retained line is enough: the strategy raises
    [ValueError] before a distance matrix exists. *)
Lemma c6_matrix_never_built_witness :
  exists w',
    MAFCluster.create_mask_from_ld maf ld_file 2 start = (Raise ValueError, w')
    /\ w_disk w' = w_disk start.
Proof.
  apply (c6_matrix_never_built maf ld_file 2 start
           ("1 100 rs1 1 200 rs2 0.9" ++ nl)%string
           (mkRow "1" "100" "rs1" "1" "200" "rs2" "0.9") (Num (9 # 10))).
  - lia.
  - rewrite ld_file_lines. apply list_elem_of_further, list_elem_of_here.
  - by_evaluation.
  - by_evaluation.
  - by_evaluation.
Defined.

(** C7, failing input.  A file that holds only the header. *)
Lemma c7_no_data_raises_witness :
  (exists e w', RandomMasking.create_mask_from_ld rnd header_only 2 start = (Raise e, w')
                /\ w_disk w' = w_disk start)
  /\ (exists e w', KNearest.create_mask_from_ld (knn 2) header_only 2 start = (Raise e, w'))
  /\ (exists e w', MAFCluster.create_mask_from_ld maf header_only 2 start = (Raise e, w')).
Proof.
  assert (Hno : forall line, line ∈ open_text header_only -> fields line = None).
  { rewrite header_only_lines. intros line Hin.
    apply list_elem_of_singleton in Hin as ->. by_evaluation. }
  destruct (c7_no_data_raises header_only 2 start Hno) as (Hr & Hk & Hm).
  split; [apply Hr|]. split; [apply Hk|apply Hm].
Defined.

(** On the reference platform the three exceptions are these. *)
Example c7_exceptions :
  (RandomMasking.create_mask_from_ld rnd header_only 2 start).1 = Raise ZeroDivisionError
  /\ (KNearest.create_mask_from_ld (knn 2) header_only 2 start).1 = Raise ZeroDivisionError
  /\ (MAFCluster.create_mask_from_ld maf header_only 2 start).1 = Raise ValueError.
Proof. split; [by_evaluation|]. split; by_evaluation. Qed.

(** C8, counterexample.  The first and the third data line record the
    same pair in opposite orientations, both above the threshold: "1_200"
    then sits twice in the neighbor list of "1_100", and with k = 2 the two
    copies fill both slots, so that the third neighbor "1_1000" is not
    masked with the seed. *)
Lemma c8_counterexample :
  let g := KNearest.sort_neighbors (KNearest.build (knn 2) 2 ld_file).1 in
  KNearest.edge_of (knn 2) ("1 100 rs1 1 200 rs2 0.9" ++ nl)%string
  = Some ("1_100", "1_200", Num (9 # 10))
  /\ KNearest.edge_of (knn 2) ("1 200 rs2 1 100 rs1 9e-1" ++ nl)%string
     = Some ("1_200", "1_100", Num (9 # 10))
  /\ neighbors g "1_100"
     = [("1_200", Num (9 # 10)); ("1_200", Num (9 # 10)); ("1_1000", Num (85 # 100))]
  /\ length (filter (fun e => e.1 = "1_200") (neighbors g "1_100")) = 2
  /\ elements (KNearest.mask_seeds (knn 2) g ["1_100"]) = ["1_100"; "1_200"].
Proof.
  cbv zeta.
  split; [by_evaluation|]. split; [by_evaluation|]. split; [by_evaluation|].
  split; by_evaluation.
Qed.

Lemma c8_one_entry_per_line_witness :
  0 < 2
  /\ let g := KNearest.sort_neighbors (KNearest.build (knn 2) 2 ld_file).1 in
     length (filter (fun e => e.1 = "1_200") (neighbors g "1_100"))
     = length (filter (joins (knn 2) "1_100" "1_200") (open_text ld_file))
       + length (filter (joins (knn 2) "1_200" "1_100") (open_text ld_file)).
Proof.
  split; [lia|]. apply (c8_one_entry_per_line (knn 2) ld_file 2). lia.
Defined.

(** C10, counterexample.  The key "1_300" is observed in the input, on
    the second data line, but that line is below the threshold: the table
    of the k-nearest strategy has no row for it. *)
Lemma c10_counterexample :
  (KNearest.create_mask_from_ld (knn 2) ld_file 2 start).1 = Ok knn_table
  /\ snp_b <$> fields ("1 200 rs2 1 300 rs3 0.5" ++ nl)%string = Some "1_300"
  /\ snp_id_column knn_table = as_column ["1_100"; "1_1000"; "1_200"]
  /\ Some (CStr "1_300") ∉ snp_id_column knn_table.
Proof.
  split; [by_evaluation|]. split; [by_evaluation|]. split; [reflexivity|].
  intros Hin. apply list_elem_of_In in Hin. cbn in Hin.
  repeat (destruct Hin as [Hin|Hin]; [discriminate|]). exact Hin.
Qed.

Lemma c10_rows_sorted_unique_witness :
  0 < 2
  /\ (exists ids,
        snp_id_column col_table = as_column ids
        /\ StronglySorted (fun a b => String.ltb a b = true) ids
        /\ forall x, x ∈ ids <->
             exists line r, line ∈ open_text ld_five /\ fields line = Some r
                            /\ (x = snp_a r \/ x = snp_b r))
  /\ (exists ids,
        snp_id_column rnd_table = as_column ids
        /\ StronglySorted (fun a b => String.ltb a b = true) ids
        /\ forall x, x ∈ ids <->
             exists line r, line ∈ open_text ld_file /\ fields line = Some r
                            /\ (x = snp_a r \/ x = snp_b r))
  /\ (exists ids,
        snp_id_column knn_table = as_column ids
        /\ StronglySorted (fun a b => String.ltb a b = true) ids
        /\ forall x, x ∈ ids <->
             exists line a b v, line ∈ open_text ld_file
                                /\ KNearest.edge_of (knn 2) line = Some (a, b, v)
                                /\ (x = a \/ x = b)).
Proof.
  split; [lia|]. split; [|split].
  - destruct (c10_rows_sorted_unique ld_five 2 start col_table col_world)
      as (Hcol & _ & _); [lia|].
    destruct (Hcol col col_run) as (ids & Hids & _ & Hsorted & Hmem).
    exists ids. split; [exact Hids|]. split; [exact Hsorted|exact Hmem].
  - destruct (c10_rows_sorted_unique ld_file 2 start rnd_table rnd_world)
      as (_ & Hrnd & _); [lia|].
    destruct (Hrnd rnd rnd_run) as (ids & Hids & _ & Hsorted & Hmem).
    exists ids. split; [exact Hids|]. split; [exact Hsorted|exact Hmem].
  - destruct (c10_rows_sorted_unique ld_file 2 start knn_table knn_world)
      as (_ & _ & Hknn); [lia|].
    destruct (Hknn (knn 2) knn_world_run) as (ids & Hids & _ & Hsorted & Hmem).
    exists ids. split; [exact Hids|]. split; [exact Hsorted|exact Hmem].
Defined.

End Examples.

(* ===================================================================== *)
(** * Part III: further properties of the modules                        *)
(* ===================================================================== *)

(** ** The batch size *)

Section BatchSize.
Context `{NumPy} `{!Sklearn} `{!Polars}.






Lemma cast_column_app (a b : list ld_row) :
  LDGraphBuilder.cast_column (a ++ b)
  = match LDGraphBuilder.cast_column a, LDGraphBuilder.cast_column b with
    | Ok va, Ok vb => Ok (va ++ vb)
    | Raise e, _ => Raise e
    | Ok _, Raise e => Raise e
    end.
Proof.
  induction a as [|r a IH]; simpl.
  - destruct (LDGraphBuilder.cast_column b); reflexivity.
  - rewrite IH. destruct (cast_f64 (R2 r)) as [v|].
    + destruct (LDGraphBuilder.cast_column a) as [va|e];
        [destruct (LDGraphBuilder.cast_column b) as [vb|e]|]; reflexivity.
    + destruct (LDGraphBuilder.cast_column a) as [va|e];
        [destruct (LDGraphBuilder.cast_column b) as [vb|e]|]; reflexivity.
Qed.

Lemma cast_column_raises (df : list ld_row) e :
  LDGraphBuilder.cast_column df = Raise e -> e = InvalidOperationError.
Proof.
  induction df as [|r df IH]; simpl; [discriminate|].
  destruct (cast_f64 (R2 r)) as [v|].
  - destruct (LDGraphBuilder.cast_column df) as [vs|e'].
    + discriminate.
    + intros Heq. injection Heq as <-. apply IH. reflexivity.
  - destruct (LDGraphBuilder.cast_column df); intros Heq; injection Heq as <-; reflexivity.
Qed.

Lemma cast_column_length (df : list ld_row) vs :
  LDGraphBuilder.cast_column df = Ok vs -> length vs = length df.
Proof.
  intros Hc. apply cast_column_spec, Forall2_length in Hc. symmetry. exact Hc.
Qed.

Lemma filter_batch_app cfg (a b : list ld_row) :
  LDGraphBuilder.filter_batch cfg (a ++ b)
  = match LDGraphBuilder.filter_batch cfg a, LDGraphBuilder.filter_batch cfg b with
    | Ok ka, Ok kb => Ok (ka ++ kb)
    | Raise e, _ => Raise e
    | Ok _, Raise e => Raise e
    end.
Proof.
  unfold LDGraphBuilder.filter_batch. rewrite cast_column_app.
  destruct (LDGraphBuilder.cast_column a) as [va|e] eqn:Ea; [|reflexivity].
  destruct (LDGraphBuilder.cast_column b) as [vb|e] eqn:Eb; [|reflexivity].
  rewrite zip_with_app by (symmetry; apply cast_column_length, Ea).
  rewrite omap_app. reflexivity.
Qed.

Lemma filter_slices_concat cfg (slices : list (list ld_row)) :
  match LDGraphBuilder.filter_slices cfg slices with
  | Ok chunks => LDGraphBuilder.filter_batch cfg (concat slices) = Ok (concat chunks)
  | Raise e => LDGraphBuilder.filter_batch cfg (concat slices) = Raise e
  end.
Proof.
  induction slices as [|s slices IH]; [reflexivity|].
  simpl. rewrite filter_batch_app.
  destruct (LDGraphBuilder.filter_batch cfg s) as [ks|e]; [|reflexivity].
  destruct (LDGraphBuilder.filter_slices cfg slices) as [chunks|e]; rewrite IH; [|reflexivity].
  destruct ks; reflexivity.
Qed.

(** Filtering slice by slice is filtering the whole frame. *)
Lemma filtered_edges_frame cfg content b :
  0 < b ->
  LDGraphBuilder.filtered_edges cfg content b
  = LDGraphBuilder.filter_batch cfg (LDGraphBuilder.load_ld_data content b).
Proof.
  intros Hb. unfold LDGraphBuilder.filtered_edges, LDGraphBuilder.iter_slices.
  destruct (Nat.eqb_spec b 0) as [->|_]; [lia|].
  set (df := LDGraphBuilder.load_ld_data content b).
  pose proof (filter_slices_concat cfg (LDGraphBuilder.slices_fuel (length df) b df)) as Hc.
  rewrite slices_fuel_concat in Hc by (try exact Hb; lia).
  destruct (LDGraphBuilder.filter_slices cfg _) as [chunks|e]; rewrite Hc; reflexivity.
Qed.



End BatchSize.

(** ** Keys and the node table *)

Lemma append_cons (x : ascii) (a b : string) :
  (String x a ++ b)%string = String x (a ++ b)%string.
Proof. reflexivity. Qed.

Lemma append_nil_r (a : string) : (a ++ "")%string = a.
Proof.
  induction a as [|x a IH]; [reflexivity|]. rewrite append_cons, IH. reflexivity.
Qed.

Lemma rev_app_app (s1 s2 s3 : string) :
  (String.rev_app s1 s2 ++ s3)%string = String.rev_app s1 (s2 ++ s3)%string.
Proof.
  revert s2. induction s1 as [|c s1 IH]; intros s2; simpl; [reflexivity|].
  rewrite IH. reflexivity.
Qed.

Lemma rev_cons (c : ascii) (s : string) :
  String.rev (String c s) = (String.rev s ++ String c "")%string.
Proof. unfold String.rev. simpl. symmetry. apply (rev_app_app s "" (String c "")). Qed.

Lemma append_assoc (a b c : string) : ((a ++ b) ++ c)%string = (a ++ (b ++ c))%string.
Proof.
  induction a as [|x a IH]; [reflexivity|]. rewrite !append_cons, IH. reflexivity.
Qed.

Lemma occurrences_app c (a b : string) :
  occurrences c (a ++ b)%string = occurrences c a + occurrences c b.
Proof.
  induction a as [|x a IH]; [reflexivity|]. rewrite append_cons. simpl. rewrite IH. lia.
Qed.

Lemma occurrences_rev c (s : string) : occurrences c (String.rev s) = occurrences c s.
Proof.
  induction s as [|x s IH]; [reflexivity|].
  rewrite rev_cons, occurrences_app, IH. simpl. lia.
Qed.

Lemma split_on_go_length sep cur s :
  length (split_on_go sep cur s) = S (occurrences sep s).
Proof.
  revert cur. induction s as [|c s IH]; intros cur; simpl; [reflexivity|].
  destruct (Ascii.eqb c sep); simpl; rewrite IH; reflexivity.
Qed.

Lemma split_on_go_join sep cur s :
  String.concat (String sep "") (split_on_go sep cur s) = (String.rev cur ++ s)%string.
Proof.
  revert cur. induction s as [|c s IH]; intros cur.
  - simpl. rewrite append_nil_r. reflexivity.
  - simpl split_on_go. destruct (Ascii.eqb_spec c sep) as [->|Hne].
    + destruct (split_on_go_cons sep "" s) as (x & xs & Hx).
      pose proof (IH "") as Hj. rewrite Hx in Hj |- *.
      change (String.concat (String sep "") (String.rev cur :: x :: xs))
        with (String.rev cur ++ String sep "" ++ String.concat (String sep "") (x :: xs))%string.
      rewrite Hj. reflexivity.
    + rewrite IH, rev_cons, append_assoc. reflexivity.
Qed.

Lemma split_on_go_fields sep cur s :
  occurrences sep cur = 0 ->
  Forall (fun f => occurrences sep f = 0) (split_on_go sep cur s).
Proof.
  revert cur. induction s as [|c s IH]; intros cur Hcur; simpl.
  - constructor; [|constructor]. rewrite occurrences_rev. exact Hcur.
  - destruct (Ascii.eqb c sep) eqn:Ec.
    + constructor; [rewrite occurrences_rev; exact Hcur|]. apply IH. reflexivity.
    + apply IH. simpl. rewrite Ec. exact Hcur.
Qed.

Lemma split_on_go_free sep cur s :
  occurrences sep s = 0 -> split_on_go sep cur s = [(String.rev cur ++ s)%string].
Proof.
  revert cur. induction s as [|c s IH]; intros cur Hs; simpl in *.
  - rewrite append_nil_r. reflexivity.
  - destruct (Ascii.eqb c sep); [discriminate|].
    rewrite IH by exact Hs. rewrite rev_cons, append_assoc. reflexivity.
Qed.

Lemma split_on_go_first sep cur (a b : string) :
  occurrences sep a = 0 ->
  split_on_go sep cur (a ++ String sep b)%string
  = (String.rev cur ++ a)%string :: split_on_go sep "" b.
Proof.
  revert cur. induction a as [|c a IH]; intros cur Ha.
  - change ("" ++ String sep b)%string with (String sep b). simpl.
    rewrite Ascii.eqb_refl, append_nil_r. reflexivity.
  - rewrite append_cons. simpl in *.
    destruct (Ascii.eqb c sep); [discriminate|].
    rewrite IH by exact Ha. rewrite rev_cons, append_assoc. reflexivity.
Qed.

(** Splitting a key gives back the two names it was built from, when
    neither holds an underscore. *)
Lemma split_on_key (a b : string) :
  occurrences "_" a = 0 -> occurrences "_" b = 0 -> split_on "_" (key a b) = [a; b].
Proof.
  intros Ha Hb. unfold split_on.
  change (key a b) with (a ++ String "_" b)%string.
  rewrite split_on_go_first by exact Ha.
  rewrite split_on_go_free by exact Hb. reflexivity.
Qed.

Lemma unpack2_split (node_id c b : string) :
  MAFCluster.unpack2 (split_on "_" node_id) = Ok (c, b) ->
  node_id = key c b /\ occurrences "_" c = 0 /\ occurrences "_" b = 0.
Proof.
  intros Hu. unfold MAFCluster.unpack2 in Hu.
  destruct (split_on "_" node_id) as [|x [|y [|z l]]] eqn:Es; try discriminate.
  injection Hu as -> ->.
  pose proof (split_on_go_join "_" "" node_id) as Hj.
  pose proof (split_on_go_fields "_" "" node_id eq_refl) as Hf.
  unfold split_on in Es. rewrite Es in Hj, Hf.
  apply Forall_cons in Hf as [Hc Hf]. apply Forall_cons in Hf as [Hb _].
  split; [|split; assumption]. simpl in Hj. symmetry. exact Hj.
Qed.

Lemma unpack2_split_raises (node_id : string) e :
  MAFCluster.unpack2 (split_on "_" node_id) = Raise e ->
  e = ValueError /\ occurrences "_" node_id <> 1.
Proof.
  intros Hu. pose proof (split_on_go_length "_" "" node_id) as Hl.
  unfold MAFCluster.unpack2, split_on in *.
  destruct (split_on_go "_" "" node_id) as [|x [|y [|z l]]]; try discriminate;
    injection Hu as <-; simpl in Hl; (split; [reflexivity|lia]).
Qed.

Lemma node_rows_spec (node_ids : list string) (acc : list (list string)) :
  match LDGraph.node_rows node_ids acc with
  | Ok rows =>
      exists new, rows = acc ++ new
        /\ Forall2 (fun node_id row =>
                      exists c b, row = [c; b; node_id] /\ node_id = key c b
                                  /\ occurrences "_" c = 0 /\ occurrences "_" b = 0)
                   node_ids new
  | Raise e =>
      e = ValueError /\ Exists (fun node_id => occurrences "_" node_id <> 1) node_ids
  end.
Proof.
  revert acc. induction node_ids as [|node_id rest IH]; intros acc; simpl.
  - exists []. rewrite app_nil_r. split; [reflexivity|constructor].
  - unfold LDGraph.node_row.
    destruct (MAFCluster.unpack2 (split_on "_" node_id)) as [[c b]|e] eqn:Eu.
    + specialize (IH (acc ++ [[c; b; node_id]])).
      destruct (LDGraph.node_rows rest _) as [rows|e].
      * destruct IH as (new & -> & Hall). exists ([c; b; node_id] :: new).
        split; [rewrite <- app_assoc; reflexivity|].
        constructor; [|exact Hall]. exists c, b.
        destruct (unpack2_split _ _ _ Eu) as (Hk & Hc & Hb). auto.
      * destruct IH as [-> Hex]. split; [reflexivity|]. right. exact Hex.
    + destruct (unpack2_split_raises _ _ Eu) as [-> Hne].
      split; [reflexivity|]. left. exact Hne.
Qed.

Lemma nodes_frame_rows (nodes_data : list (list string)) :
  length nodes_data <> 3 -> LDGraph.nodes_frame nodes_data = nodes_data.
Proof.
  intros Hlen. unfold LDGraph.nodes_frame.
  destruct (Nat.eqb_spec (length nodes_data) 3) as [Heq|_]; [contradiction|reflexivity].
Qed.

(** X2.  The node table of the graph builder.  A key is split into the
    two names it is made of, neither with an underscore in it, and the
    three strings are the list of that key; the table is refused with
    [ValueError] when some key does not hold exactly one underscore.  With
    any number of keys but three the lists are the rows of the table, so
    that joining the first two columns gives back the third.  With exactly
    three keys Polars takes the lists for columns: the rows of the table
    are the three chromosomes, the three positions and the three keys. *)
Theorem create_nodes_from_ids_round_trip (node_ids : list string) :
  match LDGraph.create_nodes_from_ids node_ids with
  | Ok rows =>
      exists nodes_data,
        Forall2 (fun node_id row =>
                   exists c b, row = [c; b; node_id] /\ node_id = key c b
                               /\ occurrences "_" c = 0 /\ occurrences "_" b = 0)
                node_ids nodes_data
        /\ (length node_ids <> 3 -> rows = nodes_data)
        /\ (forall c0 b0 i0 c1 b1 i1 c2 b2 i2,
              nodes_data = [[c0; b0; i0]; [c1; b1; i1]; [c2; b2; i2]] ->
              rows = [[c0; c1; c2]; [b0; b1; b2]; [i0; i1; i2]])
  | Raise e =>
      e = ValueError /\ Exists (fun node_id => occurrences "_" node_id <> 1) node_ids
  end.
Proof.
  unfold LDGraph.create_nodes_from_ids.
  pose proof (node_rows_spec node_ids []) as Hs.
  destruct (LDGraph.node_rows node_ids []) as [rows|e]; [|exact Hs].
  destruct Hs as (new & -> & Hall). exists new. split; [exact Hall|]. split.
  - intros Hlen. apply nodes_frame_rows.
    rewrite <- (Forall2_length _ _ _ Hall). exact Hlen.
  - intros c0 b0 i0 c1 b1 i1 c2 b2 i2 ->. reflexivity.
Qed.

(** ** The tables of the column-wise and the k-nearest strategy *)

Section Tables.
Context `{NumPy}.

Lemma for_each_Forall2 {A B} (P : A -> B -> Prop) (xs : list A)
  (body : list B -> A -> M (list B)) :
  (forall acc x w acc' w',
      x ∈ xs -> body acc x w = (Ok acc', w') ->
      exists row, acc' = acc ++ [row] /\ P x row) ->
  forall acc w out w',
    for_each xs body acc w = (Ok out, w') ->
    exists new, out = acc ++ new /\ Forall2 P xs new.
Proof.
  induction xs as [|x xs IH]; intros Hbody acc w out w'; simpl.
  - unfold ret. intros Heq. injection Heq as <- <-.
    exists []. rewrite app_nil_r. split; [reflexivity|constructor].
  - intros Hrun. apply bind_inv_ok in Hrun as (acc1 & w1 & Hb & Hrun).
    destruct (Hbody _ _ _ _ _ (list_elem_of_here _ _) Hb) as (row & -> & Hrow).
    destruct (IH (fun acc x w acc' w' Hx => Hbody acc x w acc' w' (list_elem_of_further _ _ _ Hx))
                 _ _ _ _ Hrun) as (new & -> & Hall).
    exists (row :: new). rewrite <- app_assoc. split; [reflexivity|].
    constructor; assumption.
Qed.

Lemma np_choice_inv {A} (a : list A) (k : Z) w xs w' :
  NoDup a -> np_choice a k w = (Ok xs, w') ->
  (0 <= k <= Z.of_nat (length a))%Z
  /\ NoDup xs /\ length xs = Z.to_nat k /\ (forall x, x ∈ xs -> x ∈ a)
  /\ w_disk w' = w_disk w.
Proof.
  intros Ha Hrun.
  assert (Hk : (0 <= k <= Z.of_nat (length a))%Z).
  { unfold np_choice in Hrun.
    destruct (k <? 0)%Z eqn:Hneg; [discriminate|].
    destruct (Z.of_nat (length a) <? k)%Z eqn:Hbig; [discriminate|].
    apply Z.ltb_ge in Hneg, Hbig. lia. }
  split; [exact Hk|].
  destruct (np_choice_runs a k w Ha Hk) as (xs' & w1 & Hrun' & Hd & Hnd & Hlen & Hsub).
  rewrite Hrun in Hrun'. injection Hrun' as <- <-. auto.
Qed.

(** NumPy refuses a sample size that is negative or exceeds the
    population. *)
Lemma np_choice_refuses {A} (a : list A) (k : Z) w :
  (k < 0 \/ Z.of_nat (length a) < k)%Z -> np_choice a k w = (Raise ValueError, w).
Proof.
  intros Hk. unfold np_choice.
  destruct (k <? 0)%Z eqn:Hneg; [reflexivity|].
  destruct (Z.of_nat (length a) <? k)%Z eqn:Hbig; [reflexivity|].
  apply Z.ltb_ge in Hneg, Hbig. lia.
Qed.

Lemma filter_NoDup_length {A} `{EqDecision A} (P : A -> Prop) `{forall x, Decision (P x)}
  (xs ys : list A) :
  NoDup xs -> NoDup ys -> (forall x, x ∈ ys <-> x ∈ xs /\ P x) ->
  length (filter P xs) = length ys.
Proof.
  intros Hxs Hys Hiff. apply Permutation_length, NoDup_Permutation.
  - apply NoDup_filter, Hxs.
  - exact Hys.
  - intros x. rewrite list_elem_of_filter, Hiff. tauto.
Qed.

Lemma flag_count_Forall2 {A} (P : A -> Prop) `{forall x, Decision (P x)} (j : nat)
  (xs : list A) (table : list (list cell)) :
  Forall2 (fun x row => row !! j = Some (CBool (bool_decide (P x)))) xs table ->
  length (filter (fun row => is_true (row !! j) = true) table) = length (filter P xs).
Proof.
  induction 1 as [|x row xs table Hrow _ IH]; [reflexivity|].
  rewrite !filter_cons, Hrow.
  destruct (decide (P x)) as [Hp|Hp].
  - rewrite (bool_decide_eq_true_2 _ Hp). simpl. rewrite IH. reflexivity.
  - rewrite (bool_decide_eq_false_2 _ Hp). simpl. exact IH.
Qed.

Lemma columnwise_row_shape masked acc snp w acc' w' :
  Columnwise.mask_row masked acc snp w = (Ok acc', w') ->
  exists row, acc' = acc ++ [row]
    /\ exists c0 c1,
         index (split_on "_" snp) 0 = Ok c0 /\ index (split_on "_" snp) 1 = Ok c1
         /\ row = [CStr c0; CStr c1; CStr snp; CBool (bool_decide (snp ∈ masked))].
Proof.
  unfold Columnwise.mask_row. intros Hrun.
  apply lift_bind_ok in Hrun as (c0 & Hc0 & Hrun).
  apply lift_bind_ok in Hrun as (c1 & Hc1 & Hrun).
  unfold ret in Hrun. injection Hrun as <- <-.
  eexists. split; [reflexivity|]. exists c0, c1. auto.
Qed.

(** What a returned column-wise table looks like. *)
Lemma columnwise_table cfg content b w df w' :
  Columnwise.create_mask_from_ld cfg content b w = (Ok df, w') ->
  let ids := sorted_strs (scan collect_snps b content ∅) in
  exists t masked,
    int_scaled (length ids) (Columnwise.missing_rate cfg) = Ok t
    /\ (0 <= t <= Z.of_nat (length ids))%Z
    /\ NoDup masked /\ length masked = Z.to_nat t
    /\ (forall x, x ∈ masked -> x ∈ ids)
    /\ Forall2 (fun snp row =>
                  exists c0 c1,
                    index (split_on "_" snp) 0 = Ok c0
                    /\ index (split_on "_" snp) 1 = Ok c1
                    /\ row = [CStr c0; CStr c1; CStr snp;
                              CBool (bool_decide (snp ∈ masked))])
               ids (rows df).
Proof.
  intros Hrun ids. unfold Columnwise.create_mask_from_ld in Hrun. fold ids in Hrun.
  apply lift_bind_ok in Hrun as (t & Ht & Hrun).
  rewrite bind_seed in Hrun by reflexivity.
  apply bind_inv_ok in Hrun as (masked & w1 & Hch & Hrun).
  apply bind_inv_ok in Hrun as (mask_data & w2 & Hrows & Hrun).
  apply lift_bind_ok in Hrun as (mask_df & Hdf & Hrun).
  destruct (mask_table_built _ _ _ _ _ _ _ _
              (columnwise_row_mixed masked) Hrows Hdf) as [-> _].
  rewrite bind_write_csv in Hrun. unfold ret in Hrun. injection Hrun as <- <-.
  apply np_choice_inv in Hch as (Hk & Hnd & Hlen & Hsub & _);
    [|apply sorted_strs_NoDup].
  exists t, masked. split; [exact Ht|]. split; [exact Hk|]. split; [exact Hnd|].
  split; [exact Hlen|]. split; [exact Hsub|]. cbn [rows].
  destruct (for_each_Forall2
              (fun snp row =>
                 exists c0 c1,
                   index (split_on "_" snp) 0 = Ok c0
                   /\ index (split_on "_" snp) 1 = Ok c1
                   /\ row = [CStr c0; CStr c1; CStr snp;
                             CBool (bool_decide (snp ∈ masked))])
              ids (Columnwise.mask_row masked)
              (fun acc x w acc' w' _ Hb => columnwise_row_shape masked acc x w acc' w' Hb)
              _ _ _ _ Hrows) as (new & -> & Hall).
  exact Hall.
Qed.

(** A table that one of the strategies returns has not as many rows as
    columns: with as many, Polars takes the rows for columns and refuses
    them, for each holds strings and a bool. *)
Lemma columnwise_not_square cfg content b w df w' :
  Columnwise.create_mask_from_ld cfg content b w = (Ok df, w') ->
  length (rows df) <> 4.
Proof.
  unfold Columnwise.create_mask_from_ld. intros Hrun.
  apply lift_bind_ok in Hrun as (t & _ & Hrun).
  rewrite bind_seed in Hrun by reflexivity.
  apply bind_inv_ok in Hrun as (masked & w1 & _ & Hrun).
  apply bind_inv_ok in Hrun as (mask_data & w2 & Hrows & Hrun).
  apply lift_bind_ok in Hrun as (mask_df & Hdf & Hrun).
  destruct (mask_table_built _ _ _ _ _ _ _ _
              (columnwise_row_mixed masked) Hrows Hdf) as [-> Hsq].
  rewrite bind_write_csv in Hrun. unfold ret in Hrun. injection Hrun as <- <-.
  exact Hsq.
Qed.

(** X3.  The column-wise strategy masks exactly the number of variants
    it computes from the rate: in a returned table, [int(n * rate)] of the
    n rows carry MASKED = True.  A returned table never has four rows: four
    rows under four column names are refused by Polars. *)
Theorem columnwise_masks_exact_count cfg content b w df w' :
  Columnwise.create_mask_from_ld cfg content b w = (Ok df, w') ->
  int_scaled (length (rows df)) (Columnwise.missing_rate cfg)
  = Ok (Z.of_nat (flag_count 3 df))
  /\ flag_count 3 df <= length (rows df)
  /\ length (rows df) <> 4
  /\ w_disk w' = Some df.
Proof.
  intros Hrun.
  destruct (columnwise_table _ _ _ _ _ _ Hrun) as (t & masked & Ht & Hk & Hnd & Hlen & Hsub & Hall).
  pose proof (Forall2_length _ _ _ Hall) as Hn.
  assert (Hcount : flag_count 3 df = Z.to_nat t).
  { unfold flag_count.
    rewrite (flag_count_Forall2 (fun snp => snp ∈ masked) 3
               (sorted_strs (scan collect_snps b content ∅)) (rows df)).
    - rewrite <- Hlen. apply filter_NoDup_length; [apply sorted_strs_NoDup|exact Hnd|].
      intros x. split; [intros Hx; split; [apply Hsub, Hx|exact Hx]|tauto].
    - eapply Forall2_impl; [exact Hall|].
      intros snp row (c0 & c1 & _ & _ & ->). reflexivity. }
  split; [|split; [|split]].
  - rewrite <- Hn, Ht, Hcount. f_equal. lia.
  - rewrite Hcount, <- Hn. lia.
  - apply (columnwise_not_square _ _ _ _ _ _ Hrun).
  - apply (columnwise_column _ _ _ _ _ _ Hrun).
Qed.

(** X4.  A rate that asks the column-wise strategy for a negative number
    of variants, or for more variants than there are, is refused: the count
    is passed on unclamped, NumPy raises [ValueError], and nothing is
    written. *)
Theorem columnwise_out_of_range_raises cfg content b w t :
  let ids := sorted_strs (scan collect_snps b content ∅) in
  int_scaled (length ids) (Columnwise.missing_rate cfg) = Ok t ->
  (t < 0 \/ Z.of_nat (length ids) < t)%Z ->
  exists w', Columnwise.create_mask_from_ld cfg content b w = (Raise ValueError, w')
             /\ w_disk w' = w_disk w.
Proof.
  intros ids Ht Hout. unfold Columnwise.create_mask_from_ld. fold ids.
  rewrite Ht. run_step. run_step.
  rewrite (bind_raise _ _ _ _ _ (np_choice_refuses ids t _ Hout)).
  eexists. split; reflexivity.
Qed.

End Tables.

(** ** The graph and the table of the k-nearest strategy *)

Section KNearestTable.
Context `{NumPy}.
Import KNearest.

Lemma contributes_endpoint cfg a line e :
  e ∈ contributes cfg a line ->
  exists x y v, edge_of cfg line = Some (x, y, v)
                /\ (x = a /\ e = (y, v) \/ y = a /\ e = (x, v)).
Proof.
  unfold contributes. destruct (edge_of cfg line) as [[[x y] v]|];
    [|intros Hin; apply elem_of_nil in Hin; contradiction].
  intros Hin. exists x, y, v. split; [reflexivity|].
  apply elem_of_app in Hin as [Hin|Hin].
  - destruct (decide (x = a)) as [->|]; [|apply elem_of_nil in Hin; contradiction].
    apply list_elem_of_singleton in Hin. left. auto.
  - destruct (decide (y = a)) as [->|]; [|apply elem_of_nil in Hin; contradiction].
    apply list_elem_of_singleton in Hin. right. auto.
Qed.

Lemma contributes_nonempty cfg line a b v x :
  edge_of cfg line = Some (a, b, v) -> x = a \/ x = b -> contributes cfg x line <> [].
Proof.
  intros He Hx. unfold contributes. rewrite He.
  destruct (decide (a = x)) as [_|Ha]; [discriminate|].
  destruct (decide (b = x)) as [_|Hb]; [discriminate|].
  destruct Hx as [->| ->]; contradiction.
Qed.

(** The variants of the table are the variants with a neighbor, and the
    neighbors of a variant are variants of the table. *)
Lemma build_closed cfg b content :
  let '(g, u) := build cfg b content in
  (forall x, x ∈ u <-> neighbors g x <> [])
  /\ (forall x e, e ∈ neighbors g x -> e.1 ∈ u).
Proof.
  pose proof (build_lookup cfg b content) as Hl.
  pose proof (build_unique cfg b content) as Hu.
  destruct (build cfg b content) as [g u]. simpl in Hl, Hu. split.
  - intros x. rewrite Hu, Hl. split.
    + intros (line & a & b' & v & Hin & He & Hx) Hnil.
      destruct (contributes cfg x line) as [|e l] eqn:Ec.
      * eapply contributes_nonempty; eassumption.
      * assert (He' : e ∈ concat (batches b content) ≫= contributes cfg x).
        { apply list_elem_of_bind. exists line. split; [|exact Hin].
          rewrite Ec. apply list_elem_of_here. }
        rewrite Hnil in He'. apply elem_of_nil in He'. contradiction.
    + intros Hne.
      destruct (concat (batches b content) ≫= contributes cfg x) as [|e l] eqn:Eb;
        [contradiction|].
      assert (He : e ∈ concat (batches b content) ≫= contributes cfg x)
        by (rewrite Eb; apply list_elem_of_here).
      apply list_elem_of_bind in He as (line & He & Hin).
      apply contributes_endpoint in He as (a & b' & v & He & Hx).
      exists line, a, b', v. split; [exact Hin|]. split; [exact He|].
      destruct Hx as [[-> _]|[-> _]]; auto.
  - intros x e. rewrite Hl, Hu. intros He.
    apply list_elem_of_bind in He as (line & He & Hin).
    apply contributes_endpoint in He as (a & b' & v & He & Hx).
    exists line, a, b', v. split; [exact Hin|]. split; [exact He|].
    destruct Hx as [[_ ->]|[_ ->]]; simpl; auto.
Qed.

Lemma sort_neighbors_perm (g : gmap string (list (string * float))) a :
  neighbors (sort_neighbors g) a ≡ₚ neighbors g a.
Proof. rewrite sort_neighbors_lookup. apply sort_reverse_perm. Qed.

Lemma slice_to_sublist {A} (k : Z) (l : list A) : sublist (slice_to k l) l.
Proof. unfold slice_to. destruct (0 <=? k)%Z; apply sublist_take. Qed.

Lemma k_nearest_elem cfg g s e :
  e ∈ k_nearest cfg g s -> e ∈ neighbors g s.
Proof.
  unfold k_nearest, neighbors. intros He.
  eapply elem_of_sublist; [exact He|apply slice_to_sublist].
Qed.

Lemma k_nearest_length cfg g s :
  (0 <= k cfg)%Z -> length (k_nearest cfg g s) <= Z.to_nat (k cfg).
Proof.
  intros Hk. unfold k_nearest. rewrite slice_to_nonneg by exact Hk.
  rewrite length_take. lia.
Qed.

Lemma size_union_le (X Y : gset string) : size (X ∪ Y) <= size X + size Y.
Proof.
  rewrite size_union_alt.
  assert (Hle : size (Y ∖ X) <= size Y).
  { apply subseteq_size. intros x Hx. apply elem_of_difference in Hx. tauto. }
  lia.
Qed.

Lemma mask_neighbors_size (l : list (string * float)) (m : gset string) :
  size (foldl (fun m nb => m ∪ {[nb.1]}) m l) <= size m + length l.
Proof.
  revert m. induction l as [|e l IH]; intros m; simpl; [lia|].
  etransitivity; [apply IH|].
  pose proof (size_union_le m {[e.1]}) as Hle. rewrite size_singleton in Hle. lia.
Qed.

Lemma mask_seeds_size cfg g seeds (m : gset string) :
  (0 <= k cfg)%Z ->
  size (foldl (mask_seed cfg g) m seeds) <= size m + length seeds * (1 + Z.to_nat (k cfg)).
Proof.
  intros Hk. revert m. induction seeds as [|s seeds IH]; intros m; simpl; [lia|].
  etransitivity; [apply IH|]. unfold mask_seed.
  pose proof (mask_neighbors_size (k_nearest cfg g s) (m ∪ {[s]})) as Hn.
  pose proof (size_union_le m {[s]}) as Hu. rewrite size_singleton in Hu.
  pose proof (k_nearest_length cfg g s Hk) as Hl. lia.
Qed.

Lemma knearest_row_shape g masked seeds acc snp w acc' w' :
  mask_row g masked seeds acc snp w = (Ok acc', w') ->
  exists row, acc' = acc ++ [row]
    /\ exists c0 c1,
         index (split_on "_" snp) 0 = Ok c0 /\ index (split_on "_" snp) 1 = Ok c1
         /\ row = [CStr c0; CStr c1; CStr snp; CBool (bool_decide (snp ∈ masked));
                   CBool (bool_decide (snp ∈ seeds));
                   CInt (Z.of_nat (length (neighbors g snp)))].
Proof.
  unfold mask_row. intros Hrun.
  apply lift_bind_ok in Hrun as (c0 & Hc0 & Hrun).
  apply lift_bind_ok in Hrun as (c1 & Hc1 & Hrun).
  unfold ret in Hrun. injection Hrun as <- <-.
  eexists. split; [reflexivity|]. exists c0, c1. auto.
Qed.

(** What a returned k-nearest table looks like. *)
Lemma knearest_table cfg content b w df w' :
  create_mask_from_ld cfg content b w = (Ok df, w') ->
  let g := sort_neighbors (build cfg b content).1 in
  let ids := sorted_strs (build cfg b content).2 in
  exists t seeds,
    int_scaled (length ids) (missing_rate cfg) = Ok t
    /\ (0 <= t <= Z.of_nat (length ids))%Z
    /\ NoDup seeds /\ length seeds = Z.to_nat t
    /\ (forall x, x ∈ seeds -> x ∈ ids)
    /\ ids <> []
    /\ Forall2 (fun snp row =>
                  exists c0 c1,
                    index (split_on "_" snp) 0 = Ok c0
                    /\ index (split_on "_" snp) 1 = Ok c1
                    /\ row = [CStr c0; CStr c1; CStr snp;
                              CBool (bool_decide (snp ∈ mask_seeds cfg g seeds));
                              CBool (bool_decide (snp ∈ seeds));
                              CInt (Z.of_nat (length (neighbors g snp)))])
               ids (rows df).
Proof.
  intros Hrun g ids. unfold create_mask_from_ld in Hrun. subst g ids.
  destruct (build cfg b content) as [g0 u]. cbn [fst snd].
  set (g := sort_neighbors g0) in *. set (ids := sorted_strs u) in *.
  apply lift_bind_ok in Hrun as (t & Ht & Hrun).
  rewrite bind_seed in Hrun by reflexivity.
  apply bind_inv_ok in Hrun as (seeds & w1 & Hch & Hrun).
  apply bind_inv_ok in Hrun as (mask_data & w2 & Hrows & Hrun).
  apply lift_bind_ok in Hrun as (mask_df & Hdf & Hrun).
  destruct (mask_table_built _ _ _ _ _ _ _ _
              (knearest_row_mixed _ _ _) Hrows Hdf) as [-> _].
  rewrite bind_write_csv in Hrun.
  apply lift_bind_ok in Hrun as (rate & Hdiv & Hrun).
  unfold ret in Hrun. injection Hrun as <- <-.
  apply np_choice_inv in Hch as (Hk & Hnd & Hlen & Hsub & _);
    [|apply sorted_strs_NoDup].
  exists t, seeds. split; [exact Ht|]. split; [exact Hk|]. split; [exact Hnd|].
  split; [exact Hlen|]. split; [exact Hsub|]. split.
  { intros Hnil. rewrite Hnil in Hdiv. simpl in Hdiv.
    rewrite truediv_zero in Hdiv. discriminate. }
  cbn [rows].
  destruct (for_each_Forall2
              (fun snp row =>
                 exists c0 c1,
                   index (split_on "_" snp) 0 = Ok c0
                   /\ index (split_on "_" snp) 1 = Ok c1
                   /\ row = [CStr c0; CStr c1; CStr snp;
                             CBool (bool_decide (snp ∈ mask_seeds cfg g seeds));
                             CBool (bool_decide (snp ∈ seeds));
                             CInt (Z.of_nat (length (neighbors g snp)))])
              ids (mask_row g (mask_seeds cfg g seeds) seeds)
              (fun acc x w acc' w' _ Hb =>
                 knearest_row_shape g _ seeds acc x w acc' w' Hb)
              _ _ _ _ Hrows) as (new & -> & Hall).
  exact Hall.
Qed.

Lemma mask_seeds_closed cfg b content seeds x :
  let g := sort_neighbors (build cfg b content).1 in
  (forall s, s ∈ seeds -> s ∈ (build cfg b content).2) ->
  x ∈ mask_seeds cfg g seeds -> x ∈ (build cfg b content).2.
Proof.
  intros g Hseeds Hx. unfold mask_seeds in Hx.
  apply foldl_mask_seed_elem in Hx as [Hx|(s & Hs & Hx)]; [set_solver|].
  destruct Hx as [->|Hx]; [apply Hseeds, Hs|].
  apply list_elem_of_fmap in Hx as (e & -> & He).
  apply k_nearest_elem in He. subst g. rewrite sort_neighbors_perm in He.
  pose proof (build_closed cfg b content) as Hc.
  destruct (build cfg b content) as [g0 u]. destruct Hc as [_ Hc].
  simpl in *. eapply Hc. exact He.
Qed.

(** X5.  The table of the k-nearest strategy.  It is never empty; the
    number of seeds is [int(n * rate)] for its n rows; every seed is
    masked; every variant listed has at least one neighbor; and for a
    non-negative k no more than k + 1 variants are masked per seed. *)
Theorem knearest_table_invariants cfg content b w df w' :
  create_mask_from_ld cfg content b w = (Ok df, w') ->
  rows df <> []
  /\ int_scaled (length (rows df)) (missing_rate cfg) = Ok (Z.of_nat (flag_count 4 df))
  /\ (forall row, row ∈ rows df -> is_true (row !! 4) = true -> is_true (row !! 3) = true)
  /\ (forall row, row ∈ rows df -> exists n, row !! 5 = Some (CInt n) /\ (1 <= n)%Z)
  /\ flag_count 4 df <= flag_count 3 df <= length (rows df)
  /\ ((0 <= k cfg)%Z ->
      flag_count 3 df <= flag_count 4 df * (1 + Z.to_nat (k cfg))).
Proof.
  intros Hrun.
  destruct (knearest_table _ _ _ _ _ _ Hrun)
    as (t & seeds & Ht & Hk & Hnd & Hlen & Hsub & Hne & Hall).
  pose proof (build_closed cfg b content) as Hclosed.
  pose proof (mask_seeds_closed cfg b content seeds) as Hmc.
  set (g := sort_neighbors (build cfg b content).1) in *.
  set (ids := sorted_strs (build cfg b content).2) in *.
  set (masked := mask_seeds cfg g seeds) in *.
  pose proof (Forall2_length _ _ _ Hall) as Hn.
  assert (Hids : forall x, x ∈ ids <-> x ∈ (build cfg b content).2)
    by (intros x; apply sorted_strs_spec).
  assert (Hseeds : flag_count 4 df = length seeds).
  { unfold flag_count.
    rewrite (flag_count_Forall2 (fun snp => snp ∈ seeds) 4 ids (rows df)).
    - apply filter_NoDup_length; [apply sorted_strs_NoDup|exact Hnd|].
      intros x. split; [intros Hx; split; [apply Hsub, Hx|exact Hx]|tauto].
    - eapply Forall2_impl; [exact Hall|].
      intros snp row (c0 & c1 & _ & _ & ->). reflexivity. }
  assert (Hmasked : flag_count 3 df = size masked).
  { unfold flag_count.
    rewrite (flag_count_Forall2 (fun snp => snp ∈ masked) 3 ids (rows df)).
    - apply filter_NoDup_length; [apply sorted_strs_NoDup|apply NoDup_elements|].
      intros x. rewrite elem_of_elements. split; [|tauto].
      intros Hx. split; [|exact Hx]. apply Hids, Hmc; [|exact Hx].
      intros s Hs. apply Hids, Hsub, Hs.
    - eapply Forall2_impl; [exact Hall|].
      intros snp row (c0 & c1 & _ & _ & ->). reflexivity. }
  assert (Hsm : forall s, s ∈ seeds -> s ∈ masked).
  { intros s Hs. subst masked. unfold mask_seeds.
    apply foldl_mask_seed_elem. right. exists s. auto. }
  split; [|split; [|split; [|split; [|split]]]].
  - intros Hnil. rewrite Hnil in Hn. destruct ids; [contradiction|discriminate].
  - rewrite <- Hn, Ht, Hseeds, Hlen. f_equal. lia.
  - intros row Hrow Hseed.
    apply list_elem_of_lookup in Hrow as [i Hi].
    destruct (Forall2_lookup_r _ _ _ _ _ Hall Hi) as (snp & _ & c0 & c1 & _ & _ & ->).
    simpl in Hseed |- *.
    destruct (bool_decide (snp ∈ seeds)) eqn:Es; [|discriminate].
    apply bool_decide_eq_true_1 in Es.
    rewrite (bool_decide_eq_true_2 _ (Hsm _ Es)). reflexivity.
  - intros row Hrow.
    apply list_elem_of_lookup in Hrow as [i Hi].
    destruct (Forall2_lookup_r _ _ _ _ _ Hall Hi) as (snp & Hsnp & c0 & c1 & _ & _ & ->).
    eexists. split; [reflexivity|].
    apply list_elem_of_lookup_2, Hids in Hsnp.
    assert (Hlen' : length (neighbors g snp) <> 0).
    { subst g. rewrite sort_neighbors_perm.
      destruct (build cfg b content) as [g0 u]. destruct Hclosed as [Hc _].
      simpl in *. apply Hc in Hsnp. destruct (neighbors g0 snp); [contradiction|discriminate]. }
    lia.
  - rewrite Hseeds, Hmasked, <- Hn. split.
    + rewrite <- (size_list_to_set (C:=gset string) seeds) by exact Hnd.
      apply subseteq_size. intros s Hs. apply elem_of_list_to_set in Hs. apply Hsm, Hs.
    + rewrite <- (size_list_to_set (C:=gset string) ids) by apply sorted_strs_NoDup.
      apply subseteq_size. intros x Hx. apply elem_of_list_to_set, Hids, Hmc; [|exact Hx].
      intros s Hs. apply Hids, Hsub, Hs.
  - intros Hk0. rewrite Hseeds, Hmasked. subst masked. unfold mask_seeds.
    pose proof (mask_seeds_size cfg g seeds ∅ Hk0) as Hs.
    rewrite size_empty in Hs. lia.
Qed.

(** X6.  The k-nearest strategy too passes the seed count on unclamped:
    a rate that asks for a negative number of seeds, or for more seeds than
    there are variants, ends in [ValueError] with nothing written. *)
Theorem knearest_out_of_range_raises cfg content b w t :
  let ids := sorted_strs (build cfg b content).2 in
  int_scaled (length ids) (missing_rate cfg) = Ok t ->
  (t < 0 \/ Z.of_nat (length ids) < t)%Z ->
  exists w', create_mask_from_ld cfg content b w = (Raise ValueError, w')
             /\ w_disk w' = w_disk w.
Proof.
  intros ids Ht Hout. unfold create_mask_from_ld. subst ids.
  destruct (build cfg b content) as [g u]. simpl in Ht, Hout.
  rewrite Ht. run_step. run_step.
  rewrite (bind_raise _ _ _ _ _ (np_choice_refuses _ t _ Hout)).
  eexists. split; reflexivity.
Qed.

End KNearestTable.

(** ** The random strategy beyond the admissible rates *)

Section RandomTable.
Context `{NumPy}.
Import RandomMasking.

(** For any non-negative target the three stages end with
    [min(target, n)] indices, all below n, and never raise. *)
Lemma apply_structured_masking_clamps cfg (snp_list : list string)
  (m0 m1 m2 : list float) (t : Z) (w : world) :
  length m0 = length snp_list ->
  length m1 = length snp_list ->
  int_scaled (length snp_list) (missing_rate cfg) = Ok t ->
  (0 <= t)%Z ->
  exists masked w',
    apply_structured_masking cfg snp_list [m0; m1; m2] w = (Ok masked, w')
    /\ size masked = Z.to_nat t `min` length snp_list
    /\ (forall i, i ∈ masked -> i < length snp_list)
    /\ w_disk w' = w_disk w.
Proof.
  intros Hm0 Hm1 Hint Ht.
  set (n := length snp_list) in *.
  set (p := Z.to_nat t `min` n).
  set (primary := take p (np_argsort m0)).
  set (kept := filter (fun i => passes m1 i = true) primary).
  set (pool := filter (fun i => i ∉ (list_to_set kept : gset nat)) (seq 0 n)).
  destruct (argsort_facts m0) as (Hlen & Hnd & Hmem).
  assert (Hplen : length primary = p).
  { subst primary. rewrite length_take. lia. }
  assert (Hpnd : NoDup primary).
  { subst primary. eapply sublist_NoDup; [exact Hnd|apply sublist_take]. }
  assert (Hpn : forall i, i ∈ primary -> i < n).
  { intros i Hi. rewrite <- Hm0. apply Hmem.
    subst primary. apply elem_of_take in Hi as (q & Hq & _).
    eapply list_elem_of_lookup_2. exact Hq. }
  assert (Hpb : Forall (fun i => i < length m1) primary).
  { apply Forall_forall. intros i Hi. rewrite Hm1. apply Hpn, Hi. }
  assert (Hknd : NoDup kept) by (apply NoDup_filter, Hpnd).
  assert (Hklen : length kept <= p).
  { rewrite <- Hplen. apply length_filter. }
  assert (Hkb : forall i, i ∈ (list_to_set kept : gset nat) -> i < n).
  { intros i Hi. apply elem_of_list_to_set in Hi.
    apply list_elem_of_filter in Hi as [_ Hi]. apply Hpn, Hi. }
  assert (Hsize : size (list_to_set kept : gset nat) = length kept)
    by (apply size_list_to_set, Hknd).
  assert (Hpool : length pool = n - length kept).
  { subst pool. rewrite pool_length by exact Hkb. rewrite Hsize. reflexivity. }
  unfold apply_structured_masking. fold n. rewrite Hint. run_step.
  cbn [index lookup list_lookup]. run_step.
  rewrite slice_to_nonneg by lia. rewrite Hlen, Hm0.
  fold p. fold primary. run_step.
  destruct (take_at_ok m1 primary Hpb) as (sel & Hsel & HF).
  rewrite Hsel. do 2 run_step.
  rewrite (bind_ok _ _ _ _ _ (stage2_runs primary m1 sel w Hpnd HF)).
  fold kept. rewrite Hsize.
  destruct (0 <? t - Z.of_nat (length kept))%Z eqn:Hrem.
  - apply Z.ltb_lt in Hrem. fold pool.
    destruct (decide (pool = [])) as [Hnil|Hpne].
    + assert (Hmatch : forall (X : Type) (a b : X),
                 match pool with [] => a | _ :: _ => b end = a).
      { intros X a b. rewrite Hnil. reflexivity. }
      rewrite Hmatch. unfold ret. eexists _, w. split; [reflexivity|].
      rewrite Hnil in Hpool. simpl in Hpool.
      split; [rewrite Hsize; lia|]. split; [exact Hkb|reflexivity].
    + assert (Hmatch : forall (X : Type) (a b : X),
                 match pool with [] => a | _ :: _ => b end = b).
      { intros X a b. destruct pool; [contradiction|reflexivity]. }
      rewrite Hmatch.
      destruct (np_choice_runs pool
                  (Z.min (t - Z.of_nat (length kept)) (Z.of_nat (length pool))) w)
        as (extra & w' & Hrun & Hdisk & Hend & Helen & Hesub).
      { subst pool. apply NoDup_filter, NoDup_seq. }
      { lia. }
      rewrite (bind_ok _ _ _ _ _ Hrun). unfold ret.
      eexists _, w'. split; [reflexivity|]. split; [|split; [|exact Hdisk]].
      * rewrite size_union.
        -- rewrite Hsize, size_list_to_set by exact Hend. lia.
        -- intros i Hi1 Hi2. apply elem_of_list_to_set in Hi2.
           apply Hesub in Hi2.
           apply list_elem_of_filter in Hi2 as [Hni _]. apply Hni, Hi1.
      * intros i Hi. apply elem_of_union in Hi as [Hi|Hi]; [apply Hkb, Hi|].
        apply elem_of_list_to_set, Hesub in Hi.
        apply list_elem_of_filter in Hi as [_ Hi]. apply elem_of_seq in Hi. lia.
  - apply Z.ltb_ge in Hrem. unfold ret. eexists _, w. split; [reflexivity|].
    split; [rewrite Hsize; lia|]. split; [exact Hkb|reflexivity].
Qed.

(** X7.  The random strategy clamps where the column-wise strategy
    refuses: a rate that asks for as many variants as there are, or for
    more, masks every variant, and no exception is raised. *)
Theorem random_rate_above_one_masks_all cfg (snp_list : list string)
  (m0 m1 m2 : list float) (t : Z) (w : world) :
  length m0 = length snp_list ->
  length m1 = length snp_list ->
  int_scaled (length snp_list) (missing_rate cfg) = Ok t ->
  (Z.of_nat (length snp_list) <= t)%Z ->
  exists masked w',
    apply_structured_masking cfg snp_list [m0; m1; m2] w = (Ok masked, w')
    /\ (forall i, i ∈ masked <-> i < length snp_list)
    /\ w_disk w' = w_disk w.
Proof.
  intros Hm0 Hm1 Hint Ht.
  destruct (apply_structured_masking_clamps cfg snp_list m0 m1 m2 t w Hm0 Hm1 Hint)
    as (masked & w' & Hrun & Hsize & Hbound & Hdisk); [lia|].
  exists masked, w'. split; [exact Hrun|]. split; [|exact Hdisk].
  intros i. split; [apply Hbound|]. intros Hi.
  assert (Heq : masked = list_to_set (seq 0 (length snp_list))).
  { apply set_subseteq_size_eq.
    - intros j Hj. apply elem_of_list_to_set, elem_of_seq. specialize (Hbound j Hj). lia.
    - rewrite size_list_to_set by apply NoDup_seq. rewrite length_seq. lia. }
  rewrite Heq. apply elem_of_list_to_set, elem_of_seq. lia.
Qed.

Lemma imap_pair_fst {A} (l : list A) (f : nat -> nat) :
  (imap (fun i x => (f i, x)) l).*1 = f <$> seq 0 (length l).
Proof.
  revert f. induction l as [|x l IH]; intros f; [reflexivity|].
  rewrite imap_cons. simpl. f_equal.
  rewrite <- fmap_S_seq, <- list_fmap_compose. apply (IH (fun i => f (S i))).
Qed.

Lemma filter_index_length {A} (l : list A) (s : gset nat) :
  (forall i, i ∈ s -> i < length l) ->
  length (filter (fun ix : nat * A => ix.1 ∈ s) (imap (fun i x => (i, x)) l)) = size s.
Proof.
  intros Hb.
  assert (Hf : length (filter (fun ix : nat * A => ix.1 ∈ s) (imap (fun i x => (i, x)) l))
               = length (filter (fun i => i ∈ s) (imap (fun i x => (i, x)) l).*1)).
  { generalize (imap (fun i (x : A) => (i, x)) l). intros ps.
    induction ps as [|q ps IH]; [reflexivity|].
    rewrite fmap_cons, !filter_cons.
    destruct (decide (q.1 ∈ s)); simpl; rewrite IH; reflexivity. }
  rewrite Hf, (imap_pair_fst l (fun i => i)), list_fmap_id.
  apply filter_NoDup_length; [apply NoDup_seq|apply NoDup_elements|].
  intros i. rewrite elem_of_elements, elem_of_seq. split; [|tauto].
  intros Hi. specialize (Hb i Hi). split; [lia|exact Hi].
Qed.

Lemma random_row_shape mask_sets masked qms acc (ix : nat * string) w acc' w' :
  mask_row mask_sets masked qms acc ix w = (Ok acc', w') ->
  exists row, acc' = acc ++ [row]
    /\ exists c0 c1 s1 s2 s3,
         index (split_on "_" ix.2) 0 = Ok c0 /\ index (split_on "_" ix.2) 1 = Ok c1
         /\ row = [CStr c0; CStr c1; CStr ix.2; CBool (bool_decide (ix.1 ∈ masked));
                   s1; s2; s3; CFloat qms].
Proof.
  unfold mask_row. destruct ix as [i snp]. intros Hrun.
  apply lift_bind_ok in Hrun as (s1 & _ & Hrun).
  apply lift_bind_ok in Hrun as (s2 & _ & Hrun).
  apply lift_bind_ok in Hrun as (s3 & _ & Hrun).
  apply lift_bind_ok in Hrun as (c0 & Hc0 & Hrun).
  apply lift_bind_ok in Hrun as (c1 & Hc1 & Hrun).
  unfold ret in Hrun. injection Hrun as <- <-.
  eexists. split; [reflexivity|]. exists c0, c1, s1, s2, s3. auto.
Qed.

(** What a returned table of the random strategy looks like. *)
Lemma random_table cfg content b w df w' :
  create_mask_from_ld cfg content b w = (Ok df, w') ->
  let ids := sorted_strs (scan collect_snps b content ∅) in
  exists (masked : gset nat) (qms : float) t,
    ids <> []
    /\ int_scaled (length ids) (missing_rate cfg) = Ok t
    /\ ((0 <= t)%Z -> size masked = Z.to_nat t `min` length ids
                      /\ forall i, i ∈ masked -> i < length ids)
    /\ quantify_masking_strength ids masked = Ok qms
    /\ Forall2 (fun (ix : nat * string) row =>
                  exists c0 c1 s1 s2 s3,
                    index (split_on "_" ix.2) 0 = Ok c0
                    /\ index (split_on "_" ix.2) 1 = Ok c1
                    /\ row = [CStr c0; CStr c1; CStr ix.2;
                              CBool (bool_decide (ix.1 ∈ masked));
                              s1; s2; s3; CFloat qms])
               (imap (fun i snp => (i, snp)) ids) (rows df).
Proof.
  intros Hrun ids. unfold create_mask_from_ld in Hrun. fold ids in Hrun.
  apply bind_inv_ok in Hrun as (mask_sets & w1 & Hgen & Hrun).
  destruct (generate_random_masks_lengths cfg (length ids) w
              (generate_random_masks_inv _ _ _ _ _ Hgen))
    as (m0 & m1 & m2 & w1' & Hgen' & Hl0 & Hl1 & _).
  rewrite Hgen in Hgen'. injection Hgen' as -> <-.
  apply bind_inv_ok in Hrun as (masked & w2 & Happ & Hrun).
  apply lift_bind_ok in Hrun as (qms & Hq & Hrun).
  apply lift_bind_ok in Hrun as (r1 & Hdiv & Hrun).
  apply bind_inv_ok in Hrun as (mask_data & w3 & Hrows & Hrun).
  apply lift_bind_ok in Hrun as (mask_df & Hdf & Hrun).
  destruct (mask_table_built _ _ _ _ _ _ _ _
              (random_row_mixed _ _ _) Hrows Hdf) as [-> _].
  rewrite bind_write_csv in Hrun.
  apply lift_bind_ok in Hrun as (r2 & _ & Hrun).
  unfold ret in Hrun. injection Hrun as <- <-.
  assert (Ht : exists t, int_scaled (length ids) (missing_rate cfg) = Ok t).
  { unfold apply_structured_masking in Happ.
    apply lift_bind_ok in Happ as (t & Ht & _). exists t. exact Ht. }
  destruct Ht as [t Ht].
  exists masked, qms, t. split.
  { intros Hnil. rewrite Hnil in Hdiv. simpl in Hdiv.
    rewrite truediv_zero in Hdiv. discriminate. }
  split; [exact Ht|]. split.
  { intros Ht0.
    destruct (apply_structured_masking_clamps cfg ids m0 m1 m2 t w1 Hl0 Hl1 Ht Ht0)
      as (masked' & w2' & Happ' & Hsize & Hbound & _).
    rewrite Happ in Happ'. injection Happ' as <- <-. auto. }
  split; [exact Hq|]. cbn [rows].
  destruct (for_each_Forall2
              (fun (ix : nat * string) row =>
                 exists c0 c1 s1 s2 s3,
                   index (split_on "_" ix.2) 0 = Ok c0
                   /\ index (split_on "_" ix.2) 1 = Ok c1
                   /\ row = [CStr c0; CStr c1; CStr ix.2;
                             CBool (bool_decide (ix.1 ∈ masked));
                             s1; s2; s3; CFloat qms])
              (imap (fun i snp => (i, snp)) ids) (mask_row [m0; m1; m2] masked qms)
              (fun acc x w acc' w' _ Hb =>
                 random_row_shape _ masked qms acc x w acc' w' Hb)
              _ _ _ _ Hrows) as (new & -> & Hall).
  exact Hall.
Qed.

(** X8.  The table of the random strategy.  It is never empty; for a
    non-negative target [int(n * rate)] the number of rows with MASKED =
    True is the target, or n when the target exceeds n; and the QMS column
    holds one and the same score in every row. *)
Theorem random_table_invariants cfg content b w df w' :
  create_mask_from_ld cfg content b w = (Ok df, w') ->
  rows df <> []
  /\ (exists t,
        int_scaled (length (rows df)) (missing_rate cfg) = Ok t
        /\ ((0 <= t)%Z -> flag_count 3 df = Z.to_nat t `min` length (rows df)))
  /\ (exists qms, Forall (fun row => row !! 7 = Some (CFloat qms)) (rows df))
  /\ w_disk w' = Some df.
Proof.
  intros Hrun.
  destruct (random_table _ _ _ _ _ _ Hrun)
    as (masked & qms & t & Hne & Ht & Hsize & _ & Hall).
  set (ids := sorted_strs (scan collect_snps b content ∅)) in *.
  pose proof (Forall2_length _ _ _ Hall) as Hn. rewrite length_imap in Hn.
  split; [|split; [|split]].
  - intros Hnil. rewrite Hnil in Hn. destruct ids; [contradiction|discriminate].
  - exists t. rewrite <- Hn. split; [exact Ht|]. intros Ht0.
    destruct (Hsize Ht0) as [Hs Hb]. rewrite <- Hs. unfold flag_count.
    rewrite (flag_count_Forall2 (fun ix : nat * string => ix.1 ∈ masked) 3
               (imap (fun i snp => (i, snp)) ids) (rows df)).
    + apply filter_index_length, Hb.
    + eapply Forall2_impl; [exact Hall|].
      intros ix row (c0 & c1 & s1 & s2 & s3 & _ & _ & ->). reflexivity.
  - exists qms. apply Forall_forall. intros row Hrow.
    apply list_elem_of_lookup in Hrow as [i Hi].
    destruct (Forall2_lookup_r _ _ _ _ _ Hall Hi)
      as (ix & _ & c0 & c1 & s1 & s2 & s3 & _ & _ & ->).
    reflexivity.
  - apply (random_column _ _ _ _ _ _ Hrun).
Qed.

End RandomTable.

(** ** The masking-strength score *)

Section Strength.
Context `{NumPy}.
Import RandomMasking.

Lemma parse_positions_ok (snps : list string) :
  Forall (fun s => exists p z, index (split_on "_" s) 1 = Ok p /\ int_of_str p = Some z)
         snps ->
  exists ps, parse_positions snps = Ok ps /\ length ps = length snps.
Proof.
  induction 1 as [|s snps (p & z & Hp & Hz) _ (ps & Hps & Hlen)]; simpl.
  - exists []. split; reflexivity.
  - rewrite Hp, Hz, Hps. exists (z :: ps). simpl. rewrite Hlen. split; reflexivity.
Qed.

Lemma parse_positions_raises (snps : list string) s p :
  Forall (fun s => exists a b, s = key a b) snps ->
  s ∈ snps -> index (split_on "_" s) 1 = Ok p -> int_of_str p = None ->
  parse_positions snps = Raise ValueError.
Proof.
  intros Hall Hin Hp Hnone. induction Hall as [|s0 snps (a & b & ->) Hall IH].
  - apply elem_of_nil in Hin. contradiction.
  - simpl. destruct (split_key a b) as (c0 & c1 & _ & Hc1). rewrite Hc1.
    destruct (int_of_str c1) as [z|] eqn:Ez; [|reflexivity].
    apply elem_of_cons in Hin as [->|Hin].
    + rewrite Hc1 in Hp. injection Hp as ->. rewrite Hnone in Ez. discriminate.
    + rewrite (IH Hin). reflexivity.
Qed.

(** X9.  The score is computed from the positions of all variants, and
    a position is read with [int()]: one key whose second part is not an
    integer makes the score fail with [ValueError], whichever variants are
    masked.  A chromosome name with an underscore in it is enough. *)
Theorem quantify_rejects_non_integer_position (snps : list string)
  (masked_indices : gset nat) (s p : string) :
  Forall (fun s => exists a b, s = key a b) snps ->
  s ∈ snps ->
  index (split_on "_" s) 1 = Ok p ->
  int_of_str p = None ->
  quantify_masking_strength snps masked_indices = Raise ValueError.
Proof.
  intros Hall Hin Hp Hnone. unfold quantify_masking_strength.
  rewrite (parse_positions_raises snps s p Hall Hin Hp Hnone). reflexivity.
Qed.

(** X10.  When every position is an integer and the masked indices are
    indices of the list, the score is computed: no division by zero can
    occur, and with fewer than two masked variants the score is 0.0. *)
Theorem quantify_masking_strength_total (snps : list string)
  (masked_indices : gset nat) :
  Forall (fun s => exists p z, index (split_on "_" s) 1 = Ok p /\ int_of_str p = Some z)
         snps ->
  (forall i, i ∈ masked_indices -> i < length snps) ->
  exists q,
    quantify_masking_strength snps masked_indices = Ok q
    /\ (size masked_indices < 2 -> q = flit 0 0).
Proof.
  intros Hall Hb. unfold quantify_masking_strength.
  destruct (parse_positions_ok snps Hall) as (ps & -> & Hlen).
  destruct (take_at_ok ps (elements masked_indices)) as (xs & -> & HF).
  { apply Forall_forall. intros i Hi. apply elem_of_elements in Hi.
    rewrite Hlen. apply Hb, Hi. }
  apply Forall2_length in HF.
  assert (Hxs : length xs = size masked_indices) by (symmetry; exact HF).
  destruct (length xs <? 2) eqn:Hlt.
  - exists (flit 0 0). split; reflexivity.
  - apply Nat.ltb_ge in Hlt.
    assert (Hne : length snps <> 0).
    { destruct (elements masked_indices) as [|i l] eqn:Ee; [simpl in HF; lia|].
      assert (Hi : i ∈ masked_indices)
        by (apply elem_of_elements; rewrite Ee; apply list_elem_of_here).
      specialize (Hb i Hi). lia. }
    unfold truediv. destruct (Z.eqb_spec (Z.of_nat (length snps)) 0) as [Hz|_]; [lia|].
    eexists. split; [reflexivity|]. intros Hsmall. lia.
Qed.

End Strength.

(** ** The CHR and POS columns *)

Section ChrPos.
Context `{NumPy}.

Lemma collect_lines b content x :
  x ∈ scan collect_snps b content ∅ ->
  exists line r, line ∈ open_text content /\ fields line = Some r
                 /\ (x = snp_a r \/ x = snp_b r).
Proof.
  unfold scan. rewrite foldl_concat. intros Hx.
  apply foldl_collect_snps_elem in Hx as [Hx|(line & r & Hin & Hf & Hx)].
  - apply elem_of_empty in Hx. contradiction.
  - exists line, r. split; [eapply batches_lines; exact Hin|]. auto.
Qed.

Lemma build_lines cfg b content x :
  x ∈ (KNearest.build cfg b content).2 ->
  exists line r, line ∈ open_text content /\ fields line = Some r
                 /\ (x = snp_a r \/ x = snp_b r).
Proof.
  intros Hx. apply build_unique in Hx as (line & a & b' & v & Hin & He & Hx).
  apply edge_of_spec in He as (r & Hf & _ & _ & -> & ->).
  exists line, r. split; [eapply batches_lines; exact Hin|]. auto.
Qed.

Lemma key_columns (x c0 c1 : string) (r : ld_row) :
  occurrences "_" (CHR_A r) = 0 /\ occurrences "_" (BP_A r) = 0
  /\ occurrences "_" (CHR_B r) = 0 /\ occurrences "_" (BP_B r) = 0 ->
  x = snp_a r \/ x = snp_b r ->
  index (split_on "_" x) 0 = Ok c0 -> index (split_on "_" x) 1 = Ok c1 ->
  exists chr pos,
    [CStr c0; CStr c1; CStr x] = [CStr chr; CStr pos; CStr (key chr pos)]
    /\ (chr = CHR_A r /\ pos = BP_A r \/ chr = CHR_B r /\ pos = BP_B r).
Proof.
  intros (Ha & Hpa & Hb & Hpb) Hx Hc0 Hc1. destruct Hx as [->| ->].
  - exists (CHR_A r), (BP_A r). unfold snp_a in *.
    rewrite split_on_key in Hc0, Hc1 by assumption.
    injection Hc0 as <-. injection Hc1 as <-. split; [reflexivity|]. left. auto.
  - exists (CHR_B r), (BP_B r). unfold snp_b in *.
    rewrite split_on_key in Hc0, Hc1 by assumption.
    injection Hc0 as <-. injection Hc1 as <-. split; [reflexivity|]. right. auto.
Qed.

(** X11.  When no chromosome name and no position of the file holds an
    underscore, the CHR and POS columns of a returned table give back the
    two fields the key in SNP_ID was built from: every row starts with the
    chromosome, the position and the key of an endpoint of some data line.
    This holds for the column-wise, the random and the k-nearest table. *)
Theorem chr_pos_columns_round_trip (content : string) (b : nat)
  (w : world) (df : DataFrame) (w' : world) :
  (forall line r, line ∈ open_text content -> fields line = Some r ->
     occurrences "_" (CHR_A r) = 0 /\ occurrences "_" (BP_A r) = 0
     /\ occurrences "_" (CHR_B r) = 0 /\ occurrences "_" (BP_B r) = 0) ->
  (exists cfg, Columnwise.create_mask_from_ld cfg content b w = (Ok df, w'))
  \/ (exists cfg, RandomMasking.create_mask_from_ld cfg content b w = (Ok df, w'))
  \/ (exists cfg, KNearest.create_mask_from_ld cfg content b w = (Ok df, w')) ->
  forall row, row ∈ rows df ->
    exists chr pos,
      take 3 row = [CStr chr; CStr pos; CStr (key chr pos)]
      /\ exists line r,
           line ∈ open_text content /\ fields line = Some r
           /\ (chr = CHR_A r /\ pos = BP_A r \/ chr = CHR_B r /\ pos = BP_B r).
Proof.
  intros Hfree Hrun row Hrow.
  assert (Hgoal : exists x c0 c1,
             take 3 row = [CStr c0; CStr c1; CStr x]
             /\ index (split_on "_" x) 0 = Ok c0 /\ index (split_on "_" x) 1 = Ok c1
             /\ exists line r, line ∈ open_text content /\ fields line = Some r
                               /\ (x = snp_a r \/ x = snp_b r)).
  { apply list_elem_of_lookup in Hrow as [i Hi].
    destruct Hrun as [[cfg Hrun]|[[cfg Hrun]|[cfg Hrun]]].
    - destruct (columnwise_table _ _ _ _ _ _ Hrun) as (t & masked & _ & _ & _ & _ & _ & Hall).
      destruct (Forall2_lookup_r _ _ _ _ _ Hall Hi) as (x & Hx & c0 & c1 & Hc0 & Hc1 & ->).
      exists x, c0, c1. split; [reflexivity|]. split; [exact Hc0|]. split; [exact Hc1|].
      apply (collect_lines b). apply sorted_strs_spec.
      eapply list_elem_of_lookup_2. exact Hx.
    - destruct (random_table _ _ _ _ _ _ Hrun) as (masked & qms & t & _ & _ & _ & _ & Hall).
      destruct (Forall2_lookup_r _ _ _ _ _ Hall Hi)
        as ([j x] & Hx & c0 & c1 & s1 & s2 & s3 & Hc0 & Hc1 & ->).
      exists x, c0, c1. split; [reflexivity|]. split; [exact Hc0|]. split; [exact Hc1|].
      apply (collect_lines b). apply sorted_strs_spec.
      apply list_lookup_imap_Some in Hx as (x' & Hx' & Heq). injection Heq as _ ->.
      eapply list_elem_of_lookup_2. exact Hx'.
    - destruct (knearest_table _ _ _ _ _ _ Hrun)
        as (t & seeds & _ & _ & _ & _ & _ & _ & Hall).
      destruct (Forall2_lookup_r _ _ _ _ _ Hall Hi) as (x & Hx & c0 & c1 & Hc0 & Hc1 & ->).
      exists x, c0, c1. split; [reflexivity|]. split; [exact Hc0|]. split; [exact Hc1|].
      apply (build_lines cfg b). apply sorted_strs_spec.
      eapply list_elem_of_lookup_2. exact Hx. }
  destruct Hgoal as (x & c0 & c1 & Htake & Hc0 & Hc1 & line & r & Hin & Hf & Hx).
  destruct (key_columns x c0 c1 r (Hfree line r Hin Hf) Hx Hc0 Hc1)
    as (chr & pos & Heq & Hend).
  exists chr, pos. split; [rewrite Htake; exact Heq|].
  exists line, r. auto.
Qed.

End ChrPos.

(** ** The row-wise strategy *)

Section RowwiseFacts.
Context `{NumPy}.
Import Rowwise.

Lemma omap_fmap_S {A} (f : nat -> option A) (l : list nat) :
  omap f (S <$> l) = omap (fun i => f (S i)) l.
Proof.
  induction l as [|i l IH]; [reflexivity|].
  csimpl. rewrite IH. reflexivity.
Qed.

Lemma omap_lookup_seq {A} (l : list A) :
  omap (fun i => l !! i) (seq 0 (length l)) = l.
Proof.
  induction l as [|x l IH]; [reflexivity|].
  cbn [length seq]. rewrite <- fmap_S_seq. csimpl. rewrite omap_fmap_S.
  f_equal. exact IH.
Qed.

(** [np.random.shuffle] rearranges the list and does nothing else. *)
Lemma np_shuffle_perm {A} (l : list A) w :
  exists l' w', np_shuffle l w = (Ok l', w') /\ l' ≡ₚ l /\ w_disk w' = w_disk w.
Proof.
  unfold np_shuffle. run_step. unfold ret.
  eexists _, _. split; [reflexivity|]. split; [|reflexivity].
  rewrite (np_shuffle_idx_perm (length l) (w_rng w)).
  rewrite omap_lookup_seq. reflexivity.
Qed.

Lemma dict_set_fresh {V} (k : string) (v : V) (d : list (string * V)) :
  k ∉ d.*1 -> dict_set k v d = d ++ [(k, v)].
Proof.
  induction d as [|[k' v'] d IH]; intros Hk; [reflexivity|].
  simpl. rewrite fmap_cons, not_elem_of_cons in Hk. destruct Hk as [Hne Hk].
  simpl in Hne. destruct (decide (k = k')) as [->|_]; [contradiction|].
  rewrite IH by exact Hk. reflexivity.
Qed.

Lemma dict_get_set {V} (k : string) (v : V) (d : list (string * V)) :
  dict_get k (dict_set k v d) = Some v.
Proof.
  induction d as [|[k' v'] d IH]; simpl.
  - rewrite decide_True by reflexivity. reflexivity.
  - destruct (decide (k = k')) as [->|Hne]; simpl.
    + rewrite decide_True by reflexivity. reflexivity.
    + rewrite decide_False by exact Hne. exact IH.
Qed.

(** Overwriting a place that does not hold the missing-value code adds
    one to the number of missing values. *)
Lemma count_insert (a : list Z) (i : nat) (v : Z) :
  a !! i = Some v -> v <> (-9)%Z ->
  length (filter (fun g => g = (-9)%Z) (<[i := (-9)%Z]> a))
  = S (length (filter (fun g => g = (-9)%Z) a)).
Proof.
  intros Hi Hv.
  assert (Hlt : i < length a) by (eapply lookup_lt_Some; exact Hi).
  rewrite insert_take_drop by exact Hlt.
  rewrite <- (take_drop_middle a i v Hi) at 3.
  rewrite !filter_app, !filter_cons, !length_app.
  rewrite decide_True by reflexivity. rewrite decide_False by exact Hv.
  simpl. lia.
Qed.

Lemma assign_at_count (idx : list nat) (a : list Z) :
  NoDup idx ->
  (forall i, i ∈ idx -> exists v, a !! i = Some v /\ v <> (-9)%Z) ->
  length (filter (fun g => g = (-9)%Z) (assign_at a idx (-9)%Z))
  = length (filter (fun g => g = (-9)%Z) a) + length idx.
Proof.
  unfold assign_at. revert a. induction idx as [|i idx IH]; intros a Hnd Hall; simpl; [lia|].
  apply NoDup_cons in Hnd as [Hni Hnd].
  destruct (Hall i (list_elem_of_here _ _)) as (v & Hv & Hne).
  rewrite IH.
  - rewrite (count_insert a i v Hv Hne). lia.
  - exact Hnd.
  - intros j Hj. destruct (Hall j (list_elem_of_further _ _ _ Hj)) as (u & Hu & Hune).
    exists u. split; [|exact Hune].
    rewrite list_lookup_insert_ne; [exact Hu|].
    intros ->. contradiction.
Qed.

Lemma filter_none (a : list Z) :
  (-9)%Z ∉ a -> filter (fun g => g = (-9)%Z) a = [].
Proof.
  induction a as [|x a IH]; intros Hn; [reflexivity|].
  apply not_elem_of_cons in Hn as [Hx Hn].
  rewrite filter_cons, decide_False by (intros ->; contradiction).
  apply IH, Hn.
Qed.

(** What one round of the loop of lines 56-85 records for a sample. *)
Lemma sample_step_inv cfg genotype_data snp_list cats sm i sid w sm' w' :
  sample_step cfg genotype_data snp_list cats sm (i, sid) w = (Ok sm', w') ->
  exists cat geno rate t n_missing,
    index cats i = Ok cat
    /\ dict_item genotype_data sid = Ok geno
    /\ (rate = drawn_rate cat (w_rng w)
        /\ int_scaled (length snp_list) rate = Ok t)
    /\ ((0 < t)%Z -> (t <= Z.of_nat (length snp_list))%Z)
    /\ ((-9)%Z ∉ geno -> length geno = length snp_list ->
        n_missing = Z.to_nat t)
    /\ sm' = dict_set sid
               (mkInfo (length snp_list) n_missing
                  (fmul (fdiv (float_of_nat n_missing) (float_of_nat (length snp_list)))
                        (flit 100 0))
                  cat
                  (fge (fmul (fdiv (float_of_nat n_missing)
                                   (float_of_nat (length snp_list)))
                             (flit 100 0))
                       (fmul (high_missingness_threshold cfg) (flit 100 0))))
               sm.
Proof.
  unfold sample_step. intros Hrun.
  apply lift_bind_ok in Hrun as (cat & Hcat & Hrun).
  apply lift_bind_ok in Hrun as (geno & Hgeno & Hrun).
  apply bind_inv_ok in Hrun as (rate & w1 & Hdraw & Hrun).
  assert (Hrate : rate = drawn_rate cat (w_rng w)).
  { unfold drawn_rate. destruct cat; rewrite draw_run in Hdraw;
      injection Hdraw as <- _; reflexivity. }
  apply lift_bind_ok in Hrun as (t & Ht & Hrun).
  apply bind_inv_ok in Hrun as (geno' & w2 & Hmask & Hrun).
  unfold ret in Hrun. injection Hrun as <- <-.
  exists cat, geno, rate, t, (length (filter (fun g => g = (-9)%Z) geno')).
  split; [exact Hcat|]. split; [exact Hgeno|]. split; [split; [exact Hrate|exact Ht]|].
  destruct (0 <? t)%Z eqn:Hpos.
  - apply Z.ltb_lt in Hpos.
    apply bind_inv_ok in Hmask as (idx & w3 & Hch & Hmask).
    unfold ret in Hmask. injection Hmask as <- <-.
    apply np_choice_inv in Hch as (Hk & Hnd & Hlen & Hsub & _); [|apply NoDup_seq].
    rewrite length_seq in Hk.
    split; [intros _; lia|]. split; [|reflexivity].
    intros Hclean Hgl. rewrite assign_at_count.
    + rewrite filter_none by exact Hclean. simpl. exact Hlen.
    + exact Hnd.
    + intros j Hj. apply Hsub, elem_of_seq in Hj.
      destruct (lookup_lt_is_Some_2 geno j) as [v Hv]; [lia|].
      exists v. split; [exact Hv|]. intros ->.
      apply Hclean. eapply list_elem_of_lookup_2. exact Hv.
  - apply Z.ltb_ge in Hpos. unfold ret in Hmask. injection Hmask as <- <-.
    split; [intros Hlt; lia|]. split; [|reflexivity].
    intros Hclean _. rewrite filter_none by exact Hclean. simpl. lia.
Qed.

(** X12.  One sample of the row-wise strategy.  The record of the
    sample carries the category the sample was given.  The rate of the
    sample is the one [np.random.uniform] draws, in the state the generator
    is in when the sample is reached, from the interval of that category.
    For a genotype vector with one entry per variant and no missing value
    in it, the recorded number of missing genotypes is [int(n * rate)] for
    that rate (zero when that is negative), and it never exceeds the number
    of variants. *)
Theorem sample_step_missing_count cfg genotype_data snp_list cats sm i sid geno w sm' w' :
  dict_item genotype_data sid = Ok geno ->
  length geno = length snp_list ->
  (-9)%Z ∉ geno ->
  sample_step cfg genotype_data snp_list cats sm (i, sid) w = (Ok sm', w') ->
  exists e t,
    dict_get sid sm' = Some e
    /\ index cats i = Ok (category_ e)
    /\ int_scaled (length snp_list) (drawn_rate (category_ e) (w_rng w)) = Ok t
    /\ n_missing e = Z.to_nat t
    /\ n_missing e <= n_total e
    /\ n_total e = length snp_list.
Proof.
  intros Hgeno Hlen Hclean Hrun.
  apply sample_step_inv in Hrun
    as (cat & geno' & rate & t & m & Hcat & Hgeno' & [-> Ht] & Hle & Hm & ->).
  rewrite Hgeno in Hgeno'. injection Hgeno' as <-.
  specialize (Hm Hclean Hlen). subst m.
  eexists _, t. split; [apply dict_get_set|]. simpl.
  split; [exact Hcat|]. split; [exact Ht|]. split; [reflexivity|].
  split; [lia|reflexivity].
Qed.

Lemma rowwise_loop cfg genotype_data snp_list cats (xs : list string) :
  forall (k : nat) sm w sm' w',
    NoDup xs -> (forall x, x ∈ xs -> x ∉ sm.*1) ->
    for_each (imap (fun i sid => (k + i, sid)) xs)
             (sample_step cfg genotype_data snp_list cats) sm w = (Ok sm', w') ->
    exists new,
      sm' = sm ++ new /\ new.*1 = xs
      /\ (fun e => category_ e.2) <$> new = take (length xs) (drop k cats)
      /\ Forall (fun e => n_total e.2 = length snp_list) new.
Proof.
  induction xs as [|x xs IH]; intros k sm w sm' w' Hnd Hfresh Hrun.
  - simpl in Hrun. unfold ret in Hrun. injection Hrun as <- <-.
    exists []. rewrite app_nil_r. repeat split; constructor.
  - rewrite imap_cons in Hrun. simpl in Hrun.
    apply bind_inv_ok in Hrun as (sm1 & w1 & Hstep & Hrun).
    apply sample_step_inv in Hstep
      as (cat & geno & rate & t & m & Hcat & _ & _ & _ & _ & ->).
    apply NoDup_cons in Hnd as [Hx Hnd].
    rewrite dict_set_fresh in Hrun by (apply Hfresh, list_elem_of_here).
    rewrite (imap_ext _ (fun i sid => (S k + i, sid))) in Hrun
      by (intros j y _; simpl; f_equal; lia).
    apply IH in Hrun as (new & -> & Hkeys & Hcats & Hall); [|exact Hnd|].
    + eexists (_ :: new). split; [rewrite <- app_assoc; reflexivity|].
      split; [rewrite fmap_cons, Hkeys; reflexivity|]. split.
      * rewrite fmap_cons, Hcats. simpl category_.
        unfold index in Hcat. rewrite Nat.add_0_r in Hcat.
        destruct (cats !! k) as [c|] eqn:Ek; [|discriminate].
        injection Hcat as ->.
        rewrite (drop_S cats cat k Ek). reflexivity.
      * constructor; [reflexivity|exact Hall].
    + intros y Hy. rewrite fmap_app. simpl. intros Hin.
      apply elem_of_app in Hin as [Hin|Hin].
      * apply (Hfresh y); [apply list_elem_of_further, Hy|exact Hin].
      * apply list_elem_of_singleton in Hin. subst y. contradiction.
Qed.

(** X13.  The categories of the row-wise strategy.  With distinct sample
    identifiers, and [int(n * 0.7)] and [int(n * 0.2)] non-negative and
    together no more than n, the samples recorded are the samples given, in
    their order, and the categories handed out are a rearrangement of
    [int(n * 0.7)] times low, [int(n * 0.2)] times medium and high for all
    the samples that remain. *)
Theorem rowwise_category_counts cfg (sample_ids : list string) genotype_data
  snp_list (a b : Z) w sm w' :
  NoDup sample_ids ->
  int_scaled (length sample_ids) (flit 7 (-1)) = Ok a ->
  int_scaled (length sample_ids) (flit 2 (-1)) = Ok b ->
  (0 <= a)%Z -> (0 <= b)%Z -> (a + b <= Z.of_nat (length sample_ids))%Z ->
  apply_rowwise_missing_pattern cfg sample_ids genotype_data snp_list w = (Ok sm, w') ->
  sm.*1 = sample_ids
  /\ (fun e => category_ e.2) <$> sm
     ≡ₚ replicate (Z.to_nat a) low ++ replicate (Z.to_nat b) medium
        ++ replicate (length sample_ids - Z.to_nat a - Z.to_nat b) high
  /\ Forall (fun e => n_total e.2 = length snp_list) sm.
Proof.
  intros Hnd Ha Hb Ha0 Hb0 Hab Hrun.
  unfold apply_rowwise_missing_pattern in Hrun.
  rewrite bind_seed in Hrun by reflexivity. rewrite Ha in Hrun. rewrite bind_lift_ok in Hrun.
  rewrite Hb in Hrun. rewrite bind_lift_ok in Hrun.
  apply bind_inv_ok in Hrun as (cats & w1 & Hsh & Hrun).
  match type of Hsh with
  | np_shuffle ?l _ = _ =>
      destruct (np_shuffle_perm l (mkWorld (np_seed 42) (w_disk w)))
        as (cats' & w1' & Hsh' & Hperm & _)
  end.
  rewrite Hsh in Hsh'. injection Hsh' as <- <-.
  replace (Z.to_nat (Z.of_nat (length sample_ids) - a - b))
    with (length sample_ids - Z.to_nat a - Z.to_nat b) in Hperm by lia.
  assert (Hlen : length cats = length sample_ids).
  { rewrite Hperm, !length_app, !length_replicate. lia. }
  destruct (rowwise_loop cfg genotype_data snp_list cats sample_ids 0 [] w1 sm w')
    as (new & -> & Hkeys & Hcats & Hall).
  - exact Hnd.
  - intros x _ Hin. apply elem_of_nil in Hin. contradiction.
  - exact Hrun.
  - simpl. split; [exact Hkeys|]. split; [|exact Hall].
    rewrite Hcats, drop_0, take_ge by lia. exact Hperm.
Qed.

(** X14.  The three bands of the assessment.  Every sample whose
    missingness percentage is a number is counted in exactly one of the
    bands below 10, from 10 to below 30, and 30 or more; a percentage that
    is NaN, as it is for every sample when there is no variant, is counted
    in none. *)
Theorem assess_bands_partition (sample_missingness : list (string * info)) :
  fle (flit 10 0) (flit 30 0) = true ->
  let stats := assess_missing_patterns sample_missingness in
  low_miss_samples stats + medium_miss_samples stats + high_miss_samples stats
  = length (filter (fun e => fle (missingness_pct e.2) (missingness_pct e.2) = true)
                   sample_missingness).
Proof.
  intros Hab stats. subst stats. unfold assess_missing_patterns. cbn [low_miss_samples medium_miss_samples high_miss_samples].
  destruct (fle_number _ _ Hab) as [Hna Hnb].
  assert (Hband : forall v,
             (if flt v (flit 10 0) then 1 else 0)
             + (if fle (flit 10 0) v && flt v (flit 30 0) then 1 else 0)
             + (if fge v (flit 30 0) then 1 else 0)
             = (if fle v v then 1 else 0)).
  { intros v. unfold flt, fge.
    destruct (fle v v) eqn:Hv.
    - destruct (fle (flit 30 0) v) eqn:Hbv.
      + rewrite (fle_trans _ _ _ Hab Hbv). simpl.
        rewrite andb_false_r. simpl. rewrite andb_false_r. reflexivity.
      + destruct (fle_total v (flit 30 0) Hv Hnb) as [Hvb|Hvb];
          [|rewrite Hvb in Hbv; discriminate].
        rewrite Hvb. simpl.
        destruct (fle (flit 10 0) v) eqn:Hav.
        * simpl. rewrite andb_false_r. reflexivity.
        * destruct (fle_total v (flit 10 0) Hv Hna) as [Hva|Hva];
            [|rewrite Hva in Hav; discriminate].
          rewrite Hva. reflexivity.
    - assert (Hl : forall x, fle v x = false).
      { intros x. destruct (fle v x) eqn:Hx; [|reflexivity].
        apply fle_number in Hx as [Hx _]. rewrite Hx in Hv. discriminate. }
      assert (Hr : forall x, fle x v = false).
      { intros x. destruct (fle x v) eqn:Hx; [|reflexivity].
        apply fle_number in Hx as [_ Hx]. rewrite Hx in Hv. discriminate. }
      rewrite !Hl, !Hr. reflexivity. }
  induction sample_missingness as [|e l IH]; [reflexivity|].
  rewrite fmap_cons, !filter_cons. specialize (Hband (missingness_pct e.2)).
  destruct (flt (missingness_pct e.2) (flit 10 0));
    destruct (fle (flit 10 0) (missingness_pct e.2) && flt (missingness_pct e.2) (flit 30 0));
    destruct (fge (missingness_pct e.2) (flit 30 0));
    destruct (fle (missingness_pct e.2) (missingness_pct e.2));
    simpl in Hband; try discriminate Hband; simpl; lia.
Qed.

End RowwiseFacts.

(** ** The R2 filter of the graph builder as a whole *)

Section FilterOutcome.
Context `{NumPy} `{!Polars}.
Import LDGraphBuilder.

Lemma filter_batch_one cfg (r : ld_row) :
  filter_batch cfg [r]
  = if castable r then Ok (if retained cfg r then [r] else [])
    else Raise InvalidOperationError.
Proof.
  unfold filter_batch, castable, retained, keep. cbn [cast_column].
  destruct (cast_f64 (R2 r)) as [v|]; [|reflexivity].
  cbn [zip_with omap list_omap fst snd].
  destruct (plain_decimal (R2 r) && fge v (r2_threshold cfg)); reflexivity.
Qed.

Lemma filter_batch_outcome cfg (df : list ld_row) :
  filter_batch cfg df
  = if forallb castable df
    then Ok (filter (fun r => retained cfg r = true) df)
    else Raise InvalidOperationError.
Proof.
  induction df as [|r df IH]; [reflexivity|].
  change (r :: df) with ([r] ++ df) at 1.
  rewrite filter_batch_app, IH, filter_batch_one.
  cbn [forallb]. rewrite filter_cons.
  destruct (castable r); [|reflexivity].
  destruct (forallb castable df); [|reflexivity].
  destruct (retained cfg r); reflexivity.
Qed.

(** X15.  The R2 filter of the graph builder, for a positive batch size,
    works on the frame the loader returns.  When the R2 cell of every row
    of that frame converts under the strict cast, the rows retained are the
    rows that pass both conjuncts, in the order of the frame and as often
    as they occur.  When the cell of one row does not convert, the filter
    fails with [InvalidOperationError], whatever the other rows hold.  The
    rows of the frame are the data lines of the file, in file order, when
    no batch holds exactly seven data lines. *)
Theorem filtered_edges_outcome cfg (content : string) (batch_size : nat) :
  0 < batch_size ->
  let df := load_ld_data content batch_size in
  filtered_edges cfg content batch_size
  = (if forallb castable df
     then Ok (filter (fun r => retained cfg r = true) df)
     else Raise InvalidOperationError)
  /\ (lines_as_rows batch_size content = true ->
      df = omap fields (open_text content)).
Proof.
  intros Hb df. split.
  - rewrite filtered_edges_frame by exact Hb. apply filter_batch_outcome.
  - intros Hrows. apply load_ld_data_spec; assumption.
Qed.

End FilterOutcome.

(** ** Clusters of the MAF+cluster strategy *)

Section Clusters.
Context `{NumPy} `{!Sklearn}.
Import MAFCluster.

Lemma eye_lookup (n i j : nat) :
  i < n -> j < n ->
  eye n !! i ≫= (fun r => r !! j) = Some (if Nat.eqb i j then flit 1 0 else flit 0 0).
Proof.
  intros Hi Hj. unfold eye.
  rewrite list_lookup_fmap, lookup_seq_lt by exact Hi. simpl.
  rewrite list_lookup_fmap, lookup_seq_lt by exact Hj. reflexivity.
Qed.

Lemma distance_matrix_empty (snp_positions : list string) (w : world) :
  exists D,
    distance_matrix [] snp_positions w = (Ok D, w)
    /\ length D = length snp_positions
    /\ forall i j, i < length snp_positions -> j < length snp_positions ->
         D !! i ≫= (fun r => r !! j)
         = Some (fsub (flit 1 0) (if Nat.eqb i j then flit 1 0 else flit 0 0)).
Proof.
  unfold distance_matrix. cbn [fmap list_fmap for_each]. rewrite bind_ret. unfold ret.
  eexists. split; [reflexivity|]. split.
  - rewrite length_fmap. unfold eye. rewrite length_fmap, length_seq. reflexivity.
  - intros i j Hi Hj. pose proof (eye_lookup _ i j Hi Hj) as He.
    rewrite list_lookup_fmap.
    destruct (eye (length snp_positions) !! i) as [r|]; [|discriminate].
    simpl in He |- *. rewrite list_lookup_fmap, He. reflexivity.
Qed.

(** X16.  Without an LD row the distance matrix is built: it has one row
    and one column per variant, the distance of a variant to itself is
    1 - 1, and the distance between two variants is 1 - 0, the largest the
    matrix can hold. *)
Theorem distance_matrix_no_edges (snp_positions : list string) (w : world) :
  exists D,
    distance_matrix [] snp_positions w = (Ok D, w)
    /\ length D = length snp_positions
    /\ forall i j, i < length snp_positions -> j < length snp_positions ->
         D !! i ≫= (fun r => r !! j)
         = Some (fsub (flit 1 0) (if Nat.eqb i j then flit 1 0 else flit 0 0)).
Proof. apply distance_matrix_empty. Qed.

Lemma dict_set_keys {V} (k : nat) (v : V) (d : list (nat * V)) x :
  x ∈ (dict_set k v d).*1 <-> x = k \/ x ∈ d.*1.
Proof.
  induction d as [|[k' v'] d IH]; simpl.
  - rewrite list_elem_of_singleton, elem_of_nil. tauto.
  - destruct (decide (k = k')) as [->|Hne]; simpl.
    + rewrite !elem_of_cons. tauto.
    + rewrite !elem_of_cons, IH. tauto.
Qed.

(** Appending a member to its group keeps the groups apart, nonempty,
    and adds this one member. *)
Lemma group_append (l : nat) (s : string) (d : list (nat * list string)) :
  NoDup d.*1 -> Forall (fun g => g <> []) d.*2 ->
  let d' := dict_set l (default [] (dict_get l d) ++ [s]) d in
  NoDup d'.*1 /\ Forall (fun g => g <> []) d'.*2 /\ concat d'.*2 ≡ₚ s :: concat d.*2.
Proof.
  induction d as [|[k v] d IH]; intros Hnd Hne; simpl.
  - split; [apply NoDup_singleton|]. split; [repeat constructor; discriminate|reflexivity].
  - rewrite fmap_cons in Hnd. rewrite fmap_cons in Hne.
    apply NoDup_cons in Hnd as [Hk Hnd].
    apply Forall_cons in Hne as [Hv Hne]. simpl in Hk, Hv.
    destruct (decide (l = k)) as [->|Hlk]; simpl.
    + split; [apply NoDup_cons; auto|]. split.
      * constructor; [|exact Hne]. intros Heq. apply app_eq_nil in Heq as [_ Heq].
        discriminate.
      * rewrite <- app_assoc. simpl. rewrite <- Permutation_middle. reflexivity.
    + destruct (IH Hnd Hne) as (Hnd' & Hne' & Hperm).
      split; [|split].
      * apply NoDup_cons. split; [|exact Hnd'].
        rewrite dict_set_keys. intros [Heq|Hin]; [congruence|contradiction].
      * constructor; assumption.
      * rewrite Hperm. rewrite Permutation_middle. reflexivity.
Qed.

Lemma cluster_loop (snp_positions : list string) (labels : list nat) :
  forall (k : nat) clusters w clusters' w',
    NoDup clusters.*1 -> Forall (fun g => g <> []) clusters.*2 ->
    for_each (imap (fun i label => (k + i, label)) labels)
      (fun clusters (il : nat * nat) =>
         let* snp := lift (index snp_positions il.1) in
         ret (dict_set il.2 (default [] (dict_get il.2 clusters) ++ [snp]) clusters))
      clusters w = (Ok clusters', w') ->
    w' = w /\ NoDup clusters'.*1 /\ Forall (fun g => g <> []) clusters'.*2
    /\ concat clusters'.*2
       ≡ₚ concat clusters.*2 ++ take (length labels) (drop k snp_positions).
Proof.
  induction labels as [|label labels IH]; intros k clusters w clusters' w' Hnd Hne Hrun.
  - simpl in Hrun. unfold ret in Hrun. injection Hrun as <- <-.
    simpl. rewrite app_nil_r. auto.
  - rewrite imap_cons in Hrun. cbn [for_each] in Hrun.
    apply bind_inv_ok in Hrun as (c1 & w1 & Hstep & Hrun).
    apply lift_bind_ok in Hstep as (snp & Hsnp & Hstep).
    unfold ret in Hstep. injection Hstep as <- <-. cbn [fst snd] in *.
    destruct (group_append label snp clusters Hnd Hne) as (Hnd1 & Hne1 & Hperm1).
    rewrite (imap_ext _ (fun i label => (S k + i, label))) in Hrun
      by (intros j y _; simpl; f_equal; lia).
    apply IH in Hrun as (-> & Hnd' & Hne' & Hperm'); [|exact Hnd1|exact Hne1].
    split; [reflexivity|]. split; [exact Hnd'|]. split; [exact Hne'|].
    rewrite Hperm', Hperm1.
    unfold index in Hsnp. rewrite Nat.add_0_r in Hsnp.
    destruct (snp_positions !! k) as [p|] eqn:Ek; [|discriminate].
    injection Hsnp as ->.
    rewrite (drop_S snp_positions snp k Ek). simpl.
    rewrite <- Permutation_middle. reflexivity.
Qed.

Lemma filter_groups (P : nat * list string -> Prop) `{forall kv, Decision (P kv)}
  (d : list (nat * list string)) :
  NoDup d.*1 ->
  NoDup (filter P d).*1 /\ sublist (concat (filter P d).*2) (concat d.*2)
  /\ Forall (fun kv => kv ∈ d /\ P kv) (filter P d).
Proof.
  induction d as [|kv d IH]; intros Hnd.
  - split; [constructor|]. split; [constructor|constructor].
  - rewrite fmap_cons in Hnd. apply NoDup_cons in Hnd as [Hk Hnd].
    destruct (IH Hnd) as (Hnd' & Hsub & Hall).
    assert (Hall' : Forall (fun kv0 => kv0 ∈ kv :: d /\ P kv0) (filter P d)).
    { eapply Forall_impl; [exact Hall|].
      intros kv0 [Hin Hp]. split; [apply list_elem_of_further, Hin|exact Hp]. }
    rewrite filter_cons. destruct (decide (P kv)) as [Hp|Hp].
    + rewrite !fmap_cons. simpl. split; [|split].
      * apply NoDup_cons. split; [|exact Hnd']. intros Hin.
        apply Hk. apply list_elem_of_fmap in Hin as (kv' & -> & Hin).
        apply list_elem_of_filter in Hin as [_ Hin].
        apply list_elem_of_fmap. exists kv'. auto.
      * apply sublist_app; [reflexivity|exact Hsub].
      * constructor; [|exact Hall']. split; [apply list_elem_of_here|exact Hp].
    + rewrite fmap_cons. simpl. split; [exact Hnd'|]. split; [|exact Hall'].
      apply sublist_inserts_l. exact Hsub.
Qed.

(** X17.  The clusters of [create_ld_clusters].  The function returns
    only when it is given no LD row, and then leaves generator and disk as
    they were.  The clusters returned have distinct identifiers, every one
    has at least [cluster_size_min] members and at least one, all members
    are listed variants, and no more members are handed out than there are
    variants; when the listed variants are distinct no variant sits in two
    clusters. *)
Theorem create_ld_clusters_valid cfg (ld_data : list ld_row)
  (snp_positions : list string) (w : world) clusters w' :
  create_ld_clusters cfg ld_data snp_positions w = (Ok clusters, w') ->
  ld_data = [] /\ w' = w
  /\ NoDup clusters.*1
  /\ Forall (fun kv => (cluster_size_min cfg <= Z.of_nat (length kv.2))%Z
                       /\ kv.2 <> []
                       /\ forall s, s ∈ kv.2 -> s ∈ snp_positions) clusters
  /\ length (concat clusters.*2) <= length snp_positions
  /\ (NoDup snp_positions -> NoDup (concat clusters.*2)).
Proof.
  intros Hrun. unfold create_ld_clusters in Hrun.
  apply bind_inv_ok in Hrun as (D & w1 & HD & Hrun).
  destruct ld_data as [|r rest];
    [|rewrite distance_matrix_raises in HD; discriminate].
  destruct (distance_matrix_empty snp_positions w) as (D' & HD' & _).
  rewrite HD in HD'. injection HD' as <- ->.
  apply lift_bind_ok in Hrun as (labels & _ & Hrun).
  apply bind_inv_ok in Hrun as (groups & w2 & Hloop & Hrun).
  unfold ret in Hrun. injection Hrun as <- <-.
  apply (cluster_loop snp_positions labels 0) in Hloop
    as (-> & Hnd & Hne & Hperm); [|constructor|constructor].
  simpl in Hperm. rewrite drop_0 in Hperm.
  set (P := fun kv : nat * list string =>
              (cluster_size_min cfg <= Z.of_nat (length kv.2))%Z) in *.
  destruct (filter_groups P groups Hnd) as (Hnd' & Hsub & Hall).
  split; [reflexivity|]. split; [reflexivity|]. split; [exact Hnd'|].
  assert (Hmem : forall s, s ∈ concat groups.*2 -> s ∈ snp_positions).
  { intros s Hs. rewrite Hperm in Hs.
    apply elem_of_take in Hs as (i & Hi & _). eapply list_elem_of_lookup_2. exact Hi. }
  split; [|split].
  - eapply Forall_impl; [exact Hall|]. intros kv [Hin Hp].
    split; [exact Hp|].
    assert (Hg : kv.2 ∈ groups.*2) by (apply list_elem_of_fmap; exists kv; auto).
    split.
    + rewrite Forall_forall in Hne. apply Hne, Hg.
    + intros s Hs. apply Hmem. eapply elem_of_concat; eassumption.
  - apply sublist_length in Hsub. rewrite Hsub, Hperm, length_take. lia.
  - intros Hpos. eapply sublist_NoDup; [|exact Hsub]. rewrite Hperm.
    eapply sublist_NoDup; [exact Hpos|apply sublist_take].
Qed.

End Clusters.

(** ** The graph of the graph builder *)

Section Graph.
Context `{NumPy} `{!Polars} `{!Torch} `{!PySet}.

Lemma collect_nodes_foldl (slices : list (list ld_row)) (u : gset string) :
  foldl LDGraph.collect_nodes u slices
  = u ∪ list_to_set ((snp_a <$> concat slices) ++ (snp_b <$> concat slices)).
Proof.
  revert u. induction slices as [|s slices IH]; intros u.
  - simpl. rewrite union_empty_r_L. reflexivity.
  - simpl. rewrite IH. unfold LDGraph.collect_nodes. apply set_eq. intros y.
    rewrite !elem_of_union, !elem_of_list_to_set, !fmap_app, !elem_of_app. tauto.
Qed.

Lemma to_list_set (u : gset string) : list_to_set (to_list u) = u.
Proof.
  apply set_eq. intros y.
  rewrite elem_of_list_to_set, (to_list_perm u), elem_of_elements. reflexivity.
Qed.

Lemma transform_spec (classes_ y : list string) idx :
  LDGraph.transform classes_ y = Ok idx ->
  Forall2 (fun label i => classes_ !! i = Some label) y idx.
Proof.
  revert idx. induction y as [|label y IH]; intros idx; simpl.
  - intros Heq. injection Heq as <-. constructor.
  - destruct (list_find (fun c => c = label) classes_) as [[i c]|] eqn:Ef.
    + destruct (LDGraph.transform classes_ y) as [rest|e]; [|discriminate].
      intros Heq. injection Heq as <-.
      apply list_find_Some in Ef as (Hi & -> & _).
      constructor; [exact Hi|apply IH; reflexivity].
    + destruct (LDGraph.transform classes_ y); discriminate.
Qed.

Lemma transform_app_ok (classes_ a b : list string) ia ib :
  LDGraph.transform classes_ a = Ok ia -> LDGraph.transform classes_ b = Ok ib ->
  LDGraph.transform classes_ (a ++ b) = Ok (ia ++ ib).
Proof.
  revert ia. induction a as [|label a IH]; intros ia; simpl.
  - intros Heq Hb. injection Heq as <-. exact Hb.
  - destruct (list_find (fun c => c = label) classes_) as [[i c]|].
    + destruct (LDGraph.transform classes_ a) as [rest|e]; [|discriminate].
      intros Heq Hb. injection Heq as <-. rewrite (IH rest eq_refl Hb). reflexivity.
    + destruct (LDGraph.transform classes_ a); discriminate.
Qed.

Lemma cast_column_app_ok (a b : list ld_row) va vb :
  LDGraphBuilder.cast_column a = Ok va -> LDGraphBuilder.cast_column b = Ok vb ->
  LDGraphBuilder.cast_column (a ++ b) = Ok (va ++ vb).
Proof. intros Ha Hb. rewrite cast_column_app, Ha, Hb. reflexivity. Qed.

Lemma edge_batches_spec (classes_ : list string) (slices : list (list ld_row)) :
  forall st st',
    LDGraph.edge_batches classes_ slices st = Ok st' ->
    exists src tgt vs,
      LDGraph.transform classes_ (snp_a <$> concat slices) = Ok src
      /\ LDGraph.transform classes_ (snp_b <$> concat slices) = Ok tgt
      /\ LDGraphBuilder.cast_column (concat slices) = Ok vs
      /\ LDGraph.cat_edges st'.1
         = ((LDGraph.cat_edges st.1).1 ++ src, (LDGraph.cat_edges st.1).2 ++ tgt)
      /\ concat st'.2 = concat st.2 ++ (float32 <$> vs).
Proof.
  induction slices as [|s slices IH]; intros st st'; simpl.
  - intros Heq. injection Heq as <-. exists [], [], [].
    rewrite !app_nil_r. repeat split; reflexivity.
  - unfold LDGraph.edge_batch.
    destruct (LDGraph.transform classes_ (snp_a <$> s)) as [src1|e] eqn:Es; [|discriminate].
    destruct (LDGraph.transform classes_ (snp_b <$> s)) as [tgt1|e] eqn:Et; [|discriminate].
    destruct (LDGraphBuilder.cast_column s) as [vs1|e] eqn:Ec; [|discriminate].
    intros Hrest. apply IH in Hrest as (src & tgt & vs & Hs & Ht & Hc & Hcat & Hattr).
    exists (src1 ++ src), (tgt1 ++ tgt), (vs1 ++ vs).
    rewrite !fmap_app.
    split; [apply transform_app_ok; assumption|].
    split; [apply transform_app_ok; assumption|].
    split; [apply cast_column_app_ok; assumption|].
    split.
    + rewrite Hcat. unfold LDGraph.cat_edges. cbn [fst snd].
      rewrite !fmap_app, !concat_app. simpl. rewrite !app_nil_r, <- !app_assoc.
      reflexivity.
    + rewrite Hattr. cbn [fst snd]. rewrite concat_app. simpl.
      rewrite app_nil_r, <- app_assoc. reflexivity.
Qed.

Lemma cast_cells_spec (cells : list string) vs :
  LDGraph.cast_cells cells = Ok vs -> Forall2 (fun c v => cast_f64 c = Some v) cells vs.
Proof.
  revert vs. induction cells as [|c cells IH]; intros vs; simpl.
  - intros Heq. injection Heq as <-. constructor.
  - destruct (cast_f64 c) as [v|] eqn:Ec.
    + destruct (LDGraph.cast_cells cells) as [rest|e]; [|discriminate].
      intros Heq. injection Heq as <-. constructor; [exact Ec|apply IH; reflexivity].
    + destruct (LDGraph.cast_cells cells); discriminate.
Qed.

Lemma occurrences_key (a b : string) :
  occurrences "_" (key a b) = occurrences "_" a + 1 + occurrences "_" b.
Proof.
  change (key a b) with (a ++ String "_" b)%string.
  rewrite occurrences_app. simpl. lia.
Qed.

(** A key with a single underscore is the key of one pair of names only. *)
Lemma key_inj (c b chr bp : string) :
  occurrences "_" c = 0 -> occurrences "_" b = 0 -> key c b = key chr bp ->
  c = chr /\ b = bp.
Proof.
  intros Hc Hb Heq.
  pose proof (occurrences_key c b) as Ho1. pose proof (occurrences_key chr bp) as Ho2.
  rewrite Heq in Ho1.
  assert (Hchr : occurrences "_" chr = 0) by lia.
  assert (Hbp : occurrences "_" bp = 0) by lia.
  pose proof (split_on_key c b Hc Hb) as S1.
  pose proof (split_on_key chr bp Hchr Hbp) as S2.
  rewrite Heq, S2 in S1. injection S1 as -> ->. auto.
Qed.

Lemma omap_column (j : nat) (ids : list string) (nodes : list (list string))
  (f : string -> list string -> Prop) :
  Forall2 (fun node_id row => exists cell, row !! j = Some cell /\ f node_id row) ids nodes ->
  Forall2 (fun node_id cell => exists row, row !! j = Some cell /\ f node_id row)
          ids (omap (fun row => row !! j) nodes).
Proof.
  induction 1 as [|node_id row ids nodes (cell & Hc & Hf) _ IH]; [constructor|].
  csimpl. rewrite Hc. constructor; [|exact IH]. exists row. auto.
Qed.

(** What a graph that was built is made of. *)
Lemma build_inv cfg (content : string) (b : nat) g :
  0 < b ->
  LDGraph.build_pytorch_geometric_graph cfg content b = Ok g ->
  let kept := filter (fun r => retained cfg r = true)
                     (LDGraphBuilder.load_ld_data content b) in
  let unique : gset string := list_to_set ((snp_a <$> kept) ++ (snp_b <$> kept)) in
  exists src tgt vs nodes,
    LDGraph.transform (sorted_strs unique) (snp_a <$> kept) = Ok src
    /\ LDGraph.transform (sorted_strs unique) (snp_b <$> kept) = Ok tgt
    /\ LDGraphBuilder.cast_column kept = Ok vs
    /\ LDGraph.node_rows (to_list unique) [] = Ok nodes
    /\ LDGraph.node_features (LDGraph.nodes_frame nodes) = Ok (LDGraph.x g)
    /\ LDGraph.edge_index g = (src, tgt)
    /\ LDGraph.edge_attr g = float32 <$> vs.
Proof.
  intros Hb Hrun kept unique. unfold LDGraph.build_pytorch_geometric_graph in Hrun.
  rewrite filtered_edges_frame, filter_batch_outcome in Hrun by exact Hb.
  destruct (forallb castable (LDGraphBuilder.load_ld_data content b)); [|discriminate].
  fold kept in Hrun. unfold LDGraphBuilder.iter_slices in Hrun.
  destruct (Nat.eqb_spec b 0) as [->|_]; [lia|].
  set (slices := LDGraphBuilder.slices_fuel (length kept) b kept) in *.
  assert (Hcat : concat slices = kept)
    by (subst slices; apply slices_fuel_concat; [exact Hb|lia]).
  rewrite collect_nodes_foldl, Hcat, union_empty_l_L in Hrun. fold unique in Hrun.
  unfold LDGraph.fit in Hrun. rewrite to_list_set in Hrun.
  destruct (LDGraph.edge_batches (sorted_strs unique) slices ([], []))
    as [[eis eas]|e] eqn:Ee; [|discriminate].
  apply edge_batches_spec in Ee as (src & tgt & vs & Hs & Ht & Hc & Hidx & Hattr).
  rewrite Hcat in Hs, Ht, Hc. simpl in Hidx, Hattr.
  unfold LDGraph.create_nodes_from_ids in Hrun.
  rewrite ?union_empty_l_L in Hrun. fold unique in Hrun.
  destruct (LDGraph.node_rows (to_list unique) []) as [nodes|e] eqn:En; [|discriminate].
  destruct (LDGraph.node_features (LDGraph.nodes_frame nodes)) as [feats|e] eqn:Ef;
    [|discriminate].
  injection Hrun as <-. exists src, tgt, vs, nodes. simpl.
  rewrite Hidx, Hattr. auto 10.
Qed.

(** X18.  The edges of the graph, for a positive batch size.  Every row
    of the loader's frame that the R2 filter retains becomes one edge, in
    the order of the frame: position i of the source row and of the target
    row of [edge_index] hold the indices of the two keys of the i-th
    retained row among the sorted distinct keys, and position i of
    [edge_attr] holds its R2 value as a [torch.float].  No edge is dropped
    as a duplicate and none is added in the reverse direction.  The rows of
    the frame are the data lines of the file, in file order, when no batch
    holds exactly seven data lines. *)
Theorem graph_edges_decode cfg (content : string) (b : nat) g :
  0 < b ->
  LDGraph.build_pytorch_geometric_graph cfg content b = Ok g ->
  let df := LDGraphBuilder.load_ld_data content b in
  let kept := filter (fun r => retained cfg r = true) df in
  let classes_ := sorted_strs (list_to_set ((snp_a <$> kept) ++ (snp_b <$> kept))) in
  Forall2 (fun r s => classes_ !! s = Some (snp_a r)) kept (LDGraph.edge_index g).1
  /\ Forall2 (fun r t => classes_ !! t = Some (snp_b r)) kept (LDGraph.edge_index g).2
  /\ Forall2 (fun r a => exists v, cast_f64 (R2 r) = Some v
                                   /\ fge v (LDGraphBuilder.r2_threshold cfg) = true
                                   /\ a = float32 v)
             kept (LDGraph.edge_attr g)
  /\ (lines_as_rows b content = true -> df = omap fields (open_text content)).
Proof.
  intros Hb Hrun df kept classes_.
  destruct (build_inv cfg content b g Hb Hrun)
    as (src & tgt & vs & nodes & Hs & Ht & Hc & _ & _ & Hidx & Hattr).
  fold df in Hs, Ht, Hc. fold kept in Hs, Ht, Hc. fold classes_ in Hs, Ht.
  rewrite Hidx, Hattr. cbn [fst snd].
  apply transform_spec in Hs, Ht. apply cast_column_spec in Hc.
  split; [|split; [|split]]; [| | |intros Hrows; apply load_ld_data_spec; assumption].
  - apply Forall2_fmap_l in Hs. exact Hs.
  - apply Forall2_fmap_l in Ht. exact Ht.
  - apply Forall2_fmap_r.
    apply Forall2_same_length_lookup. split; [eapply Forall2_length; exact Hc|].
    intros i r v Hr Hv.
    pose proof (Forall2_lookup_lr _ _ _ _ _ _ Hc Hr Hv) as Hcast.
    exists v. split; [exact Hcast|]. split; [|reflexivity].
    apply list_elem_of_lookup_2 in Hr. subst kept.
    apply list_elem_of_filter in Hr as [Hret _].
    unfold retained in Hret. rewrite Hcast in Hret.
    apply andb_true_iff in Hret as [_ Hret]. exact Hret.
Qed.

Lemma to_list_length (u : gset string) : length (to_list u) = size u.
Proof. rewrite (Permutation_length (to_list_perm u)). reflexivity. Qed.

(** X19.  The node features of the graph, for a positive batch size.
    With any number of distinct keys but three, a graph is built only when
    the chromosome name and the position of every endpoint of a retained
    row hold no underscore and convert under the strict cast to a double,
    and its feature matrix has one row per distinct key, in the order in
    which the set of keys was listed: the row holds the chromosome and the
    position of that key.  With exactly three distinct keys Polars takes
    the three lists of the node table for its columns: a graph is built
    only when the first two keys convert to doubles themselves, and the
    feature matrix then holds the two chromosomes, the two positions and
    the two keys. *)
Theorem graph_node_features cfg (content : string) (b : nat) g :
  0 < b ->
  LDGraph.build_pytorch_geometric_graph cfg content b = Ok g ->
  let kept := filter (fun r => retained cfg r = true)
                     (LDGraphBuilder.load_ld_data content b) in
  let unique : gset string := list_to_set ((snp_a <$> kept) ++ (snp_b <$> kept)) in
  (size unique <> 3 ->
   Forall2 (fun node_id row =>
              exists chr bp c p,
                node_id = key chr bp
                /\ occurrences "_" chr = 0 /\ occurrences "_" bp = 0
                /\ cast_f64 chr = Some c /\ cast_f64 bp = Some p
                /\ row = [float32 c; float32 p])
           (to_list unique) (LDGraph.x g)
   /\ forall r chr bp,
        r ∈ kept ->
        chr = CHR_A r /\ bp = BP_A r \/ chr = CHR_B r /\ bp = BP_B r ->
        occurrences "_" chr = 0 /\ occurrences "_" bp = 0
        /\ is_Some (cast_f64 chr) /\ is_Some (cast_f64 bp))
  /\ (size unique = 3 ->
      exists chr0 bp0 chr1 bp1 id2 c0 c1 p0 p1 k0 k1,
        to_list unique = [key chr0 bp0; key chr1 bp1; id2]
        /\ cast_f64 chr0 = Some c0 /\ cast_f64 chr1 = Some c1
        /\ cast_f64 bp0 = Some p0 /\ cast_f64 bp1 = Some p1
        /\ cast_f64 (key chr0 bp0) = Some k0 /\ cast_f64 (key chr1 bp1) = Some k1
        /\ LDGraph.x g = [[float32 c0; float32 c1]; [float32 p0; float32 p1];
                          [float32 k0; float32 k1]]).
Proof.
  intros Hb Hrun kept unique.
  destruct (build_inv cfg content b g Hb Hrun)
    as (src & tgt & vs & nodes & _ & _ & _ & Hn & Hf & _ & _).
  fold kept in Hn. fold unique in Hn.
  pose proof (node_rows_spec (to_list unique) []) as Hrows.
  rewrite Hn in Hrows. destruct Hrows as (new & Heq & Hrows). simpl in Heq. subst new.
  pose proof (Forall2_length _ _ _ Hrows) as Hlen. rewrite to_list_length in Hlen.
  split.
  2:{ intros Hthree. rewrite Hthree in Hlen.
      destruct nodes as [|n0 [|n1 [|n2 [|n3 nodes]]]]; try discriminate Hlen.
      inversion Hrows as [|i0 n0' l0 k0' (chr0 & bp0 & -> & -> & _) Hrows0]; subst.
      inversion Hrows0 as [|i1 n1' l1 k1' (chr1 & bp1 & -> & -> & _) Hrows1]; subst.
      inversion Hrows1 as [|i2 n2' l2 k2' (chr2 & bp2 & -> & Hk2 & _) Hrows2]; subst.
      inversion Hrows2; subst.
      change (LDGraph.nodes_frame _)
        with [[chr0; chr1; chr2]; [bp0; bp1; bp2]; [key chr0 bp0; key chr1 bp1; key chr2 bp2]] in Hf.
      unfold LDGraph.node_features in Hf.
      cbn [omap list_omap lookup list_lookup mbind option_bind LDGraph.cast_cells] in Hf.
      destruct (cast_f64 chr0) as [c0|] eqn:Ec0; [|discriminate].
      destruct (cast_f64 bp0) as [p0|] eqn:Ep0; [|discriminate].
      destruct (cast_f64 (key chr0 bp0)) as [k0|] eqn:Ek0; [|discriminate].
      destruct (cast_f64 chr1) as [c1|] eqn:Ec1; [|discriminate].
      destruct (cast_f64 bp1) as [p1|] eqn:Ep1; [|discriminate].
      destruct (cast_f64 (key chr1 bp1)) as [k1|] eqn:Ek1; [|discriminate].
      injection Hf as <-.
      exists chr0, bp0, chr1, bp1, (key chr2 bp2), c0, c1, p0, p1, k0, k1.
      repeat split; assumption || reflexivity. }
  intros Hne. rewrite nodes_frame_rows in Hf by congruence.
  unfold LDGraph.node_features in Hf.
  destruct (LDGraph.cast_cells (omap (fun row => row !! 0) nodes)) as [cs|e] eqn:Ec;
    [|discriminate].
  destruct (LDGraph.cast_cells (omap (fun row => row !! 1) nodes)) as [ps|e] eqn:Ep;
    [|discriminate].
  injection Hf as Hx. apply cast_cells_spec in Ec, Ep.
  assert (Hcol0 : Forall2 (fun node_id cell =>
                    exists row, row !! 0 = Some cell
                      /\ exists c b, row = [c; b; node_id] /\ node_id = key c b
                           /\ occurrences "_" c = 0 /\ occurrences "_" b = 0)
                    (to_list unique) (omap (fun row => row !! 0) nodes)).
  { apply (omap_column 0 _ _
             (fun node_id row => exists c b, row = [c; b; node_id] /\ node_id = key c b
                                   /\ occurrences "_" c = 0 /\ occurrences "_" b = 0)).
    eapply Forall2_impl; [exact Hrows|].
    intros node_id row (c & b0 & -> & Hk). exists c. split; [reflexivity|].
    exists c, b0. tauto. }
  assert (Hcol1 : Forall2 (fun node_id cell =>
                    exists row, row !! 1 = Some cell
                      /\ exists c b, row = [c; b; node_id] /\ node_id = key c b
                           /\ occurrences "_" c = 0 /\ occurrences "_" b = 0)
                    (to_list unique) (omap (fun row => row !! 1) nodes)).
  { apply (omap_column 1 _ _
             (fun node_id row => exists c b, row = [c; b; node_id] /\ node_id = key c b
                                   /\ occurrences "_" c = 0 /\ occurrences "_" b = 0)).
    eapply Forall2_impl; [exact Hrows|].
    intros node_id row (c & b0 & -> & Hk). exists b0. split; [reflexivity|].
    exists c, b0. tauto. }
  assert (Hfeat : Forall2 (fun node_id row =>
             exists chr bp c p,
               node_id = key chr bp
               /\ occurrences "_" chr = 0 /\ occurrences "_" bp = 0
               /\ cast_f64 chr = Some c /\ cast_f64 bp = Some p
               /\ row = [float32 c; float32 p])
          (to_list unique) (LDGraph.x g)).
  { rewrite <- Hx. apply Forall2_same_length_lookup. split.
    - rewrite length_zip_with.
      apply Forall2_length in Hcol0, Hcol1, Ec, Ep. lia.
    - intros i node_id row Hid Hrow.
      apply lookup_zip_with_Some in Hrow as (c & p & -> & Hc & Hp).
      destruct (Forall2_lookup_r _ _ _ _ _ Ec Hc) as (cell0 & Hcell0 & Hcast0).
      destruct (Forall2_lookup_r _ _ _ _ _ Ep Hp) as (cell1 & Hcell1 & Hcast1).
      pose proof (Forall2_lookup_lr _ _ _ _ _ _ Hcol0 Hid Hcell0)
        as (row0 & Hr0 & c0 & b0 & -> & Hk0 & Hc0 & Hb0).
      pose proof (Forall2_lookup_lr _ _ _ _ _ _ Hcol1 Hid Hcell1)
        as (row1 & Hr1 & c1 & b1 & -> & Hk1 & Hc1 & Hb1).
      simpl in Hr0, Hr1. injection Hr0 as ->. injection Hr1 as ->.
      rewrite Hk0 in Hk1. destruct (key_inj _ _ _ _ Hc0 Hb0 Hk1) as [E1 E2].
      subst c1 b0. exists cell0, cell1, c, p. auto 10. }
  split; [exact Hfeat|].
  intros r chr bp Hr Hend.
  assert (Hin : key chr bp ∈ to_list unique).
  { rewrite (to_list_perm unique), elem_of_elements. subst unique.
    rewrite elem_of_list_to_set, elem_of_app, !list_elem_of_fmap.
    destruct Hend as [[-> ->]|[-> ->]]; [left|right]; exists r; auto. }
  apply list_elem_of_lookup in Hin as [i Hi].
  destruct (Forall2_lookup_l _ _ _ _ _ Hfeat Hi)
    as (row & _ & chr' & bp' & c & p & Hk & Hc' & Hb' & Hcc & Hcp & _).
  symmetry in Hk. destruct (key_inj _ _ _ _ Hc' Hb' Hk) as [-> ->].
  rewrite Hcc, Hcp. auto.
Qed.

End Graph.

(** ** Nothing to read *)

Section NothingRead.
Context `{NumPy} `{!Sklearn}.

Lemma batches_empty b : batches b "" = [].
Proof. destruct b; reflexivity. Qed.

Lemma scan_empty {S} (step : S -> string -> S) b init : scan step b "" init = init.
Proof. unfold scan. rewrite batches_empty. reflexivity. Qed.

(** X20.  With a batch size of zero no line is read: each strategy runs
    as it does on an empty file, whatever the file holds, and the loader
    of the graph builder returns the empty frame. *)
Theorem batch_size_zero_reads_nothing (content : string) (b : nat) :
  (forall cfg, Columnwise.create_mask_from_ld cfg content 0
               = Columnwise.create_mask_from_ld cfg "" b)
  /\ (forall cfg, RandomMasking.create_mask_from_ld cfg content 0
                  = RandomMasking.create_mask_from_ld cfg "" b)
  /\ (forall cfg, Rowwise.create_mask_from_ld cfg content 0
                  = Rowwise.create_mask_from_ld cfg "" b)
  /\ (forall cfg, KNearest.create_mask_from_ld cfg content 0
                  = KNearest.create_mask_from_ld cfg "" b)
  /\ (forall cfg, MAFCluster.create_mask_from_ld cfg content 0
                  = MAFCluster.create_mask_from_ld cfg "" b)
  /\ LDGraphBuilder.load_ld_data content 0 = [].
Proof.
  split; [|split; [|split; [|split; [|split]]]].
  - intros cfg. unfold Columnwise.create_mask_from_ld.
    rewrite scan_zero, scan_empty. reflexivity.
  - intros cfg. unfold RandomMasking.create_mask_from_ld.
    rewrite scan_zero, scan_empty. reflexivity.
  - intros cfg. unfold Rowwise.create_mask_from_ld.
    rewrite scan_zero, scan_empty. reflexivity.
  - intros cfg. unfold KNearest.create_mask_from_ld, KNearest.build.
    rewrite scan_zero, scan_empty. reflexivity.
  - intros cfg. unfold MAFCluster.create_mask_from_ld.
    rewrite batches_zero, batches_empty. reflexivity.
  - unfold LDGraphBuilder.load_ld_data. rewrite batches_zero. reflexivity.
Qed.

(** X21.  On a file without a data line the column-wise strategy, alone
    among the strategies that mask variants, completes: when [int(0 * rate)]
    is 0 it writes and returns the table with its four columns and no
    row. *)
Theorem columnwise_no_data_returns_empty cfg (content : string) (b : nat) (w : world) :
  (forall line, line ∈ open_text content -> fields line = None) ->
  int_scaled 0 (Columnwise.missing_rate cfg) = Ok 0%Z ->
  exists w',
    Columnwise.create_mask_from_ld cfg content b w
    = (Ok (mkDF ["CHR"; "POS"; "SNP_ID"; "MASKED"] []), w')
    /\ w_disk w' = Some (mkDF ["CHR"; "POS"; "SNP_ID"; "MASKED"] []).
Proof.
  intros Hno Hint. unfold Columnwise.create_mask_from_ld.
  rewrite (collect_no_data b content Hno). cbn [length]. rewrite Hint.
  run_step. run_step.
  destruct (np_choice_runs (@nil string) 0 (mkWorld (np_seed 42) (w_disk w)))
    as (xs & w1 & Hrun & _ & _ & Hlen & _); [constructor|simpl; lia|].
  rewrite (bind_ok _ _ _ _ _ Hrun). cbn [for_each]. run_step.
  rewrite pl_DataFrame_empty. run_step. run_step.
  unfold ret. eexists. split; reflexivity.
Qed.

End NothingRead.

(** ** The table of the row-wise strategy *)

Section RowwiseTable.
Context `{NumPy}.
Import Rowwise.

Lemma dict_set_Forall {V} (P : V -> Prop) (k : string) (v : V) (d : list (string * V)) :
  P v -> Forall (fun e => P e.2) d -> Forall (fun e => P e.2) (dict_set k v d).
Proof.
  intros Hv. induction 1 as [|[k' v'] d Hx Hd IH]; simpl.
  - constructor; [exact Hv|constructor].
  - destruct (decide (k = k')); constructor; auto.
Qed.

Lemma dict_get_elem {V} (k : string) (v : V) (d : list (string * V)) :
  dict_get k d = Some v -> (k, v) ∈ d.
Proof.
  induction d as [|[k' v'] d IH]; simpl; [discriminate|].
  destruct (decide (k = k')) as [->|_].
  - intros Heq. injection Heq as ->. apply list_elem_of_here.
  - intros Hg. apply list_elem_of_further, IH, Hg.
Qed.

Lemma sample_loop_total cfg genotype_data snp_list cats (xs : list (nat * string)) :
  forall sm w sm' w',
    Forall (fun e => n_total e.2 = length snp_list) sm ->
    for_each xs (sample_step cfg genotype_data snp_list cats) sm w = (Ok sm', w') ->
    Forall (fun e => n_total e.2 = length snp_list) sm'.
Proof.
  induction xs as [|[i sid] xs IH]; intros sm w sm' w' Hall Hrun.
  - simpl in Hrun. unfold ret in Hrun. injection Hrun as <- <-. exact Hall.
  - cbn [for_each] in Hrun. apply bind_inv_ok in Hrun as (sm1 & w1 & Hstep & Hrun).
    apply sample_step_inv in Hstep
      as (cat & geno & rate & t & m & _ & _ & _ & _ & _ & ->).
    eapply IH; [|exact Hrun].
    apply (dict_set_Forall (fun v => n_total v = length snp_list)); [reflexivity|exact Hall].
Qed.

Lemma rowwise_row_shape sm stats acc sid w acc' w' :
  mask_row sm stats acc sid w = (Ok acc', w') ->
  exists row, acc' = acc ++ [row]
    /\ exists e, dict_get sid sm = Some e
         /\ row = [CStr sid; CInt (Z.of_nat (n_total e)); CInt (Z.of_nat (n_missing e));
                   CFloat (missingness_pct e); CStr (category_name (category_ e));
                   CBool (high_missingness e); CStr (pattern_type stats)].
Proof.
  unfold mask_row. intros Hrun.
  apply lift_bind_ok in Hrun as (e & He & Hrun).
  unfold ret in Hrun. injection Hrun as <- <-.
  eexists. split; [reflexivity|]. exists e. split; [|reflexivity].
  unfold dict_item in He. destruct (dict_get sid sm); [|discriminate].
  injection He as ->. reflexivity.
Qed.

Lemma rowwise_row_mixed sm stats acc sid w acc' w' :
  mask_row sm stats acc sid w = (Ok acc', w') ->
  exists row, acc' = acc ++ [row] /\ str_then_bool row.
Proof.
  intros Hrun. apply rowwise_row_shape in Hrun as (row & -> & e & _ & ->).
  eexists. split; [reflexivity|]. eexists _, _, _. split; [reflexivity|].
  do 4 apply list_elem_of_further. apply list_elem_of_here.
Qed.

(** X22.  The table of the row-wise strategy lists samples, not
    variants.  Whatever the file holds, a returned table has 1000 rows, the
    i-th for the sample named SAMPLE_ followed by i; every row carries
    the number of variants read from the file in N_TOTAL_SNPS and the one
    pattern type of the assessment in PATTERN_TYPE. *)
Theorem rowwise_table_lists_samples cfg (content : string) (b : nat)
  (w : world) df stats w' :
  create_mask_from_ld cfg content b w = (Ok (df, stats), w') ->
  length (rows df) = 1000
  /\ Forall2 (fun i row =>
                row !! 0 = Some (CStr (sample_id i))
                /\ row !! 1
                   = Some (CInt (Z.of_nat
                                   (length (sorted_strs (scan collect_snps b content ∅)))))
                /\ row !! 6 = Some (CStr (pattern_type stats)))
             (seq 0 1000) (rows df)
  /\ w_disk w' = Some df.
Proof.
  intros Hrun. unfold create_mask_from_ld in Hrun.
  set (n := 1000) in *. clearbody n.
  set (ids := sorted_strs (scan collect_snps b content ∅)) in *.
  apply bind_inv_ok in Hrun as ([sample_ids genotype_data] & w1 & Hsim & Hrun).
  unfold simulate_sample_data in Hsim. rewrite bind_seed in Hsim by reflexivity.
  apply bind_inv_ok in Hsim as (gd & w0 & _ & Hsim).
  unfold ret in Hsim. injection Hsim as <- <- <-.
  apply bind_inv_ok in Hrun as (sm & w2 & Happ & Hrun).
  apply bind_inv_ok in Hrun as (mask_data & w3 & Hrows & Hrun).
  apply lift_bind_ok in Hrun as (mask_df & Hdf & Hrun).
  destruct (mask_table_built _ _ _ _ _ _ _ _
              (rowwise_row_mixed _ _) Hrows Hdf) as [-> _].
  rewrite bind_write_csv in Hrun. unfold ret in Hrun. injection Hrun as <- <- <-.
  assert (Hsm : Forall (fun e => n_total e.2 = length ids) sm).
  { unfold apply_rowwise_missing_pattern in Happ.
    rewrite bind_seed in Happ by reflexivity.
    apply lift_bind_ok in Happ as (n_low & _ & Happ).
    apply lift_bind_ok in Happ as (n_medium & _ & Happ).
    apply bind_inv_ok in Happ as (cats & w4 & _ & Happ).
    eapply sample_loop_total; [|exact Happ]. constructor. }
  destruct (for_each_Forall2
              (fun sid row =>
                 exists e, dict_get sid sm = Some e
                   /\ row = [CStr sid; CInt (Z.of_nat (n_total e));
                             CInt (Z.of_nat (n_missing e));
                             CFloat (missingness_pct e);
                             CStr (category_name (category_ e));
                             CBool (high_missingness e);
                             CStr (pattern_type (assess_missing_patterns sm))])
              (sample_id <$> seq 0 n)
              (mask_row sm (assess_missing_patterns sm))
              (fun acc x w acc' w' _ Hb => rowwise_row_shape sm _ acc x w acc' w' Hb)
              _ _ _ _ Hrows) as (new & -> & Hall).
  cbn [rows app]. apply Forall2_fmap_l in Hall.
  split; [|split; [|reflexivity]].
  - apply Forall2_length in Hall. rewrite length_seq in Hall. symmetry. exact Hall.
  - eapply Forall2_impl; [exact Hall|].
    intros i row (e & He & ->). split; [reflexivity|]. split; [|reflexivity].
    apply dict_get_elem in He. rewrite Forall_forall in Hsm.
    specialize (Hsm _ He). simpl in Hsm |- *. rewrite Hsm. reflexivity.
Qed.

End RowwiseTable.

(** ** The row-wise strategy returns *)

Section RowwiseReturns.
Context `{NumPy}.
Import Rowwise.

Lemma dict_get_set_is_Some {V} (k x : string) (v : V) (d : list (string * V)) :
  k = x \/ is_Some (dict_get k d) -> is_Some (dict_get k (dict_set x v d)).
Proof.
  induction d as [|[k' v'] d IH]; simpl.
  - intros [->|[u Hu]]; [|discriminate].
    rewrite decide_True by reflexivity. eexists. reflexivity.
  - intros Hk. destruct (decide (x = k')) as [->|Hx]; simpl.
    + destruct (decide (k = k')) as [_|Hne]; [eexists; reflexivity|].
      destruct Hk as [->|Hk]; [contradiction|exact Hk].
    + destruct (decide (k = k')) as [_|Hne]; [eexists; reflexivity|].
      apply IH. exact Hk.
Qed.

(** A loop that stores one entry per element leaves an entry for every
    element. *)
Lemma fill_loop {A V} (key : A -> string) (xs : list A)
  (body : list (string * V) -> A -> M (list (string * V))) :
  (forall s x w, x ∈ xs ->
     exists v w', body s x w = (Ok (dict_set (key x) v s), w')
                  /\ w_disk w' = w_disk w) ->
  forall s w,
    exists s' w',
      for_each xs body s w = (Ok s', w') /\ w_disk w' = w_disk w
      /\ (forall k, is_Some (dict_get k s) -> is_Some (dict_get k s'))
      /\ (forall x, x ∈ xs -> is_Some (dict_get (key x) s')).
Proof.
  induction xs as [|x xs IH]; intros Hbody s w.
  - exists s, w. split; [reflexivity|]. split; [reflexivity|]. split; [auto|].
    intros x Hx. apply elem_of_nil in Hx. contradiction.
  - destruct (Hbody s x w (list_elem_of_here _ _)) as (v & w1 & Hb & Hd1).
    destruct (IH (fun s x w Hx => Hbody s x w (list_elem_of_further _ _ _ Hx))
                 (dict_set (key x) v s) w1) as (s' & w' & Hrun & Hd & Hkeep & Hall).
    exists s', w'. cbn [for_each]. rewrite (bind_ok _ _ _ _ _ Hb).
    split; [exact Hrun|]. split; [congruence|]. split.
    + intros k Hk. apply Hkeep, dict_get_set_is_Some. right. exact Hk.
    + intros y Hy. apply elem_of_cons in Hy as [->|Hy]; [|apply Hall, Hy].
      apply Hkeep, dict_get_set_is_Some. left. reflexivity.
Qed.

Lemma simulate_runs (snp_list : list string) (n : nat) (w : world) :
  exists gd w',
    simulate_sample_data snp_list n w = (Ok (sample_id <$> seq 0 n, gd), w')
    /\ w_disk w' = w_disk w
    /\ forall sid, sid ∈ sample_id <$> seq 0 n -> is_Some (dict_get sid gd).
Proof.
  unfold simulate_sample_data. rewrite bind_seed by reflexivity.
  match goal with
  | |- context [for_each ?xs ?body ?s0] =>
      assert (Hbody : forall s x w0, x ∈ xs ->
                 exists v w', body s x w0 = (Ok (dict_set x v s), w')
                              /\ w_disk w' = w_disk w0);
      [|destruct (fill_loop (fun sid : string => sid) xs body Hbody s0
                    (mkWorld (np_seed 42) (w_disk w)))
          as (gd & w' & Hrun & Hd & _ & Hall)]
  end.
  - intros s sid w0 _. rewrite bind_draw. unfold ret. eexists _, _.
    split; reflexivity.
  - rewrite (bind_ok _ _ _ _ _ Hrun). unfold ret. exists gd, w'.
    split; [reflexivity|]. split; [exact Hd|exact Hall].
Qed.

Lemma sample_step_runs cfg genotype_data (snp_list : list string) cats sm i sid w :
  i < length cats ->
  is_Some (dict_get sid genotype_data) ->
  (forall g lo hi, (lo, hi) ∈ bands ->
     exists t, int_scaled (length snp_list) (np_uniform lo hi g).1 = Ok t
               /\ (t <= Z.of_nat (length snp_list))%Z) ->
  exists e w',
    sample_step cfg genotype_data snp_list cats sm (i, sid) w
    = (Ok (dict_set sid e sm), w')
    /\ w_disk w' = w_disk w.
Proof.
  intros Hi [geno Hgeno] Hrange. unfold sample_step.
  destruct (lookup_lt_is_Some_2 cats i Hi) as [cat Hcat].
  unfold index. rewrite Hcat. rewrite bind_lift_ok.
  unfold dict_item. rewrite Hgeno. rewrite bind_lift_ok.
  assert (Hdraw : exists lo hi,
             (lo, hi) ∈ bands
             /\ match cat with
                | low => draw (np_uniform (flit 0 0) (flit 1 (-1)))
                | medium => draw (np_uniform (flit 1 (-1)) (flit 3 (-1)))
                | high => draw (np_uniform (flit 3 (-1)) (flit 6 (-1)))
                end = draw (np_uniform lo hi)).
  { unfold bands. destruct cat; eexists _, _; (split; [|reflexivity]).
    - apply list_elem_of_here.
    - apply list_elem_of_further, list_elem_of_here.
    - apply list_elem_of_further, list_elem_of_further, list_elem_of_here. }
  destruct Hdraw as (lo & hi & Hband & ->).
  rewrite bind_draw.
  destruct (Hrange (w_rng w) lo hi Hband) as (t & Ht & Hle).
  rewrite Ht. rewrite bind_lift_ok.
  destruct (0 <? t)%Z eqn:Hpos.
  - apply Z.ltb_lt in Hpos.
    match goal with
    | |- context [np_choice ?a t] =>
        destruct (np_choice_runs a t
                    (mkWorld (np_uniform lo hi (w_rng w)).2 (w_disk w)))
          as (idx & w1 & Hch & Hd & _)
    end.
    { apply NoDup_seq. }
    { rewrite length_seq. lia. }
    rewrite bind_assoc, (bind_ok _ _ _ _ _ Hch). rewrite bind_ret. unfold ret.
    eexists _, w1. split; [reflexivity|exact Hd].
  - rewrite bind_ret. unfold ret. eexists _, _. split; reflexivity.
Qed.

Lemma apply_runs cfg (sample_ids : list string) genotype_data
  (snp_list : list string) (w : world) :
  (exists a, int_scaled (length sample_ids) (flit 7 (-1)) = Ok a) ->
  (exists b, int_scaled (length sample_ids) (flit 2 (-1)) = Ok b) ->
  (forall sid, sid ∈ sample_ids -> is_Some (dict_get sid genotype_data)) ->
  (forall g lo hi, (lo, hi) ∈ bands ->
     exists t, int_scaled (length snp_list) (np_uniform lo hi g).1 = Ok t
               /\ (t <= Z.of_nat (length snp_list))%Z) ->
  exists sm w',
    apply_rowwise_missing_pattern cfg sample_ids genotype_data snp_list w = (Ok sm, w')
    /\ w_disk w' = w_disk w
    /\ forall sid, sid ∈ sample_ids -> is_Some (dict_get sid sm).
Proof.
  intros [a Ha] [b Hb] Hgd Hrange. unfold apply_rowwise_missing_pattern.
  rewrite bind_seed by reflexivity. rewrite Ha, bind_lift_ok, Hb, bind_lift_ok.
  match goal with
  | |- context [np_shuffle ?l] =>
      destruct (np_shuffle_perm l (mkWorld (np_seed 42) (w_disk w)))
        as (cats & w1 & Hsh & Hperm & Hd1)
  end.
  rewrite (bind_ok _ _ _ _ _ Hsh).
  assert (Hlen : length sample_ids <= length cats).
  { rewrite Hperm, !length_app, !length_replicate. lia. }
  destruct (fill_loop (fun ix : nat * string => ix.2)
              (imap (fun i sid => (i, sid)) sample_ids)
              (sample_step cfg genotype_data snp_list cats)) with (s := @nil (string * info))
              (w := w1)
    as (sm & w' & Hrun & Hd & _ & Hall).
  - intros s [i sid] w0 Hin.
    apply list_elem_of_lookup in Hin as [j Hj].
    apply list_lookup_imap_Some in Hj as (sid' & Hsid & Heq). injection Heq as -> ->.
    apply sample_step_runs; [|apply Hgd; eapply list_elem_of_lookup_2; exact Hsid|exact Hrange].
    apply lookup_lt_Some in Hsid. lia.
  - exists sm, w'. split; [exact Hrun|]. split; [simpl in Hd1; congruence|].
    intros sid Hsid. apply list_elem_of_lookup in Hsid as [i Hi].
    apply (Hall (i, sid)). eapply list_elem_of_lookup_2.
    apply list_lookup_imap_Some. exists sid. split; [exact Hi|reflexivity].
Qed.

Lemma rowwise_runs cfg (content : string) (b : nat) (w : world) :
  let n := length (sorted_strs (scan collect_snps b content ∅)) in
  (exists a, int_scaled 1000 (flit 7 (-1)) = Ok a) ->
  (exists c, int_scaled 1000 (flit 2 (-1)) = Ok c) ->
  (forall g lo hi, (lo, hi) ∈ bands ->
     exists t, int_scaled n (np_uniform lo hi g).1 = Ok t /\ (t <= Z.of_nat n)%Z) ->
  exists df stats w',
    create_mask_from_ld cfg content b w = (Ok (df, stats), w') /\ w_disk w' = Some df.
Proof.
  intros n Ha Hc Hrange. unfold create_mask_from_ld.
  assert (Hseven : Nat.eqb 1000 7 = false) by reflexivity.
  revert Ha Hc Hseven. generalize 1000. intros N Ha Hc Hseven.
  set (ids := sorted_strs (scan collect_snps b content ∅)) in *.
  destruct (simulate_runs ids N w) as (gd & w1 & Hsim & Hd1 & Hgd).
  rewrite (bind_ok _ _ _ _ _ Hsim).
  destruct (apply_runs cfg (sample_id <$> seq 0 N) gd ids w1) as (sm & w2 & Happ & Hd2 & Hsm).
  { rewrite length_fmap, length_seq. exact Ha. }
  { rewrite length_fmap, length_seq. exact Hc. }
  { exact Hgd. }
  { exact Hrange. }
  rewrite (bind_ok _ _ _ _ _ Happ).
  destruct (for_each_total (sample_id <$> seq 0 N)
              (mask_row sm (assess_missing_patterns sm)) (fun _ => True))
    with (s := @nil (list cell)) (w := w2) as (rows & w3 & Hrows & _).
  - intros s sid w0 Hsid _. unfold mask_row, dict_item.
    destruct (Hsm sid Hsid) as [e He]. rewrite He, bind_lift_ok. unfold ret.
    eexists _, _. split; [reflexivity|exact I].
  - exact I.
  - rewrite (bind_ok _ _ _ _ _ Hrows).
    destruct (for_each_Forall2 (fun _ _ => True) (sample_id <$> seq 0 N)
                (mask_row sm (assess_missing_patterns sm))
                (fun acc x w acc' w' _ Hb =>
                   match rowwise_row_shape sm _ acc x w acc' w' Hb with
                   | ex_intro _ row (conj Heq _) => ex_intro _ row (conj Heq I)
                   end)
                _ _ _ _ Hrows) as (new & -> & Hall).
    apply Forall2_length in Hall. rewrite length_fmap, length_seq in Hall.
    rewrite pl_DataFrame_rows
      by (simpl; rewrite <- Hall; apply Nat.eqb_neq in Hseven; exact Hseven).
    rewrite bind_lift_ok, bind_write_csv. unfold ret.
    eexists _, _, _. split; reflexivity.
Qed.

(** X23.  The row-wise strategy completes on every file: when
    [int(1000 * 0.7)] and [int(1000 * 0.2)] are integers, and a rate drawn
    for any of the three categories asks for no more than the n variants
    there are, the run raises no exception and writes the table it
    returns.  A file without a data line is no exception. *)
Theorem rowwise_returns cfg (content : string) (b : nat) (w : world) (a c : Z) :
  let n := length (sorted_strs (scan collect_snps b content ∅)) in
  int_scaled 1000 (flit 7 (-1)) = Ok a ->
  int_scaled 1000 (flit 2 (-1)) = Ok c ->
  (forall g lo hi, (lo, hi) ∈ bands ->
     exists t, int_scaled n (np_uniform lo hi g).1 = Ok t /\ (t <= Z.of_nat n)%Z) ->
  exists df stats w',
    create_mask_from_ld cfg content b w = (Ok (df, stats), w') /\ w_disk w' = Some df.
Proof.
  intros n Ha Hc Hrange. apply rowwise_runs; [eexists; exact Ha|eexists; exact Hc|exact Hrange].
Qed.

End RowwiseReturns.

(** ** The MAF+cluster strategy on every file *)

Section NeverReturns.
Context `{NumPy} `{!Sklearn}.
Import MAFCluster.

Lemma add_line_unretained cfg st line :
  retained_row cfg line = None -> add_line cfg st line = st.
Proof.
  unfold retained_row, add_line. destruct (fields line) as [r|]; [|reflexivity].
  destruct (float_of_str (R2 r)) as [v|]; [|reflexivity].
  destruct (fge v (r2_threshold cfg)); [discriminate|reflexivity].
Qed.

(** With no retained line there is no cluster, and one cluster is still
    asked of an empty population. *)
Lemma mafcluster_raises_unretained cfg b content w :
  omap (retained_row cfg) (concat (batches b content)) = [] ->
  exists e w', create_mask_from_ld cfg content b w = (Raise e, w')
               /\ w_disk w' = w_disk w.
Proof.
  intros Hno. unfold create_mask_from_ld.
  assert (Hline : forall line, line ∈ concat (batches b content) ->
                    forall s, add_line cfg s line = s).
  { intros line Hin s. apply add_line_unretained.
    destruct (retained_row cfg line) as [r|] eqn:Er; [|reflexivity].
    assert (Hr : r ∈ omap (retained_row cfg) (concat (batches b content))).
    { apply list_elem_of_omap. exists line. split; assumption. }
    rewrite Hno in Hr. apply elem_of_nil in Hr. contradiction. }
  rewrite foldl_id.
  2:{ intros lines Hin s. apply maf_add_batch_no_data.
      intros line Hl. apply Hline. eapply elem_of_concat; eassumption. }
  cbn [concat]. rewrite sorted_strs_empty.
  destruct (simulate_maf_runs [] w) as (maf & w1 & Hmaf & _ & _ & Hd).
  rewrite (bind_ok _ _ _ _ _ Hmaf).
  unfold create_ld_clusters, distance_matrix.
  cbn [length imap foldl fmap list_fmap for_each eye seq].
  do 2 run_step. cbn [fmap list_fmap].
  destruct (fit_predict (2 `max` (Z.of_nat 0 / 10)) []) as [labels|e] eqn:Hfit.
  - apply fit_predict_length in Hfit. apply length_zero_iff_nil in Hfit. subst labels.
    run_step. cbn [imap for_each]. do 2 run_step. cbn [filter list_filter imap for_each].
    run_step. cbn [length].
    destruct (fint _) as [n|e].
    + do 2 run_step. cbn [fmap list_fmap length].
      destruct (int_scaled 0 (missing_rate cfg)) as [sc|e].
      * do 2 run_step. unfold np_choice. cbn [seq length].
        destruct (1 `max` sc <? 0)%Z eqn:Hneg;
          [eexists _, _; split; [reflexivity|exact Hd]|].
        destruct (Z.of_nat 0 <? 1 `max` sc)%Z eqn:Hpos;
          [eexists _, _; split; [reflexivity|exact Hd]|].
        apply Z.ltb_ge in Hpos. lia.
      * run_step. eexists _, _. split; [reflexivity|exact Hd].
    + run_step. eexists _, _. split; [reflexivity|exact Hd].
  - run_step. eexists _, _. split; [reflexivity|exact Hd].
Qed.

(** X24.  The MAF+cluster strategy returns no table, whatever file,
    thresholds, rate and batch size it is given: with a retained line the
    first row of the LD frame stops the distance matrix, and without one a
    cluster is asked of an empty list.  Every run ends in an exception and
    leaves the disk as it was. *)
Theorem mafcluster_never_returns (cfg : config) (content : string) (b : nat)
  (w : world) :
  exists e w', create_mask_from_ld cfg content b w = (Raise e, w')
               /\ w_disk w' = w_disk w.
Proof.
  destruct (omap (retained_row cfg) (concat (batches b content))) as [|r0 rest] eqn:Er.
  - apply mafcluster_raises_unretained, Er.
  - unfold create_mask_from_ld.
    pose proof (foldl_add_batch_rows cfg (batches b content) ([], ∅)) as Hrows.
    destruct (foldl (add_batch cfg) ([], ∅) (batches b content))
      as [ld_chunks unique_snps].
    simpl in Hrows. rewrite Er in Hrows.
    destruct (concat ld_chunks) as [|x xs]; [discriminate|].
    destruct (simulate_maf_runs (sorted_strs unique_snps) w) as (maf & w1 & Hmaf & _ & _ & Hd).
    rewrite (bind_ok _ _ _ _ _ Hmaf).
    exists ValueError, w1. split; [reflexivity|exact Hd].
Qed.

End NeverReturns.

(** ** When the random strategy returns *)

Section RandomReturns.
Context `{NumPy}.
Import RandomMasking.

(** The three stages never raise, whatever the sign of the target: a
    negative target shortens the first stage from the end and skips the
    third. *)
Lemma apply_structured_masking_runs cfg (snp_list : list string)
  (m0 m1 m2 : list float) (t : Z) (w : world) :
  length m0 = length snp_list ->
  length m1 = length snp_list ->
  int_scaled (length snp_list) (missing_rate cfg) = Ok t ->
  exists masked w',
    apply_structured_masking cfg snp_list [m0; m1; m2] w = (Ok masked, w')
    /\ (forall i, i ∈ masked -> i < length snp_list)
    /\ w_disk w' = w_disk w.
Proof.
  intros Hm0 Hm1 Hint.
  destruct (Z_lt_le_dec t 0) as [Hneg|Hpos].
  2:{ destruct (apply_structured_masking_clamps cfg snp_list m0 m1 m2 t w Hm0 Hm1 Hint Hpos)
        as (masked & w' & Hrun & _ & Hb & Hd).
      exists masked, w'. auto. }
  set (n := length snp_list) in *.
  set (primary := take (n - Z.to_nat (- t)) (np_argsort m0)).
  destruct (argsort_facts m0) as (Hlen & Hnd & Hmem).
  assert (Hpnd : NoDup primary).
  { subst primary. eapply sublist_NoDup; [exact Hnd|apply sublist_take]. }
  assert (Hpn : forall i, i ∈ primary -> i < n).
  { intros i Hi. rewrite <- Hm0. apply Hmem.
    subst primary. apply elem_of_take in Hi as (q & Hq & _).
    eapply list_elem_of_lookup_2. exact Hq. }
  assert (Hpb : Forall (fun i => i < length m1) primary).
  { apply Forall_forall. intros i Hi. rewrite Hm1. apply Hpn, Hi. }
  unfold apply_structured_masking. fold n. rewrite Hint. run_step.
  cbn [index lookup list_lookup]. run_step.
  unfold slice_to. destruct (0 <=? t)%Z eqn:E; [apply Z.leb_le in E; lia|].
  rewrite Hlen, Hm0. fold primary. run_step.
  destruct (take_at_ok m1 primary Hpb) as (sel & Hsel & HF).
  rewrite Hsel. do 2 run_step.
  rewrite (bind_ok _ _ _ _ _ (stage2_runs primary m1 sel w Hpnd HF)).
  match goal with |- context [(0 <? ?r)%Z] => destruct (0 <? r)%Z eqn:Hrem end.
  { apply Z.ltb_lt in Hrem. lia. }
  unfold ret. eexists _, w. split; [reflexivity|]. split; [|reflexivity].
  intros i Hi. apply elem_of_list_to_set in Hi.
  apply list_elem_of_filter in Hi as [_ Hi]. apply Hpn, Hi.
Qed.

Lemma parse_positions_inv (snps : list string) ps :
  parse_positions snps = Ok ps ->
  Forall (fun s => exists p z, index (split_on "_" s) 1 = Ok p /\ int_of_str p = Some z)
         snps.
Proof.
  revert ps. induction snps as [|s snps IH]; intros ps Hps; [constructor|].
  simpl in Hps.
  destruct (index (split_on "_" s) 1) as [p|e] eqn:Ep; [|discriminate].
  destruct (int_of_str p) as [z|] eqn:Ez; [|discriminate].
  destruct (parse_positions snps) as [zs|e] eqn:Ers; [|discriminate].
  constructor; [exists p, z; auto|]. eapply IH. reflexivity.
Qed.

Lemma stage_val_runs m0 m1 m2 s i :
  s < 3 -> exists c, stage_val [m0; m1; m2] s i = Ok c.
Proof.
  intros Hs. unfold stage_val.
  destruct s as [|[|[|s]]]; [| | |lia]; cbn [index lookup list_lookup];
    match goal with |- context [?m !! i] => destruct (m !! i) end; eauto.
Qed.

Lemma random_row_runs m0 m1 m2 masked qms acc i a b w :
  exists acc', mask_row [m0; m1; m2] masked qms acc (i, key a b) w = (Ok acc', w).
Proof.
  unfold mask_row.
  destruct (stage_val_runs m0 m1 m2 0 i) as [s1 ->]; [lia|].
  destruct (stage_val_runs m0 m1 m2 1 i) as [s2 ->]; [lia|].
  destruct (stage_val_runs m0 m1 m2 2 i) as [s3 ->]; [lia|].
  destruct (split_key a b) as (c0 & c1 & -> & ->). do 5 run_step. unfold ret. eauto.
Qed.

Lemma quantify_masking_strength_ok (snps : list string) (masked_indices : gset nat) :
  Forall (fun s => exists p z, index (split_on "_" s) 1 = Ok p /\ int_of_str p = Some z)
         snps ->
  (forall i, i ∈ masked_indices -> i < length snps) ->
  snps <> [] ->
  exists q, quantify_masking_strength snps masked_indices = Ok q.
Proof.
  intros Hall Hb Hne. unfold quantify_masking_strength.
  destruct (parse_positions_ok snps Hall) as (ps & -> & Hlen).
  destruct (take_at_ok ps (elements masked_indices)) as (xs & -> & _).
  { apply Forall_forall. intros i Hi. apply elem_of_elements in Hi.
    rewrite Hlen. apply Hb, Hi. }
  destruct (length xs <? 2); [eauto|].
  unfold truediv. destruct (Z.eqb_spec (Z.of_nat (length snps)) 0) as [Hz|_]; [|eauto].
  destruct snps; [contradiction|simpl in Hz; lia].
Qed.

(** What a run of the random strategy that returns has gone past: the
    seed was one NumPy accepts, and the variants were not eight, as many as
    the columns of the table. *)
Lemma random_run_conditions cfg content b w df w' :
  create_mask_from_ld cfg content b w = (Ok df, w') ->
  seed_ok (seed_ cfg) = true
  /\ length (sorted_strs (scan collect_snps b content ∅)) <> 8.
Proof.
  unfold create_mask_from_ld. intros Hrun.
  apply bind_inv_ok in Hrun as (mask_sets & w1 & Hgen & Hrun).
  split; [apply (generate_random_masks_inv _ _ _ _ _ Hgen)|].
  apply bind_inv_ok in Hrun as (masked & w2 & _ & Hrun).
  apply lift_bind_ok in Hrun as (qms & _ & Hrun).
  apply lift_bind_ok in Hrun as (rate & _ & Hrun).
  apply bind_inv_ok in Hrun as (mask_data & w3 & Hrows & Hrun).
  apply lift_bind_ok in Hrun as (mask_df & Hdf & Hrun).
  destruct (mask_table_built _ _ _ _ _ _ _ _
              (random_row_mixed _ _ _) Hrows Hdf) as [_ Hsq].
  rewrite (for_each_rows_length _ snd _ (random_row _ _ _) _ _ _ Hrows) in Hsq.
  rewrite length_imap in Hsq. exact Hsq.
Qed.

(** X25.  The random strategy returns a table exactly when the seed is
    one NumPy accepts, an integer from 0 to 2**32 - 1, at least one variant
    was read, the variants are not eight, as many as the columns of the
    table, the target [int(n * rate)] can be computed, and the position in
    every key reads as an integer.  No rate is refused: a target below
    zero or above n passes through the three stages. *)
Theorem random_returns_iff (cfg : config) (content : string) (b : nat) (w : world) :
  let ids := sorted_strs (scan collect_snps b content ∅) in
  (exists df w', create_mask_from_ld cfg content b w = (Ok df, w'))
  <-> (seed_ok (seed_ cfg) = true
       /\ ids <> []
       /\ length ids <> 8
       /\ (exists t, int_scaled (length ids) (missing_rate cfg) = Ok t)
       /\ Forall (fun s => exists p z,
                    index (split_on "_" s) 1 = Ok p /\ int_of_str p = Some z) ids).
Proof.
  intros ids. split.
  - intros (df & w' & Hrun).
    destruct (random_run_conditions _ _ _ _ _ _ Hrun) as [Hseed Hsq].
    destruct (random_table _ _ _ _ _ _ Hrun)
      as (masked & qms & t & Hne & Ht & _ & Hq & _).
    fold ids in Hne, Ht, Hq, Hsq. split; [exact Hseed|]. split; [exact Hne|].
    split; [exact Hsq|]. split; [exists t; exact Ht|].
    unfold quantify_masking_strength in Hq.
    destruct (parse_positions ids) as [ps|e] eqn:Eps; [|discriminate].
    eapply parse_positions_inv. exact Eps.
  - intros (Hseed & Hne & Hsq & (t & Ht) & Hall).
    unfold create_mask_from_ld. fold ids.
    destruct (generate_random_masks_lengths cfg (length ids) w Hseed)
      as (m0 & m1 & m2 & w1 & Hgen & Hl0 & Hl1 & _).
    rewrite (bind_ok _ _ _ _ _ Hgen).
    destruct (apply_structured_masking_runs cfg ids m0 m1 m2 t w1 Hl0 Hl1 Ht)
      as (masked & w2 & Happ & Hb & _).
    rewrite (bind_ok _ _ _ _ _ Happ).
    destruct (quantify_masking_strength_ok ids masked Hall Hb Hne) as (q & Hq).
    rewrite Hq. run_step.
    assert (Hdiv : exists r, truediv (Z.of_nat (size masked)) (Z.of_nat (length ids)) = Ok r).
    { unfold truediv. destruct (Z.eqb_spec (Z.of_nat (length ids)) 0) as [Hz|_]; [|eauto].
      destruct ids; [contradiction|simpl in Hz; lia]. }
    destruct Hdiv as [r Hdiv]. rewrite Hdiv. run_step.
    destruct (for_each_total (imap (fun i snp => (i, snp)) ids)
                (mask_row [m0; m1; m2] masked q) (fun _ => True))
      with (s := @nil (list cell)) (w := w2) as (rows & w3 & Hrows & _); [|exact I|].
    + intros s [i x] w0 Hx _.
      assert (Hkey : exists a b, x = key a b).
      { apply elem_of_lookup_imap in Hx as (j & y & Hxy & Hy).
        injection Hxy as -> ->.
        apply list_elem_of_lookup_2 in Hy.
        apply (proj2 (sorted_strs_spec _)) in Hy.
        apply collect_lines in Hy as (line & r0 & _ & _ & [->| ->]);
          eexists _, _; reflexivity. }
      destruct Hkey as (a & b0 & ->).
      destruct (random_row_runs m0 m1 m2 masked q s i a b0 w0) as (acc' & Hacc). eauto.
    + rewrite (bind_ok _ _ _ _ _ Hrows).
      rewrite pl_DataFrame_rows.
      2:{ rewrite (for_each_rows_length _ snd _ (random_row _ _ _) _ _ _ Hrows).
          rewrite length_imap. exact Hsq. }
      do 3 run_step. unfold ret. eauto.
Qed.

End RandomReturns.

(* ===================================================================== *)
(** ** The further statements on the sample files                         *)
(* ===================================================================== *)

Module Checks.
Import Ref RefGraph Samples Cases Examples.

Example graph_run :
  LDGraph.build_pytorch_geometric_graph builder ld_five 2 = Ok graph.
Proof. by_evaluation. Qed.

(** The retained lines of [ld_file] have three distinct keys between
    them: the three lists of the node table are taken for its columns, the
    column chr then holds a key, and the cast to [Float64] fails. *)
Example graph_three_keys :
  LDGraph.create_nodes_from_ids ["1_200"; "1_1000"; "1_100"]
  = Ok [["1"; "1"; "1"]; ["200"; "1000"; "100"]; ["1_200"; "1_1000"; "1_100"]]
  /\ LDGraph.build_pytorch_geometric_graph builder ld_file 2
     = Raise InvalidOperationError.
Proof. split; by_evaluation. Qed.

(** Eight variants make eight rows for the eight columns of the random
    strategy, and the six variants of the retained lines six rows for the
    six columns of the k-nearest strategy: both tables are refused, and
    nothing is written. *)
Example rnd_square :
  (RandomMasking.create_mask_from_ld rnd eight_variants 2 start).1 = Raise TypeError
  /\ w_disk (RandomMasking.create_mask_from_ld rnd eight_variants 2 start).2 = None.
Proof. split; by_evaluation. Qed.

Example knn_square :
  (KNearest.create_mask_from_ld (knn 2) eight_variants 2 start).1 = Raise TypeError
  /\ w_disk (KNearest.create_mask_from_ld (knn 2) eight_variants 2 start).2 = None.
Proof. split; by_evaluation. Qed.

(** The random strategy on [ld_five], with a seed NumPy refuses. *)
Example rnd_seed_refused :
  RandomMasking.create_mask_from_ld (RandomMasking.mkConfig (Num (1 # 2)) (-1))
    ld_five 2 start
  = (Raise ValueError, start).
Proof. by_evaluation. Qed.

(** An underscore in a chromosome name: the key is cut at its first two
    underscores, so that CHR holds the start of the name and POS its
    rest. *)
Example unplaced_run :
  (Columnwise.create_mask_from_ld col unplaced 2 start).1 = Ok unplaced_table.
Proof. by_evaluation. Qed.

(** In the graph of [ld_five] the first edge leaves node 0, which is the
    key "1_100" among the sorted keys, while row 0 of the feature matrix,
    listed in the order of the set, belongs to "2_50". *)
Example graph_rows_follow_listing :
  sorted_strs (list_to_set ["1_100"; "1_1000"; "1_200"; "2_50"])
  = ["1_100"; "1_1000"; "1_200"; "2_50"]
  /\ to_list (list_to_set ["1_100"; "1_1000"; "1_200"; "2_50"])
     = ["2_50"; "1_200"; "1_1000"; "1_100"]
  /\ (LDGraph.edge_index graph).1 !! 0 = Some 0
  /\ LDGraph.x graph !! 0 = Some [Num 2; Num 50].
Proof.
  split; [by_evaluation|]. split; [by_evaluation|]. split; reflexivity.
Qed.

Example ld_five_lines :
  open_text ld_five
  = [(header ++ nl)%string; ("1 100 rs1 1 200 rs2 0.9" ++ nl)%string;
     ("1 200 rs2 1 300 rs3 0.5" ++ nl)%string;
     ("1 200 rs2 1 100 rs1 9e-1" ++ nl)%string;
     ("1 1000 rs4 1 100 rs1 0.85" ++ nl)%string;
     ("1 1000 rs4 2 50 rs5 0.95" ++ nl)%string].
Proof. reflexivity. Qed.

Lemma ld_five_names line r :
  line ∈ open_text ld_five -> fields line = Some r ->
  occurrences "_" (CHR_A r) = 0 /\ occurrences "_" (BP_A r) = 0
  /\ occurrences "_" (CHR_B r) = 0 /\ occurrences "_" (BP_B r) = 0.
Proof.
  rewrite ld_five_lines. intros Hin Hf.
  repeat (apply elem_of_cons in Hin as [->|Hin]);
    [..|apply elem_of_nil in Hin; contradiction];
    vm_compute in Hf; try discriminate Hf; injection Hf as <-;
    repeat split; reflexivity.
Defined.


Lemma columnwise_masks_exact_count_witness :
  int_scaled (length (rows col_table)) (Columnwise.missing_rate col)
  = Ok (Z.of_nat (flag_count 3 col_table))
  /\ flag_count 3 col_table <= length (rows col_table)
  /\ length (rows col_table) <> 4
  /\ w_disk col_world = Some col_table.
Proof.
  apply (columnwise_masks_exact_count col ld_five 2 start col_table col_world).
  by_evaluation.
Defined.

Lemma columnwise_out_of_range_raises_witness :
  exists w',
    Columnwise.create_mask_from_ld col_over ld_file 2 start = (Raise ValueError, w')
    /\ w_disk w' = w_disk start.
Proof.
  apply (columnwise_out_of_range_raises col_over ld_file 2 start 8).
  - by_evaluation.
  - right. unfold Z.lt. by_evaluation.
Defined.

Lemma knearest_table_invariants_witness :
  rows knn_table <> []
  /\ int_scaled (length (rows knn_table)) (KNearest.missing_rate (knn 2))
     = Ok (Z.of_nat (flag_count 4 knn_table))
  /\ flag_count 4 knn_table <= flag_count 3 knn_table <= length (rows knn_table)
  /\ flag_count 3 knn_table <= flag_count 4 knn_table * (1 + Z.to_nat (KNearest.k (knn 2))).
Proof.
  destruct (knearest_table_invariants (knn 2) ld_file 2 start knn_table knn_world)
    as (Hne & Hseeds & _ & _ & Hle & Hk).
  - by_evaluation.
  - split; [exact Hne|]. split; [exact Hseeds|]. split; [exact Hle|].
    apply Hk. simpl. lia.
Defined.

Lemma knearest_out_of_range_raises_witness :
  exists w',
    KNearest.create_mask_from_ld knn_over ld_file 2 start = (Raise ValueError, w')
    /\ w_disk w' = w_disk start.
Proof.
  apply (knearest_out_of_range_raises knn_over ld_file 2 start 6).
  - by_evaluation.
  - right. unfold Z.lt. by_evaluation.
Defined.

Lemma random_rate_above_one_masks_all_witness :
  exists masked w',
    RandomMasking.apply_structured_masking rnd_over four
      [(random 4 42).1; (random 4 43).1; (random 4 44).1] start
    = (Ok masked, w')
    /\ (forall i, i ∈ masked <-> i < length four)
    /\ w_disk w' = w_disk start.
Proof.
  apply (random_rate_above_one_masks_all rnd_over four
           (random 4 42).1 (random 4 43).1 (random 4 44).1 8 start).
  - by_evaluation.
  - by_evaluation.
  - by_evaluation.
  - simpl. lia.
Defined.

Lemma random_table_invariants_witness :
  rows rnd_table <> []
  /\ (exists t,
        int_scaled (length (rows rnd_table)) (RandomMasking.missing_rate rnd) = Ok t
        /\ ((0 <= t)%Z -> flag_count 3 rnd_table = Z.to_nat t `min` length (rows rnd_table)))
  /\ (exists qms, Forall (fun row => row !! 7 = Some (CFloat qms)) (rows rnd_table))
  /\ w_disk rnd_world = Some rnd_table.
Proof.
  apply (random_table_invariants rnd ld_file 2 start rnd_table rnd_world).
  by_evaluation.
Defined.

Lemma quantify_rejects_non_integer_position_witness :
  RandomMasking.quantify_masking_strength ["1_100"; "chrUn_gl1_5"] ∅ = Raise ValueError.
Proof.
  apply (quantify_rejects_non_integer_position ["1_100"; "chrUn_gl1_5"] ∅
           "chrUn_gl1_5" "gl1").
  - constructor; [exists "1", "100"; reflexivity|].
    constructor; [exists "chrUn", "gl1_5"; reflexivity|constructor].
  - apply list_elem_of_further, list_elem_of_here.
  - by_evaluation.
  - by_evaluation.
Defined.

Lemma quantify_masking_strength_total_witness :
  exists q,
    RandomMasking.quantify_masking_strength ["1_100"; "1_200"] {[0]} = Ok q
    /\ (size ({[0]} : gset nat) < 2 -> q = flit 0 0).
Proof.
  apply (quantify_masking_strength_total ["1_100"; "1_200"] {[0]}).
  - constructor; [exists "100", 100%Z; split; by_evaluation|].
    constructor; [exists "200", 200%Z; split; by_evaluation|constructor].
  - intros i Hi. apply elem_of_singleton in Hi. subst i. simpl. lia.
Defined.

Lemma chr_pos_columns_round_trip_witness :
  exists chr pos,
    take 3 [CStr "1"; CStr "1000"; CStr "1_1000"; CBool true]
    = [CStr chr; CStr pos; CStr (key chr pos)]
    /\ exists line r,
         line ∈ open_text ld_five /\ fields line = Some r
         /\ (chr = CHR_A r /\ pos = BP_A r \/ chr = CHR_B r /\ pos = BP_B r).
Proof.
  apply (chr_pos_columns_round_trip ld_five 2 start col_table col_world).
  - exact ld_five_names.
  - left. exists col. by_evaluation.
  - apply list_elem_of_further, list_elem_of_here.
Defined.

Lemma sample_step_missing_count_witness :
  exists e t,
    dict_get "S0" s0_record = Some e
    /\ index [Rowwise.high] 0 = Ok (Rowwise.category_ e)
    /\ int_scaled (length four) (drawn_rate (Rowwise.category_ e) (w_rng start)) = Ok t
    /\ Rowwise.n_missing e = Z.to_nat t
    /\ Rowwise.n_missing e <= Rowwise.n_total e
    /\ Rowwise.n_total e = length four.
Proof.
  apply (sample_step_missing_count rw genotypes four [Rowwise.high] [] 0 "S0"
           [0; 1; 2; 0]%Z start s0_record s0_world).
  - reflexivity.
  - reflexivity.
  - rewrite !elem_of_cons, elem_of_nil. intros Hin.
    repeat (destruct Hin as [Hin|Hin]; [discriminate|]). exact Hin.
  - by_evaluation.
Defined.

Lemma rowwise_category_counts_witness :
  rw_records.*1 = ["S0"; "S1"; "S2"]
  /\ (fun e => Rowwise.category_ e.2) <$> rw_records
     ≡ₚ replicate (Z.to_nat 2) Rowwise.low ++ replicate (Z.to_nat 0) Rowwise.medium
        ++ replicate (length ["S0"; "S1"; "S2"] - Z.to_nat 2 - Z.to_nat 0) Rowwise.high
  /\ Forall (fun e => Rowwise.n_total e.2 = length four) rw_records.
Proof.
  apply (rowwise_category_counts rw ["S0"; "S1"; "S2"] genotypes four 2 0 start
           rw_records rw_world).
  - apply (bool_decide_unpack _). vm_compute. exact I.
  - by_evaluation.
  - by_evaluation.
  - lia.
  - lia.
  - simpl. lia.
  - by_evaluation.
Defined.

Lemma assess_bands_partition_witness :
  let stats := Rowwise.assess_missing_patterns rw_records in
  Rowwise.low_miss_samples stats + Rowwise.medium_miss_samples stats
  + Rowwise.high_miss_samples stats
  = length (filter (fun e => fle (Rowwise.missingness_pct e.2)
                                 (Rowwise.missingness_pct e.2) = true)
                   rw_records).
Proof.
  apply (assess_bands_partition rw_records). by_evaluation.
Defined.

Lemma filtered_edges_outcome_witness :
  0 < 2
  /\ lines_as_rows 2 ld_file = true
  /\ LDGraphBuilder.filtered_edges builder ld_file 2
     = if forallb castable (omap fields (open_text ld_file))
       then Ok (filter (fun r => retained builder r = true)
                       (omap fields (open_text ld_file)))
       else Raise InvalidOperationError.
Proof.
  assert (Hrows : lines_as_rows 2 ld_file = true) by reflexivity.
  split; [lia|]. split; [exact Hrows|].
  destruct (filtered_edges_outcome builder ld_file 2) as [Hout Hdf]; [lia|].
  rewrite <- (Hdf Hrows). exact Hout.
Defined.

Lemma create_ld_clusters_valid_witness :
  (@nil ld_row) = [] /\ start = start
  /\ NoDup two_clusters.*1
  /\ Forall (fun kv : nat * list string =>
               (MAFCluster.cluster_size_min maf2 <= Z.of_nat (length kv.2))%Z
               /\ kv.2 <> []
               /\ forall s, s ∈ kv.2 -> s ∈ five)
            two_clusters
  /\ length (concat two_clusters.*2)
     <= length five
  /\ (NoDup five ->
      NoDup (concat two_clusters.*2)).
Proof.
  apply (create_ld_clusters_valid maf2 [] five start
           two_clusters start).
  by_evaluation.
Defined.

Lemma graph_edges_decode_witness :
  let kept := filter (fun r => retained builder r = true)
                     (omap fields (open_text ld_five)) in
  let classes_ := sorted_strs (list_to_set ((snp_a <$> kept) ++ (snp_b <$> kept))) in
  lines_as_rows 2 ld_five = true
  /\ Forall2 (fun r s => classes_ !! s = Some (snp_a r)) kept (LDGraph.edge_index graph).1
  /\ Forall2 (fun r t => classes_ !! t = Some (snp_b r)) kept (LDGraph.edge_index graph).2
  /\ Forall2 (fun r a => exists v, cast_f64 (R2 r) = Some v
                                   /\ fge v (LDGraphBuilder.r2_threshold builder) = true
                                   /\ a = float32 v)
             kept (LDGraph.edge_attr graph).
Proof.
  assert (Hrows : lines_as_rows 2 ld_five = true) by reflexivity.
  destruct (graph_edges_decode builder ld_five 2 graph) as (Hs & Ht & Ha & Hdf);
    [lia|by_evaluation|].
  cbv zeta in Hs, Ht, Ha, Hdf. rewrite (Hdf Hrows) in Hs, Ht, Ha.
  cbv zeta. split; [exact Hrows|]. split; [exact Hs|]. split; [exact Ht|exact Ha].
Defined.

Lemma graph_node_features_witness :
  let kept := filter (fun r => retained builder r = true)
                     (LDGraphBuilder.load_ld_data ld_five 2) in
  let unique : gset string := list_to_set ((snp_a <$> kept) ++ (snp_b <$> kept)) in
  size unique <> 3
  /\ Forall2 (fun node_id row =>
             exists chr bp c p,
               node_id = key chr bp
               /\ occurrences "_" chr = 0 /\ occurrences "_" bp = 0
               /\ cast_f64 chr = Some c /\ cast_f64 bp = Some p
               /\ row = [float32 c; float32 p])
          (to_list unique) (LDGraph.x graph)
  /\ forall r chr bp,
       r ∈ kept ->
       chr = CHR_A r /\ bp = BP_A r \/ chr = CHR_B r /\ bp = BP_B r ->
       occurrences "_" chr = 0 /\ occurrences "_" bp = 0
       /\ is_Some (cast_f64 chr) /\ is_Some (cast_f64 bp).
Proof.
  intros kept unique.
  assert (Hsize : size unique = 4) by by_evaluation.
  assert (Hne : size unique <> 3) by (rewrite Hsize; discriminate).
  split; [exact Hne|].
  destruct (graph_node_features builder ld_five 2 graph) as [Hn _];
    [lia|by_evaluation|].
  apply (Hn Hne).
Defined.

Lemma columnwise_no_data_returns_empty_witness :
  exists w',
    Columnwise.create_mask_from_ld col header_only 2 start
    = (Ok (mkDF ["CHR"; "POS"; "SNP_ID"; "MASKED"] []), w')
    /\ w_disk w' = Some (mkDF ["CHR"; "POS"; "SNP_ID"; "MASKED"] []).
Proof.
  apply (columnwise_no_data_returns_empty col header_only 2 start).
  - rewrite header_only_lines. intros line Hin.
    apply list_elem_of_singleton in Hin as ->. by_evaluation.
  - by_evaluation.
Defined.

(** On the reference platform a drawn rate is the lower bound of its
    interval, and the two variants of [one_line] are never too few. *)
Lemma one_line_rates (g : rng) (lo hi : float) :
  (lo, hi) ∈ bands ->
  exists t,
    int_scaled (length (sorted_strs (scan collect_snps 2 one_line ∅)))
               (np_uniform lo hi g).1 = Ok t
    /\ (t <= Z.of_nat (length (sorted_strs (scan collect_snps 2 one_line ∅))))%Z.
Proof.
  unfold bands. rewrite !elem_of_cons, elem_of_nil.
  intros [Heq|[Heq|[Heq|[]]]]; injection Heq as -> ->;
    (exists 0%Z; split; [by_evaluation|apply Nat2Z.is_nonneg]).
Qed.

Lemma rowwise_table_lists_samples_witness :
  exists df stats w',
    Rowwise.create_mask_from_ld rw one_line 2 start = (Ok (df, stats), w')
    /\ length (rows df) = 1000
    /\ Forall2 (fun i row =>
                  row !! 0 = Some (CStr (Rowwise.sample_id i))
                  /\ row !! 1
                     = Some (CInt (Z.of_nat
                                     (length (sorted_strs (scan collect_snps 2 one_line ∅)))))
                  /\ row !! 6 = Some (CStr (Rowwise.pattern_type stats)))
               (seq 0 1000) (rows df)
    /\ w_disk w' = Some df.
Proof.
  destruct (rowwise_runs rw one_line 2 start) as (df & stats & w' & Hrun & _).
  - exists 700%Z. by_evaluation.
  - exists 200%Z. by_evaluation.
  - exact one_line_rates.
  - exists df, stats, w'. split; [exact Hrun|].
    apply (rowwise_table_lists_samples rw one_line 2 start df stats w' Hrun).
Defined.

Lemma rowwise_returns_witness :
  exists df stats w',
    Rowwise.create_mask_from_ld rw one_line 2 start = (Ok (df, stats), w')
    /\ w_disk w' = Some df.
Proof.
  apply (rowwise_returns rw one_line 2 start 700 200).
  - by_evaluation.
  - by_evaluation.
  - exact one_line_rates.
Defined.

End Checks.
